(** * bgc_data_processing: constraints, matching, interpolation, metrics

    A shallow embedding of the table-processing core of the
    [bgc_data_processing] package, with the properties of its
    specification stated over that embedding.

    The pandas objects are modelled by what the code uses of them:
    - a cell is a finite number or the missing value (NaN); finite values
      are integers here, since the code only orders and compares them;
    - a [Series] is an ordered list of labelled cells;
    - a [DataFrame] is an ordered list of column labels and an ordered list
      of rows, each row carrying its index label and a map from column
      label to cell; a label absent from the map reads as NaN;
    - exceptions are values of [exn], and a function that may raise returns
      a [result]. *)

From stdpp Require Import base option list strings gmap pretty.
From Stdlib Require Import ZArith Lia Permutation.

Local Open Scope Z_scope.
Local Open Scope string_scope.
Local Open Scope list_scope.

(** ** Cells and exceptions *)

Inductive cell : Type :=
| NaN : cell
| Num (z : Z) : cell.

Global Instance cell_eq_dec : EqDecision cell.
Proof. solve_decision. Defined.

Definition is_nan (c : cell) : bool :=
  match c with NaN => true | Num _ => false end.

(** [a >= b], [a <= b], [a > b], [a < b] on floats: false as soon as one
    side is NaN. *)
Definition cell_ge (a b : cell) : bool :=
  match a, b with Num x, Num y => (y <=? x)%Z | _, _ => false end.
Definition cell_le (a b : cell) : bool :=
  match a, b with Num x, Num y => (x <=? y)%Z | _, _ => false end.
Definition cell_gt (a b : cell) : bool :=
  match a, b with Num x, Num y => (y <? x)%Z | _, _ => false end.
Definition cell_lt (a b : cell) : bool :=
  match a, b with Num x, Num y => (x <? y)%Z | _, _ => false end.

Inductive exn : Type :=
| IndexError
| KeyError (label : string)
| TypeError (msg : string)
| AttributeError (msg : string)
| ValueError (msg : string)
| UnboundLocalError (name : string)
| IncorrectVariableNameError (name : string)
| IncomparableStorersError (msg : string)
| IncompatibleVariableSetsError (msg : string)
| IncompatibleCategoriesError (msg : string)
| FeatureConstructionError (names : list string).

Inductive result (A : Type) : Type :=
| Ok (a : A)
| Raise (e : exn).
Arguments Ok {A} a.
Arguments Raise {A} e.

Global Instance result_ret : MRet result := fun A a => Ok a.
Global Instance result_bind : MBind result := fun A B f m =>
  match m with Ok a => f a | Raise e => Raise e end.

(** ** Series and DataFrame *)

Definition Series : Type := list (string * cell).

Definition series_get (s : Series) (label : string) : result cell :=
  match list_find (fun p => p.1 = label) s with
  | Some (_, p) => Ok p.2
  | None => Raise (KeyError label)
  end.

(** [s[label] = v]: overwrite in place, or append a new entry. *)
Fixpoint series_set (s : Series) (label : string) (v : cell) : Series :=
  match s with
  | [] => [(label, v)]
  | (l, c) :: s' =>
      if decide (l = label) then (l, v) :: s' else (l, c) :: series_set s' label v
  end.

(** [s[labels]]: reorder along [labels]; unknown labels raise. *)
Fixpoint series_take (s : Series) (labels : list string) : result Series :=
  match labels with
  | [] => Ok []
  | l :: ls =>
      v ← series_get s l;
      rest ← series_take s ls;
      Ok ((l, v) :: rest)
  end.

Definition Row : Type := gmap string cell.

Definition row_get (r : Row) (label : string) : cell :=
  default NaN (r !! label).

Record DataFrame : Type := mkDataFrame {
  columns : list string;
  rows : list (cell * Row)
}.

Definition index (df : DataFrame) : list cell := (rows df).*1.

Definition shape (df : DataFrame) : nat * nat :=
  (length (rows df), length (columns df)).

(** [df[label]]: the cells of one column, in row order. *)
Definition get_column (df : DataFrame) (label : string) : result (list cell) :=
  if decide (label ∈ columns df)
  then Ok (map (fun ir => row_get ir.2 label) (rows df))
  else Raise (KeyError label).

(** [df.iloc[:, 0].shape]: the number of rows, read off the first column. *)
Definition first_column_shape (df : DataFrame) : result nat :=
  match columns df with
  | [] => Raise IndexError
  | _ :: _ => Ok (length (rows df))
  end.

(** Selection of the positions where a boolean mask is [true]. *)
Fixpoint select_mask {A : Type} (mask : list bool) (l : list A) : list A :=
  match mask, l with
  | b :: mask', x :: l' =>
      if b then x :: select_mask mask' l' else select_mask mask' l'
  | _, _ => []
  end.

(** [df.loc[mask, :]] and [df[mask]] with a boolean mask aligned on the rows:
    the selected rows keep their index labels. *)
Definition loc_mask (df : DataFrame) (mask : list bool) : DataFrame :=
  {| columns := columns df; rows := select_mask mask (rows df) |}.

(** Element-wise [&] and [|] of two boolean arrays of one length. *)
Definition mask_and (a b : list bool) : list bool := zip_with andb a b.
Definition mask_or (a b : list bool) : list bool := zip_with orb a b.

(** One row of a frame as a Series, along the frame's columns. *)
Definition row_to_series (cols : list string) (r : Row) : Series :=
  map (fun c => (c, row_get r c)) cols.

(** Sequential loops whose body may raise. *)
Fixpoint fold_result {A B : Type} (f : A -> B -> result A) (a : A) (l : list B)
  : result A :=
  match l with
  | [] => Ok a
  | x :: l' => a' ← f a x; fold_result f a' l'
  end.

(** The truth value of a list: non-empty. *)
Definition truthy {A : Type} (l : list A) : bool :=
  match l with [] => false | _ :: _ => true end.

(** ** Python dictionaries, in insertion order *)

Definition dict (V : Type) : Type := list (string * V).

Fixpoint dict_get {V : Type} (d : dict V) (k : string) : option V :=
  match d with
  | [] => None
  | (k', v) :: d' => if decide (k' = k) then Some v else dict_get d' k
  end.

(** [d[k] = v]: an existing key keeps its position. *)
Fixpoint dict_set {V : Type} (k : string) (v : V) (d : dict V) : dict V :=
  match d with
  | [] => [(k, v)]
  | (k', v') :: d' =>
      if decide (k' = k) then (k, v) :: d' else (k', v') :: dict_set k v d'
  end.

Definition dict_in {V : Type} (d : dict V) (k : string) : bool :=
  bool_decide (is_Some (dict_get d k)).

(** ** Python's [min] and [max] *)

Definition py_min2 (a b : cell) : cell := if cell_lt b a then b else a.
Definition py_max2 (a b : cell) : cell := if cell_gt b a then b else a.

Definition py_min (l : list cell) : result cell :=
  match l with
  | [] => Raise (ValueError "min() arg is an empty sequence")
  | x :: xs => Ok (foldl py_min2 x xs)
  end.

Definition py_max (l : list cell) : result cell :=
  match l with
  | [] => Raise (ValueError "max() arg is an empty sequence")
  | x :: xs => Ok (foldl py_max2 x xs)
  end.

(** [m] is the least, resp. greatest, element of a list. *)
Definition least_of (m : Z) (l : list Z) : Prop :=
  m ∈ l /\ forall z, z ∈ l -> (m <= z)%Z.
Definition greatest_of (m : Z) (l : list Z) : Prop :=
  m ∈ l /\ forall z, z ∈ l -> (z <= m)%Z.

(** ** Keyword arguments of a call *)

Inductive arg : Type :=
| ArgStr (s : string)
| ArgCell (c : cell)
| ArgCells (l : list cell).

(** A keyword that names no parameter of the callee is a [TypeError]. *)
Definition bind_keywords (fname : string) (params : list string)
    (kwargs : list (string * arg)) : result unit :=
  match list_find (fun kv => kv.1 ∉ params) kwargs with
  | Some (_, kv) =>
      Raise (TypeError (fname ++ "() got an unexpected keyword argument '"
                         ++ kv.1 ++ "'"))
  | None => Ok ()
  end.

Definition missing_argument (fname pname : string) : exn :=
  TypeError (fname ++ "() missing 1 required positional argument: '"
              ++ pname ++ "'").

(** ** core/filtering.py *)

Module Filtering.
Section WithPolygons.

(** Polygons and the point-in-polygon test come from shapely and geopandas;
    [within x y p] is [points_from_xy(x, y).within(p)] at one point. *)
Context {Polygon : Type}.
Variable within : cell -> cell -> Polygon -> bool.

Record PolygonConstraint : Type := mkPolygonConstraint {
  latitude_field : string;
  longitude_field : string;
  polygon : Polygon
}.

Record Constraints : Type := mkConstraints {
  boundaries : dict (cell * cell);
  supersets : dict (list cell);
  polygons : list PolygonConstraint
}.

Definition Constraints_init : Constraints :=
  {| boundaries := []; supersets := []; polygons := [] |}.

Definition reset (self : Constraints) : Constraints :=
  {| boundaries := []; supersets := []; polygons := polygons self |}.

Definition add_boundary_constraint (self : Constraints) (field_label : string)
    (minimal_value maximal_value : cell) : Constraints :=
  let is_min_nan := is_nan minimal_value in
  let is_max_nan := is_nan maximal_value in
  if negb (is_min_nan && is_max_nan)
  then {| boundaries :=
            dict_set field_label (minimal_value, maximal_value) (boundaries self);
          supersets := supersets self;
          polygons := polygons self |}
  else self.

Definition add_superset_constraint (self : Constraints) (field_label : string)
    (values_superset : option (list cell)) : Constraints :=
  let values_superset := default [] values_superset in
  if truthy values_superset
  then {| boundaries := boundaries self;
          supersets := dict_set field_label values_superset (supersets self);
          polygons := polygons self |}
  else self.

Definition add_polygon_constraint (self : Constraints)
    (latitude_field longitude_field : string) (polygon : Polygon) : Constraints :=
  {| boundaries := boundaries self;
     supersets := supersets self;
     polygons := polygons self ++
       [mkPolygonConstraint latitude_field longitude_field polygon] |}.

(** The two registration methods as they are called with keyword arguments. *)
Definition call_add_boundary_constraint (self : Constraints)
    (kwargs : list (string * arg)) : result Constraints :=
  _ ← bind_keywords "Constraints.add_boundary_constraint"
        ["field_label"; "minimal_value"; "maximal_value"] kwargs;
  match dict_get kwargs "field_label" with
  | Some (ArgStr field_label) =>
      let minimal_value :=
        match dict_get kwargs "minimal_value" with
        | Some (ArgCell c) => c | _ => NaN end in
      let maximal_value :=
        match dict_get kwargs "maximal_value" with
        | Some (ArgCell c) => c | _ => NaN end in
      Ok (add_boundary_constraint self field_label minimal_value maximal_value)
  | _ => Raise (missing_argument "Constraints.add_boundary_constraint"
                  "field_label")
  end.

Definition call_add_superset_constraint (self : Constraints)
    (kwargs : list (string * arg)) : result Constraints :=
  _ ← bind_keywords "Constraints.add_superset_constraint"
        ["field_label"; "values_superset"] kwargs;
  match dict_get kwargs "field_label" with
  | Some (ArgStr field_label) =>
      let values_superset :=
        match dict_get kwargs "values_superset" with
        | Some (ArgCells l) => Some l | _ => None end in
      Ok (add_superset_constraint self field_label values_superset)
  | _ => Raise (missing_argument "Constraints.add_superset_constraint"
                  "field_label")
  end.

Definition boundary_step (df : DataFrame) (series : list bool)
    (item : string * (cell * cell)) : result (list bool) :=
  let label := item.1 in
  let minimum := item.2.1 in
  let maximum := item.2.2 in
  label_series ← get_column df label;
  let is_min_nan := is_nan minimum in
  let is_max_nan := is_nan maximum in
  if is_min_nan && is_max_nan then Ok series
  else
    let bool_series :=
      if is_max_nan then map (fun v => cell_ge v minimum) label_series
      else if is_min_nan then map (fun v => cell_le v maximum) label_series
      else mask_and (map (fun v => cell_ge v minimum) label_series)
                    (map (fun v => cell_le v maximum) label_series) in
    Ok (mask_and series bool_series).

Definition _apply_boundary_constraints (self : Constraints) (df : DataFrame)
  : result (list bool) :=
  n ← first_column_shape df;
  fold_result (boundary_step df) (replicate n true) (boundaries self).

(** [Series.isin]: membership, a missing value matching a missing value. *)
Definition isin (value_set : list cell) (v : cell) : bool :=
  bool_decide (v ∈ value_set).

(** The loop keeps [bool_series] from one iteration to the next: with an
    empty value set the previous one is used again, and none is bound on the
    first iteration. *)
Definition superset_step (df : DataFrame)
    (state : list bool * option (list bool)) (item : string * list cell)
  : result (list bool * option (list bool)) :=
  let label := item.1 in
  let value_set := item.2 in
  bool_series ←
    (if truthy value_set
     then label_series ← get_column df label;
          Ok (Some (map (isin value_set) label_series))
     else Ok state.2);
  match bool_series with
  | Some b => Ok (mask_and state.1 b, bool_series)
  | None => Raise (UnboundLocalError "bool_series")
  end.

Definition _apply_superset_constraints (self : Constraints) (df : DataFrame)
  : result (list bool) :=
  n ← first_column_shape df;
  final ← fold_result (superset_step df) (replicate n true, None) (supersets self);
  Ok final.1.

Definition polygon_step (df : DataFrame) (series : list bool)
    (constraint : PolygonConstraint) : result (list bool) :=
  let longitude := longitude_field constraint in
  let latitude := latitude_field constraint in
  let polygon := polygon constraint in
  xs ← get_column df longitude;
  ys ← get_column df latitude;
  let is_in_polygon := zip_with (fun x y => within x y polygon) xs ys in
  Ok (mask_and series is_in_polygon).

Definition _apply_polygon_constraints (self : Constraints) (df : DataFrame)
  : result (list bool) :=
  n ← first_column_shape df;
  fold_result (polygon_step df) (replicate n true) (polygons self).

Definition apply_constraints_to_dataframe (self : Constraints)
    (dataframe : DataFrame) : result DataFrame :=
  bool_boundaries ← _apply_boundary_constraints self dataframe;
  bool_supersets ← _apply_superset_constraints self dataframe;
  bool_polygons ← _apply_polygon_constraints self dataframe;
  let verify_all := mask_and (mask_and bool_boundaries bool_supersets) bool_polygons in
  Ok (loc_mask dataframe verify_all).

Definition apply_specific_constraint (self : Constraints) (field_label : string)
    (df : DataFrame) : result DataFrame :=
  let constraint := Constraints_init in
  constraint ←
    (if dict_in (boundaries self) field_label
     then
       match dict_get (boundaries self) field_label with
       | Some b =>
           call_add_boundary_constraint constraint
             [("field_label", ArgStr field_label);
              ("minimal_value", ArgCell b.1);
              ("maximal_value", ArgCell b.2)]
       | None => Raise (KeyError field_label)
       end
     else Ok constraint);
  constraint ←
    (if dict_in (supersets self) field_label
     then
       match dict_get (supersets self) field_label with
       | Some vs =>
           call_add_superset_constraint constraint
             [("field_label", ArgStr field_label);
              ("value_superset", ArgCells vs)]
       | None => Raise (KeyError field_label)
       end
     else Ok constraint);
  apply_constraints_to_dataframe constraint df.

Definition is_constrained (self : Constraints) (field_name : string) : bool :=
  let in_boundaries := dict_in (boundaries self) field_name in
  let in_supersets := dict_in (supersets self) field_name in
  in_boundaries || in_supersets.

(** The dictionary with keys 'boundary' and 'superset', as two optional
    entries. *)
Record ConstraintParameters : Type := mkParams {
  param_boundary : option (cell * cell);
  param_superset : option (list cell)
}.

Definition get_constraint_parameters (self : Constraints) (field_name : string)
  : ConstraintParameters :=
  {| param_boundary := dict_get (boundaries self) field_name;
     param_superset := dict_get (supersets self) field_name |}.

Definition params_boundary (p : ConstraintParameters) : result (cell * cell) :=
  match param_boundary p with Some b => Ok b | None => Raise (KeyError "boundary") end.
Definition params_superset (p : ConstraintParameters) : result (list cell) :=
  match param_superset p with Some s => Ok s | None => Raise (KeyError "superset") end.

Definition get_extremes (self : Constraints) (field_name : string)
    (default_min default_max : option cell)
  : result (option cell * option cell) :=
  if negb (is_constrained self field_name) then Ok (default_min, default_max)
  else
    let constraints := get_constraint_parameters self field_name in
    let boundary_in := bool_decide (is_Some (param_boundary constraints)) in
    let superset_in := bool_decide (is_Some (param_superset constraints)) in
    if boundary_in && superset_in
       && truthy (default [] (param_superset constraints))
    then
      b ← params_boundary constraints;
      s ← params_superset constraints;
      let b_min := b.1 in
      let b_max := b.2 in
      s_min ← py_min s;
      s_max ← py_max s;
      let all_min := py_min2 b_min s_min in
      let all_max := py_max2 b_max s_max in
      Ok (Some all_min, Some all_max)
    else if negb boundary_in then
      s ← params_superset constraints;
      all_min ← py_min s;
      all_max ← py_max s;
      Ok (Some all_min, Some all_max)
    else if negb superset_in then
      b ← params_boundary constraints;
      Ok (Some b.1, Some b.2)
    else Raise (UnboundLocalError "all_min").

(** *** The predicates, row by row *)

(** A boundary constraint: inclusive bounds, a NaN bound being no bound. *)
Definition boundary_holds (r : Row) (b : string * (cell * cell)) : bool :=
  let v := row_get r b.1 in
  (is_nan b.2.1 || cell_ge v b.2.1) && (is_nan b.2.2 || cell_le v b.2.2).

(** A superset constraint: the value is one of the listed values. *)
Definition superset_holds (r : Row) (s : string * list cell) : bool :=
  bool_decide (row_get r s.1 ∈ s.2).

(** A polygon constraint: the (longitude, latitude) point is in the polygon. *)
Definition polygon_holds (r : Row) (p : PolygonConstraint) : bool :=
  within (row_get r (longitude_field p)) (row_get r (latitude_field p)) (polygon p).

Definition all_predicates_hold (self : Constraints) (r : Row) : bool :=
  forallb (boundary_holds r) (boundaries self)
  && forallb (superset_holds r) (supersets self)
  && forallb (polygon_holds r) (polygons self).

(** The constraint sets that the public methods can build. *)
Inductive registered : Constraints -> Prop :=
| registered_init : registered Constraints_init
| registered_boundary self label lo hi :
    registered self -> registered (add_boundary_constraint self label lo hi)
| registered_superset self label vs :
    registered self -> registered (add_superset_constraint self label vs)
| registered_polygon self lat lon poly :
    registered self -> registered (add_polygon_constraint self lat lon poly)
| registered_reset self :
    registered self -> registered (reset self).

(** Every column label a constraint reads. *)
Definition constrained_labels (self : Constraints) : list string :=
  (boundaries self).*1 ++ (supersets self).*1
  ++ flat_map (fun p => [longitude_field p; latitude_field p]) (polygons self).

(** *** Intervals implied by the constraints on a field *)

(** The values of a field that its boundary and superset constraints let
    through. *)
Definition allowed_value (c : Constraints) (field : string) (v : Z) : Prop :=
  (forall b, dict_get (boundaries c) field = Some b ->
     (is_nan b.1 || cell_ge (Num v) b.1) && (is_nan b.2 || cell_le (Num v) b.2) = true)
  /\ (forall vs, dict_get (supersets c) field = Some vs -> Num v ∈ vs).

(** An interval implied by the constraints holds every allowed value; the
    tightest one lies inside every other. *)
Definition implied_interval (c : Constraints) (field : string) (lo hi : Z) : Prop :=
  forall v, allowed_value c field v -> (lo <= v <= hi)%Z.

Definition tightest_interval (c : Constraints) (field : string) (lo hi : Z) : Prop :=
  implied_interval c field lo hi
  /\ forall lo' hi', implied_interval c field lo' hi' -> (lo' <= lo /\ hi <= hi')%Z.

End WithPolygons.
End Filtering.

(** ** core/variables/vars.py *)

Record BaseVar : Type := mkVar {
  name : string;
  unit : string
}.

(** [__repr__]: name, underscore, unit. *)
Definition repr (v : BaseVar) : string := name v ++ "_" ++ unit v.

(** [__eq__] between variables: same representation. *)
Definition var_eq (a b : BaseVar) : bool := bool_decide (repr a = repr b).

Definition label (v : BaseVar) : string := name v.

(** A feature is a variable with the variables its feature requires; of a
    required variable the code reads the name only. *)
Record FeatureVar : Type := mkFeatureVar {
  fvar : BaseVar;
  required_vars : list BaseVar
}.

Definition is_loadable (self : FeatureVar) (loaded_list : list BaseVar) : bool :=
  forallb
    (fun var => existsb (fun x => bool_decide (name x = name var)) loaded_list)
    (required_vars self).

(** ** core/variables/sets.py *)

Module VariableSet.

Definition t : Type := list BaseVar.

(** [{var.name: var for var in self._elements}]: the last variable of a name
    is the one kept. *)
Definition mapper_by_name (self : t) : gmap string BaseVar :=
  foldl (fun m var => <[name var := var]> m) ∅ self.

Definition has_name (self : t) (var_name : string) : bool :=
  bool_decide (var_name ∈ dom (mapper_by_name self)).

Definition get (self : t) (var_name : string) : result BaseVar :=
  match mapper_by_name self !! var_name with
  | Some v => Ok v
  | None => Raise (IncorrectVariableNameError var_name)
  end.

Definition eq (self other : t) : bool :=
  let has_wrong_len := negb (length self =? length other)%nat in
  let self_keys := dom (mapper_by_name self) in
  let other_keys := dom (mapper_by_name other) in
  let has_wrong_keys := negb (bool_decide (self_keys = other_keys)) in
  if has_wrong_len || has_wrong_keys then false
  else
    forallb
      (fun key =>
         bool_decide (repr <$> (mapper_by_name self !! key)
                      = repr <$> (mapper_by_name other !! key)))
      (elements self_keys).

(** The labels of a list of variable names, raising on the first unknown one. *)
Fixpoint labels_of (self : t) (names : list string) : result (list string) :=
  match names with
  | [] => Ok []
  | n :: ns =>
      v ← get self n;
      rest ← labels_of self ns;
      Ok (label v :: rest)
  end.

End VariableSet.

Module FeatureVariablesSet.

Definition _get_constructable_features (to_inspect : list FeatureVar)
    (available_vars : list BaseVar) : list FeatureVar :=
  List.filter (fun f => is_loadable f available_vars) to_inspect.

(** What an iteration produces: the features yielded, in order, and the
    exception that ends the iteration, if any. *)
Record iteration : Type := mkIteration {
  yielded : list FeatureVar;
  raised : option exn
}.

(** The inner [for] loop: each constructable feature is appended to
    [available] and yielded. *)
Definition yield_all (available : list BaseVar) (out : list FeatureVar)
    (constructables : list FeatureVar) : list BaseVar * list FeatureVar :=
  foldl (fun st feature => (st.1 ++ [fvar feature], st.2 ++ [feature]))
        (available, out) constructables.

(** The [while] loop, with a bound on the number of passes; [None] when the
    bound is reached.  The state is the one of the source: the features
    still to build, the available variables, the constructable features and
    the features yielded so far. *)
Fixpoint while_constructables (passes : nat) (features : list FeatureVar)
    (available : list BaseVar) (constructables out : list FeatureVar)
  : option (list FeatureVar * list FeatureVar) :=
  match constructables with
  | [] => Some (features, out)
  | _ :: _ =>
      match passes with
      | O => None
      | S passes' =>
          let st := yield_all available out constructables in
          let available := st.1 in
          let out := st.2 in
          let features :=
            List.filter
              (fun f => forallb (fun a => negb (var_eq (fvar f) a)) available)
              features in
          let constructables := _get_constructable_features features available in
          while_constructables passes' features available constructables out
      end
  end.

Definition iter_constructables_features (self : list FeatureVar)
    (available_vars : list BaseVar) : option iteration :=
  let available := available_vars in
  let features := self in
  let constructables := _get_constructable_features features available in
  match while_constructables (S (length self)) features available
          constructables [] with
  | None => None
  | Some (features, out) =>
      Some {| yielded := out;
              raised := if truthy features
                        then Some (FeatureConstructionError
                                     (map (fun f => repr (fvar f)) features))
                        else None |}
  end.

(** The state of the loop, at its head: what has been yielded so far was
    loadable when it was yielded, and a feature of the set is either still to
    build or equal to an available variable. *)
Record loop_invariant (self : list FeatureVar) (available_vars : list BaseVar)
    (features : list FeatureVar) (available : list BaseVar)
    (out : list FeatureVar) : Prop := mkInvariant {
  inv_available : available = available_vars ++ map fvar out;
  inv_yielded : forall (i : nat) f, out !! i = Some f ->
    f ∈ self
    /\ forall v, v ∈ required_vars f ->
         (exists a, a ∈ available_vars /\ name a = name v)
         \/ (exists (j : nat) g, (j < i)%nat /\ out !! j = Some g
                                 /\ name (fvar g) = name v);
  inv_features : forall f, f ∈ features -> f ∈ self;
  inv_covered : forall f, f ∈ self ->
    f ∈ features \/ exists a, a ∈ available /\ var_eq (fvar f) a = true;
  inv_fresh : forall f, f ∈ features -> f ∉ out
}.




End FeatureVariablesSet.

(** ** pandas.concat along the rows *)

Definition columns_union (dfs : list DataFrame) : list string :=
  foldl (fun acc df => acc ++ List.filter (fun c => bool_decide (c ∉ acc)) (columns df))
        [] dfs.

(** The rows of one frame, each cut down to the frame's own columns. *)
Definition own_rows (df : DataFrame) : list (cell * Row) :=
  map (fun ir => (ir.1, filter (fun kv => kv.1 ∈ columns df) ir.2)) (rows df).

(** [ignore_index=True]: the rows are numbered from zero. *)
Definition renumber (rs : list (cell * Row)) : list (cell * Row) :=
  imap (fun i ir => (Num (Z.of_nat i), ir.2)) rs.

Definition pd_concat (objs : list DataFrame) (ignore_index : bool)
  : result DataFrame :=
  match objs with
  | [] => Raise (ValueError "No objects to concatenate")
  | _ :: _ =>
      let rs := concat (map own_rows objs) in
      Ok {| columns := columns_union objs;
            rows := if ignore_index then renumber rs else rs |}
  end.

(** ** core/storers.py *)

Record Storer : Type := mkStorer {
  data : DataFrame;
  category : string;
  providers : list string;
  variables : VariableSet.t
}.

(** The right operand of [+] is any object. *)
Inductive pyobject : Type :=
| PyStorer (s : Storer)
| PyInt (z : Z).

Definition type_name (o : pyobject) : string :=
  match o with
  | PyStorer _ => "<class 'bgc_data_processing.core.storers.Storer'>"
  | PyInt _ => "<class 'int'>"
  end.

(** [list(set(l))]: the distinct elements of [l], in the order the set
    enumerates them. *)
Definition list_of_set (l : list string) : list string :=
  elements (list_to_set l : gset string).

Definition Storer_add (self : Storer) (other : pyobject) : result Storer :=
  match other with
  | PyInt _ =>
      Raise (TypeError ("Can't add CSVStorer object to " ++ type_name other))
  | PyStorer other =>
      if negb (VariableSet.eq (variables self) (variables other))
      then Raise (IncompatibleVariableSetsError
                    "Variables or categories are not compatible")
      else if negb (bool_decide (category self = category other))
      then Raise (IncompatibleCategoriesError "Categories are not compatible")
      else
        concat_data ← pd_concat [data self; data other] true;
        let concat_providers := list_of_set (providers self ++ providers other) in
        Ok {| data := concat_data;
              category := category self;
              providers := concat_providers;
              variables := variables self |}
  end.

(** ** comparison/interpolation.py *)

Definition cell_repr (c : cell) : string :=
  match c with NaN => "nan" | Num z => pretty z end.

(** [Series.max()] and [Series.min()]: missing values are skipped, and the
    result is missing when nothing is left. *)
Definition series_max (l : list cell) : cell :=
  foldl (fun acc v =>
           match acc, v with
           | NaN, _ => v
           | _, NaN => acc
           | Num a, Num b => Num (Z.max a b)
           end) NaN l.

Definition series_min (l : list cell) : cell :=
  foldl (fun acc v =>
           match acc, v with
           | NaN, _ => v
           | _, NaN => acc
           | Num a, Num b => Num (Z.min a b)
           end) NaN l.

(** [Series.argmax()] and [Series.argmin()]: the first position of the
    extreme value. *)
Definition position_of (m : cell) (l : list cell) : result nat :=
  match m, list_find (fun v => v = m) l with
  | Num _, Some (i, _) => Ok i
  | _, _ => Raise (ValueError "attempt to get the position of an empty sequence")
  end.

Definition series_argmax (l : list cell) : result nat := position_of (series_max l) l.
Definition series_argmin (l : list cell) : result nat := position_of (series_min l) l.

(** [df.iloc[i]]: the row at a position, as a Series. *)
Definition iloc (df : DataFrame) (i : nat) : result Series :=
  match rows df !! i with
  | Some ir => Ok (row_to_series (columns df) ir.2)
  | None => Raise IndexError
  end.

(** [df.loc[label, :]] on an index with repeated labels: a frame when several
    rows carry the label, a Series when exactly one does. *)
Inductive ref_slice : Type :=
| SliceSeries (s : Series)
| SliceFrame (df : DataFrame).

Definition loc_label (df : DataFrame) (l : cell) : result ref_slice :=
  match List.filter (fun ir => bool_decide (ir.1 = l)) (rows df) with
  | [] => Raise (KeyError (cell_repr l))
  | [ir] => Ok (SliceSeries (row_to_series (columns df) ir.2))
  | rs => Ok (SliceFrame {| columns := columns df; rows := rs |})
  end.

(** [ref_slice[x]]: a column of the frame, or the one value of the Series
    (whose maximum and minimum are itself). *)
Definition slice_column (sl : ref_slice) (x : string) : result (list cell) :=
  match sl with
  | SliceSeries s => v ← series_get s x; Ok [v]
  | SliceFrame df => get_column df x
  end.

(** [dataframe.columns]: pandas Series have no such attribute. *)
Definition slice_columns (sl : ref_slice) : result DataFrame :=
  match sl with
  | SliceSeries _ => Raise (AttributeError "'Series' object has no attribute 'columns'")
  | SliceFrame df => Ok df
  end.

Module Interpolation.
Section WithInterp1d.

(** [scipy.interpolate.interp1d(x, y, axis=0, fill_value=nan, kind)(at)]:
    [y] is given row by row, and the result has one value per column of
    [y]. *)
Variable interp1d : string -> list cell -> list (list cell) -> cell -> result (list cell).

Record Interpolator : Type := mkInterpolator {
  _storer : Storer;
  _columns_order : list string;
  _x : string;
  _ys : list string;
  kind : string
}.

Definition Interpolator_init (base : Storer) (x_column_name : string)
    (y_columns_name : list string) (kind : string) : result Interpolator :=
  x ← VariableSet.get (variables base) x_column_name;
  ys ← VariableSet.labels_of (variables base) y_columns_name;
  Ok {| _storer := base;
        _columns_order := columns (data base);
        _x := label x;
        _ys := ys;
        kind := kind |}.

Definition _handle_outbound_max (self : Interpolator) (sl : ref_slice)
    (obs_depth : cell) : result Series :=
  max_series ←
    match sl with
    | SliceSeries s => Ok s
    | SliceFrame df =>
        xs ← get_column df (_x self);
        i ← series_argmax xs;
        iloc df i
    end;
  let max_series := series_set max_series (_x self) obs_depth in
  series_take max_series (_columns_order self).

Definition _handle_outbound_min (self : Interpolator) (sl : ref_slice)
    (obs_depth : cell) : result Series :=
  min_series ←
    match sl with
    | SliceSeries s => Ok s
    | SliceFrame df =>
        xs ← get_column df (_x self);
        i ← series_argmin xs;
        iloc df i
    end;
  let min_series := series_set min_series (_x self) obs_depth in
  series_take min_series (_columns_order self).

Definition _get_columns_to_interp (self : Interpolator) (sl : ref_slice)
  : result DataFrame :=
  df ← slice_columns sl;
  Ok {| columns := List.filter (fun c => bool_decide (c ∈ _ys self)) (columns df);
        rows := rows df |}.

Definition _get_constant_columns (self : Interpolator) (sl : ref_slice)
  : result DataFrame :=
  df ← slice_columns sl;
  Ok {| columns := List.filter (fun c => negb (bool_decide (c ∈ _ys self))) (columns df);
        rows := rows df |}.

Definition _handle_nan_depth (self : Interpolator) (sl : ref_slice)
    (obs_depth : cell) : result Series :=
  to_interp ← _get_columns_to_interp self sl;
  constant_columns ← _get_constant_columns self sl;
  constant_values ← iloc constant_columns 0;
  let non_constant_values := map (fun c => (c, NaN)) (columns to_interp) in
  let result := constant_values ++ non_constant_values in
  let result := series_set result (_x self) obs_depth in
  series_take result (_columns_order self).

(** [pd.Series(values, index=labels)]. *)
Definition make_series (values : list cell) (labels : list string) : result Series :=
  if decide (length values = length labels)
  then Ok (zip labels values)
  else Raise (ValueError "Length of values does not match length of index").

Definition frame_values (df : DataFrame) : list (list cell) :=
  map (fun ir => map (fun c => row_get ir.2 c) (columns df)) (rows df).

Definition _interpolate (self : Interpolator) (sl : ref_slice)
    (obs_depth : cell) : result Series :=
  non_constant ← _get_columns_to_interp self sl;
  constant_columns ← _get_constant_columns self sl;
  constant_values ← iloc constant_columns 0;
  xs ← slice_column sl (_x self);
  interpolated ← interp1d (kind self) xs (frame_values non_constant) obs_depth;
  non_constant_values ← make_series interpolated (columns non_constant);
  let concatenated := constant_values ++ non_constant_values in
  let concatenated := series_set concatenated (_x self) obs_depth in
  series_take concatenated (_columns_order self).

(** [row] is an observation row: its index label and its labelled values. *)
Definition interpolate (self : Interpolator) (row_name : cell) (row : Series)
  : result Series :=
  sl ← loc_label (data (_storer self)) row_name;
  obs_depth ← series_get row (_x self);
  ref_depths ← slice_column sl (_x self);
  if is_nan obs_depth then _handle_nan_depth self sl obs_depth
  else if cell_gt obs_depth (series_max ref_depths)
  then _handle_outbound_max self sl obs_depth
  else if cell_lt obs_depth (series_min ref_depths)
  then _handle_outbound_min self sl obs_depth
  else _interpolate self sl obs_depth.

End WithInterp1d.
End Interpolation.

(** ** comparison/metrics.py *)

(** [repr] of a shape tuple and of a list of names (names without quote
    characters). *)
Definition shape_repr (s : nat * nat) : string :=
  ("(" ++ pretty s.1 ++ ", " ++ pretty s.2 ++ ")")%string.

Fixpoint join_with (sep : string) (l : list string) : string :=
  match l with
  | [] => ""
  | [s] => s
  | s :: l' => (s ++ sep ++ join_with sep l')%string
  end.

Definition names_repr (l : list string) : string :=
  ("[" ++ join_with ", " (map (fun s => ("'" ++ s ++ "'")%string) l) ++ "]")%string.

(** [df.filter(items, axis=1)]: the listed columns that the frame has, in the
    order of the list. *)
Definition filter_columns (df : DataFrame) (items : list string) : DataFrame :=
  {| columns := List.filter (fun c => bool_decide (c ∈ columns df)) items;
     rows := rows df |}.

(** [df.isna().all(axis=1)]: per row, whether every column is missing. *)
Definition row_all_nan (cols : list string) (r : Row) : bool :=
  forallb (fun c => is_nan (row_get r c)) cols.

Definition isna_all (df : DataFrame) : list bool :=
  map (fun ir => row_all_nan (columns df) ir.2) (rows df).

Module Metrics.
Section WithMetric.

(** The metric proper ([_eval] of RMSE or Bias) works on floating-point
    columns; here it is any function of the two frames it is given. *)
Variable _eval : DataFrame -> DataFrame -> Series.


(** The two frames handed to [evaluate].  The observation and simulation
    frames carry the same index (the simulations are first interpolated onto
    the observation rows), so [|] and the boolean selections act row by
    row. *)
Definition evaluated_frames (_eval_vars : list string)
    (observations_storer simulations_storer : Storer)
  : result (DataFrame * DataFrame) :=
  let obs_vars := variables observations_storer in
  obs_eval_labels ← VariableSet.labels_of obs_vars _eval_vars;
  let sim_vars := variables simulations_storer in
  sim_eval_labels ← VariableSet.labels_of sim_vars _eval_vars;
  let obs_df := filter_columns (data observations_storer) obs_eval_labels in
  let sim_df := filter_columns (data simulations_storer) sim_eval_labels in
  if negb (bool_decide (shape obs_df = shape sim_df))
  then
    let error_msg :=
      ("DataFrame shapes don't match(observations: " ++ shape_repr (shape obs_df) ++ " "
       ++ "- simulations: {sim_df.shape}) -> make sure both storer have "
       ++ "the variables to evaluate on"
       ++ " (variables: " ++ names_repr _eval_vars ++ ")")%string in
    Raise (IncomparableStorersError error_msg)
  else
    let nans := mask_or (isna_all obs_df) (isna_all sim_df) in
    let keep := map negb nans in
    Ok (loc_mask obs_df keep, loc_mask sim_df keep).



End WithMetric.
End Metrics.

(** ** comparison/matching.py *)

Module Matching.

(** [index_link]: one line per observation, its index label and the flat
    index of the simulated point chosen for it. *)
Record link : Type := mkLink {
  obs_index : cell;
  sim_index : cell
}.

Record Match : Type := mkMatch {
  index_link : list link
}.

(** The Series given to the constructor has the observations' index as index
    and the chosen simulated indexes as values. *)
Definition Match_init (obs_closests_indexes : list (cell * cell)) : Match :=
  {| index_link := map (fun p => mkLink p.1 p.2) obs_closests_indexes |}.

(** One line of the merged table. *)
Record merged : Type := mkMerged {
  m_load_index : nat;
  m_sim_index : cell;
  m_obs_index : cell
}.

(** [pd.merge(left, right, on=sim_index, how="left")]: the lines of the left
    table in order, each paired with every line of the right table with the
    same key, or with a missing observation index when there is none. *)
Definition merge_lines (right : list link) (l : nat * cell) : list merged :=
  match List.filter (fun r => bool_decide (sim_index r = l.2)) right with
  | [] => [mkMerged l.1 l.2 NaN]
  | rs => map (fun r => mkMerged l.1 l.2 (obs_index r)) rs
  end.

Definition merge_left (left : list (nat * cell)) (right : list link) : list merged :=
  flat_map (merge_lines right) left.

(** [loaded_copy.loc[positions, :]] on the frame renumbered from zero. *)
Fixpoint take_positions (rs : list (cell * Row)) (positions : list nat)
  : result (list Row) :=
  match positions with
  | [] => Ok []
  | p :: ps =>
      match rs !! p with
      | Some ir => rest ← take_positions rs ps; Ok (ir.2 :: rest)
      | None => Raise (KeyError (pretty p))
      end
  end.

Definition match_ (self : Match) (loaded_df : DataFrame) : result DataFrame :=
  let loaded_index := imap (fun i s => (i, s)) (index loaded_df) in
  let merge := merge_left loaded_index (index_link self) in
  reshaped ← take_positions (rows loaded_df) (map m_load_index merge);
  Ok {| columns := columns loaded_df;
        rows := zip (map m_obs_index merge) reshaped |}.

(** The rows that one loaded row gives: one per observation that chose its
    index, or one without observation index when none did. *)
Definition fan_out (links : list link) (ir : cell * Row) : list (cell * Row) :=
  match List.filter (fun r => bool_decide (sim_index r = ir.1)) links with
  | [] => [(NaN, ir.2)]
  | rs => map (fun r => (obs_index r, ir.2)) rs
  end.

(** The loaded rows whose index is the one an observation chose, under the
    observation's index. *)
Definition rows_chosen_by (rs : list (cell * Row)) (l : link) : list (cell * Row) :=
  map (fun ir => (obs_index l, ir.2))
      (List.filter (fun ir => bool_decide (ir.1 = sim_index l)) rs).

Section SelectiveDataSource.

(** The grid mask, the nearest-neighbour selection, the file loader, the
    date parsed from a file name and the final feature handling belong to the
    loaders; they are parameters here.  The files that [get_basenames] finds
    are an argument of [load_all], and the label of the date variable is a
    field of the source. *)
Context {Mask : Type}.
Variable parse_date_from_filepath : string -> result Z.
Variable select : DataFrame -> result (Mask * Match).
Variable loader_load : string -> Mask -> result DataFrame.
Variable finish_storer : Storer -> result Storer.

Record SelectiveDataSource : Type := mkSelectiveDataSource {
  reference : DataFrame;
  date_var_label : string;
  loader_category : string;
  loader_provider : string;
  _store_vars : VariableSet.t
}.

(** [DataFrame.empty]: no row or no column. *)
Definition df_empty (df : DataFrame) : bool :=
  bool_decide (rows df = []) || bool_decide (columns df = []).

(** The dates of the reference rows. *)
Definition reference_dates (self : SelectiveDataSource) : list cell :=
  map (fun ir => row_get ir.2 (date_var_label self)) (rows (reference self)).

(** The body of the loop over the files. *)
Definition load_file (self : SelectiveDataSource) (datas : list DataFrame)
    (filepath : string) : result (list DataFrame) :=
  date ← parse_date_from_filepath filepath;
  dates ← get_column (reference self) (date_var_label self);
  let data_slice :=
    loc_mask (reference self) (map (fun d => bool_decide (d = Num date)) dates) in
  if df_empty data_slice then Ok datas
  else
    mm ← select data_slice;
    sim_data ← loader_load filepath mm.1;
    matched ← match_ mm.2 sim_data;
    Ok (datas ++ [matched]).

Definition load_all (self : SelectiveDataSource) (filepaths : list string)
  : result Storer :=
  datas ← fold_result (load_file self) [] filepaths;
  concatenated ← pd_concat datas false;
  let storer :=
    {| data := concatenated;
       category := loader_category self;
       providers := [loader_provider self];
       variables := _store_vars self |} in
  finish_storer storer.

End SelectiveDataSource.
End Matching.

(** ** Further exceptions of the package *)

(** The functions below raise, beside the exceptions of [exn], two more
    exceptions of [bgc_data_processing.exceptions]. *)
Inductive error : Type :=
| Builtin (e : exn)
| DuplicatedVariableNameError (msg : string)
| IncompatibleMaskShapeError (correct_shape incorrect_shape : list nat).

Inductive outcome (A : Type) : Type :=
| Returns (a : A)
| Fails (e : error).
Arguments Returns {A} a.
Arguments Fails {A} e.

Global Instance outcome_ret : MRet outcome := fun A a => Returns a.
Global Instance outcome_bind : MBind outcome := fun A B f m =>
  match m with Returns a => f a | Fails e => Fails e end.

(** ** core/storers.py, continued *)

(** [other == 0], for the objects that a storer is added to; a storer is
    equal to itself only. *)
Definition is_zero (other : pyobject) : bool :=
  match other with
  | PyInt z => (z =? 0)%Z
  | PyStorer _ => false
  end.

Definition Storer_radd (self : Storer) (other : pyobject) : result Storer :=
  if is_zero other then Ok self else Storer_add self other.

(** One step of [sum]: [acc + s].  An integer on the left gives the hand
    to [__radd__] of the storer. *)
Definition add_step (acc : pyobject) (s : Storer) : result pyobject :=
  match acc with
  | PyInt _ => r ← Storer_radd s acc; Ok (PyStorer r)
  | PyStorer a => r ← Storer_add a (PyStorer s); Ok (PyStorer r)
  end.

(** [sum(storers)], as [DataSource.load_all] ends: the additions start from
    the integer 0. *)
Definition sum_storers (storers : list Storer) : result pyobject :=
  fold_result add_step (PyInt 0) storers.

(** [df.loc[labels, :]] with a list of labels: for each label of the list,
    in order, the rows that carry it; labels that the index lacks raise (the
    message names them). *)
Definition labels_repr (l : list cell) : string :=
  ("[" ++ join_with ", " (map cell_repr l) ++ "]")%string.

Definition loc_labels (df : DataFrame) (labels : list cell) : result DataFrame :=
  match List.filter (fun l => negb (bool_decide (l ∈ index df))) labels with
  | [] =>
      Ok {| columns := columns df;
            rows := flat_map
                      (fun l => List.filter (fun ir => bool_decide (ir.1 = l)) (rows df))
                      labels |}
  | missing => Raise (KeyError (labels_repr missing ++ " not in index"))
  end.

(** A slice: a storer and the index labels to keep. *)
Record Slice : Type := mkSlice {
  slice_storer : Storer;
  slice_index : list cell
}.

(** [Slice.data]. *)
Definition Slice_data (self : Slice) : result DataFrame :=
  loc_labels (data (slice_storer self)) (slice_index self).

(** [slice_on_dates]; [drng] holds the two dates under "start_date" and
    "end_date", and [date_var_name] is the name of the date variable of the
    storer's variables. *)
Definition slice_on_dates (self : Storer) (date_var_name : string) (drng : Series)
  : result Slice :=
  start_date ← series_get drng "start_date";
  end_date ← series_get drng "end_date";
  date_var ← VariableSet.get (variables self) date_var_name;
  dates_col ← get_column (data self) (label date_var);
  let after_start := map (fun d => cell_ge d start_date) dates_col in
  let before_end := map (fun d => cell_le d end_date) dates_col in
  let slice_index :=
    select_mask (mask_and after_start before_end) (index (data self)) in
  Ok {| slice_storer := self; slice_index := slice_index |}.

Definition slice_using_index (self : Storer) (labels : list cell) : result Storer :=
  sliced ← loc_labels (data self) labels;
  Ok {| data := sliced;
        category := category self;
        providers := providers self;
        variables := variables self |}.

(** ** core/variables/sets.py, continued *)

Definition VariableSet_add_var (self : VariableSet.t) (var : BaseVar)
  : outcome VariableSet.t :=
  if VariableSet.has_name self (name var)
  then Fails (DuplicatedVariableNameError "A variable already exists with his name")
  else Returns (self ++ [var]).

Definition VariableSet_pop (self : VariableSet.t) (var_name : string)
  : result (BaseVar * VariableSet.t) :=
  var_to_suppress ← VariableSet.get self var_name;
  let elements :=
    List.filter (fun e => negb (bool_decide (name e = var_name))) self in
  Ok (var_to_suppress, elements).

(** A set with mandatory variables: the elements, and the names recorded at
    construction for each role (provider and hour are optional). *)
Record RequiredVarsSet : Type := mkRequiredVarsSet {
  req_elements : VariableSet.t;
  expocode_var_name : string;
  provider_var_name : option string;
  date_var_name : string;
  year_var_name : string;
  month_var_name : string;
  day_var_name : string;
  hour_var_name : option string;
  latitude_var_name : string;
  longitude_var_name : string;
  depth_var_name : string
}.

Definition names_distinct (args : list BaseVar) : bool :=
  (length args =? length (list_of_set (map name args)))%nat.

(** [BaseRequiredVarsSet.__init__], the keyword variables being placed after
    the positional ones. *)
Definition RequiredVarsSet_init
    (expocode date year month day latitude longitude depth : BaseVar)
    (hour provider : option BaseVar) (args kwargs : list BaseVar)
  : result RequiredVarsSet :=
  if negb (names_distinct args)
  then Raise (ValueError
    "To set multiple alias for the same variable, use Var.in_file_as([alias1, alias2])")
  else
    let mandatory_variables :=
      match provider with Some p => [p] | None => [] end
      ++ [expocode; date; year; month; day]
      ++ match hour with Some h => [h] | None => [] end
      ++ [latitude; longitude; depth] in
    Ok {| req_elements := mandatory_variables ++ args ++ kwargs;
          expocode_var_name := name expocode;
          provider_var_name := name <$> provider;
          date_var_name := name date;
          year_var_name := name year;
          month_var_name := name month;
          day_var_name := name day;
          hour_var_name := name <$> hour;
          latitude_var_name := name latitude;
          longitude_var_name := name longitude;
          depth_var_name := name depth |}.

Definition mandatory_variables_names (self : RequiredVarsSet) : list (option string) :=
  [Some (expocode_var_name self);
   provider_var_name self;
   Some (date_var_name self);
   Some (year_var_name self);
   Some (month_var_name self);
   Some (day_var_name self);
   hour_var_name self;
   Some (latitude_var_name self);
   Some (longitude_var_name self);
   Some (depth_var_name self)].

Definition with_elements (self : RequiredVarsSet) (elements : VariableSet.t)
  : RequiredVarsSet :=
  {| req_elements := elements;
     expocode_var_name := expocode_var_name self;
     provider_var_name := provider_var_name self;
     date_var_name := date_var_name self;
     year_var_name := year_var_name self;
     month_var_name := month_var_name self;
     day_var_name := day_var_name self;
     hour_var_name := hour_var_name self;
     latitude_var_name := latitude_var_name self;
     longitude_var_name := longitude_var_name self;
     depth_var_name := depth_var_name self |}.

Definition RequiredVarsSet_pop (self : RequiredVarsSet) (var_name : string)
  : result (BaseVar * RequiredVarsSet) :=
  if bool_decide (Some var_name ∈ mandatory_variables_names self)
  then Raise (IncorrectVariableNameError
                ("Variable " ++ var_name ++ " can not be removed since "
                 ++ "it is a mandatory variable."))
  else
    popped ← VariableSet_pop (req_elements self) var_name;
    Ok (popped.1, with_elements self popped.2).

(** The mandatory names of a set are names of its elements. *)
Definition mandatory_present (s : RequiredVarsSet) : Prop :=
  forall m, Some m ∈ mandatory_variables_names s ->
    VariableSet.has_name (req_elements s) m = true.

(** ** comparison/matching.py: masks over the grid *)

(** A numpy array: its shape and its elements in row-major order. *)
Record ndarray (A : Type) : Type := mkArray {
  arr_shape : list nat;
  arr_data : list A
}.
Arguments mkArray {A} arr_shape arr_data.
Arguments arr_shape {A} _.
Arguments arr_data {A} _.

Definition shape_size (shape : list nat) : nat := foldr Nat.mul 1%nat shape.

(** [np.full(shape, v)], [np.array(range(n))] and [a.reshape(shape)] (of an
    array that has as many elements as the shape). *)
Definition np_full {A : Type} (shape : list nat) (v : A) : ndarray A :=
  {| arr_shape := shape; arr_data := replicate (shape_size shape) v |}.

Definition np_arange (n : nat) : ndarray cell :=
  {| arr_shape := [n]; arr_data := map (fun k => Num (Z.of_nat k)) (seq 0 n) |}.

Definition np_reshape {A : Type} (a : ndarray A) (shape : list nat) : ndarray A :=
  {| arr_shape := shape; arr_data := arr_data a |}.

(** [np.meshgrid(xs, ys)]: two arrays of [len(ys)] rows and [len(xs)]
    columns, the first repeating [xs] on every row, the second holding one
    value of [ys] per row. *)
Definition np_meshgrid {A : Type} (xs ys : list A) : ndarray A * ndarray A :=
  ({| arr_shape := [length ys; length xs];
      arr_data := flat_map (fun _ => xs) ys |},
   {| arr_shape := [length ys; length xs];
      arr_data := flat_map (fun y => replicate (length xs) y) ys |}).

Module GridMask.

Record Mask : Type := mkMask {
  _index_2d : ndarray cell;
  _mask : ndarray bool;
  _index : list cell
}.

(** The constructor, which goes through the setter of [mask]. *)
Definition Mask_init (mask_2d : ndarray bool) (index_2d : ndarray cell)
  : outcome Mask :=
  if negb (bool_decide (arr_shape mask_2d = arr_shape index_2d))
  then Fails (IncompatibleMaskShapeError (arr_shape index_2d) (arr_shape mask_2d))
  else Returns {| _index_2d := index_2d;
                  _mask := mask_2d;
                  _index := select_mask (arr_data mask_2d) (arr_data index_2d) |}.

(** [mask(data_2d)], for an array of as many dimensions as the mask: the
    values of the selected cells, as a Series labelled by the index of the
    mask.  A boolean index of another shape is refused by numpy, and a
    Series needs as many values as labels. *)
Definition Mask_call (self : Mask) (data_2d : ndarray cell)
  : outcome (list (cell * cell)) :=
  if negb (bool_decide (arr_shape data_2d = arr_shape (_mask self)))
  then Fails (Builtin IndexError)
  else
    let values := select_mask (arr_data (_mask self)) (arr_data data_2d) in
    if negb (length values =? length (_index self))%nat
    then Fails (Builtin (ValueError "Length of values does not match length of index"))
    else Returns (zip (_index self) values).

Definition intersect (self : Mask) (mask_array : ndarray bool) : outcome Mask :=
  if negb (bool_decide (arr_shape mask_array = arr_shape (_mask self)))
  then Fails (IncompatibleMaskShapeError (arr_shape (_mask self)) (arr_shape mask_array))
  else
    Mask_init {| arr_shape := arr_shape (_mask self);
                 arr_data := mask_and (arr_data (_mask self)) (arr_data mask_array) |}
              (_index_2d self).

(** [make_empty(grid)], for a grid of [jdm] rows and [idm] columns. *)
Definition make_empty (jdm idm : nat) : outcome Mask :=
  Mask_init (np_full [jdm; idm] true) (np_arange (jdm * idm)).

(** [series.loc[labels]] on a Series numbered from zero: the labels are the
    positions, and labels that are no position raise. *)
Definition label_position (n : nat) (l : cell) : option nat :=
  match l with
  | Num z => if (0 <=? z)%Z && (z <? Z.of_nat n)%Z then Some (Z.to_nat z) else None
  | NaN => None
  end.

Definition take_labels {A : Type} (values : list A) (labels : list cell)
  : result (list A) :=
  match List.filter
          (fun l => negb (bool_decide (is_Some (label_position (length values) l))))
          labels with
  | [] => Ok (omap (fun l => p ← label_position (length values) l; values !! p) labels)
  | missing => Raise (KeyError (labels_repr missing ++ " not in index"))
  end.

(** [to_keep[xs, ys] = True] on an array of [idm] columns. *)
Definition set_cells (to_keep : ndarray bool) (idm : nat) (xs ys : list nat)
  : ndarray bool :=
  {| arr_shape := arr_shape to_keep;
     arr_data := foldl (fun d xy => <[(xy.1 * idm + xy.2)%nat := true]> d)
                       (arr_data to_keep) (zip xs ys) |}.

(** [SelectiveDataSource.select], from the chosen indexes on: [index] is the
    Series that the strategy returns, the flat index of the closest grid
    point under the index label of each observation. *)
Definition select (jdm idm : nat) (index : list (cell * cell))
  : outcome (Mask * Matching.Match) :=
  let grids := np_meshgrid (seq 0 idm) (seq 0 jdm) in
  let y_coords := grids.1 in
  let x_coords := grids.2 in
  let x_coords_series := arr_data x_coords in
  let y_coords_series := arr_data y_coords in
  let indexes := np_arange (jdm * idm) in
  let indexes_2d := np_reshape indexes [jdm; idm] in
  match take_labels x_coords_series index.*2,
        take_labels y_coords_series index.*2 with
  | Ok selected_xs, Ok selected_ys =>
      let to_keep := np_full [jdm; idm] false in
      let to_keep := set_cells to_keep idm selected_xs selected_ys in
      m ← Mask_init to_keep indexes_2d;
      Returns (m, Matching.Match_init index)
  | Raise e, _ => Fails (Builtin e)
  | _, Raise e => Fails (Builtin e)
  end.

End GridMask.

(** ** comparison/matching.py: the files of [load_all] *)

(** The files that the loop of [SelectiveDataSource.load_all] does not pass
    over with [continue]: those whose date is the date of a reference row
    (and those whose name has no date, on which the loop raises). *)
Definition Matching_has_observations (parse_date_from_filepath : string -> result Z)
    (self : Matching.SelectiveDataSource) (filepath : string) : bool :=
  match parse_date_from_filepath filepath with
  | Ok date => bool_decide (Num date ∈ Matching.reference_dates self)
  | Raise _ => true
  end.
(** * Example data *)

(** The table of property P1: column A holding 0 to 9, indexed from 100, with
    the boundary [2, 8] and the superset {3, 5, 7} on A. *)
Definition table_A : DataFrame :=
  {| columns := ["A"];
     rows := map (fun z => (Num (100 + z), {[ "A" := Num z ]}))
               [0; 1; 2; 3; 4; 5; 6; 7; 8; 9]%Z |}.

(** Axis-parallel rectangles as polygons, for the examples. *)
Record rectangle : Type := mkRectangle {
  west : Z; east : Z; south : Z; north : Z
}.

Definition in_rectangle (x y : cell) (r : rectangle) : bool :=
  cell_ge x (Num (west r)) && cell_le x (Num (east r))
  && cell_ge y (Num (south r)) && cell_le y (Num (north r)).

Definition constraints_A : @Filtering.Constraints rectangle :=
  Filtering.add_superset_constraint
    (Filtering.add_boundary_constraint Filtering.Constraints_init "A" (Num 2) (Num 8))
    "A" (Some [Num 3; Num 5; Num 7]).

(** Three stations with a position and a depth, and constraints made of a
    depth boundary and one rectangle. *)
Definition stations : DataFrame :=
  {| columns := ["LONGITUDE"; "LATITUDE"; "DEPH"];
     rows := [(Num 0, {[ "LONGITUDE" := Num 5; "LATITUDE" := Num 60; "DEPH" := Num 10 ]});
              (Num 1, {[ "LONGITUDE" := Num 40; "LATITUDE" := Num 70; "DEPH" := Num 500 ]});
              (Num 2, {[ "LONGITUDE" := Num 8; "LATITUDE" := Num 62; "DEPH" := Num 900 ]})] |}.

Definition north_sea : rectangle :=
  {| west := 0; east := 10; south := 55; north := 65 |}.


(** Two storers over the same variables, from three providers in all. *)
Definition bottle_vars : VariableSet.t :=
  [mkVar "DEPH" "[meter]"; mkVar "TEMP" "[deg_C]"].

Definition storer_north : Storer :=
  {| data := {| columns := ["DEPH"; "TEMP"];
                rows := [(Num 0, {[ "DEPH" := Num 5; "TEMP" := Num 4 ]});
                         (Num 1, {[ "DEPH" := Num 10; "TEMP" := Num 3 ]})] |};
     category := "in_situ";
     providers := ["IMR"; "ICES"];
     variables := bottle_vars |}.

Definition storer_south : Storer :=
  {| data := {| columns := ["DEPH"; "TEMP"];
                rows := [(Num 0, {[ "DEPH" := Num 20; "TEMP" := Num 7 ]})] |};
     category := "in_situ";
     providers := ["ICES"; "ARGO"];
     variables := bottle_vars |}.

(** Observations and simulations on four rows: complete on both sides,
    missing in the observations only, missing on both sides, missing in the
    simulations only. *)
Definition hydro_vars : VariableSet.t :=
  [mkVar "TEMP" "[deg_C]"; mkVar "PSAL" "[psu]"].

Definition observed : Storer :=
  {| data := {| columns := ["TEMP"; "PSAL"];
                rows := [(Num 0, {[ "TEMP" := Num 4; "PSAL" := Num 35 ]});
                         (Num 1, {[ "TEMP" := NaN; "PSAL" := NaN ]});
                         (Num 2, {[ "TEMP" := NaN; "PSAL" := NaN ]});
                         (Num 3, {[ "TEMP" := Num 6; "PSAL" := Num 34 ]})] |};
     category := "in_situ";
     providers := ["IMR"];
     variables := hydro_vars |}.

Definition simulated : Storer :=
  {| data := {| columns := ["TEMP"; "PSAL"];
                rows := [(Num 0, {[ "TEMP" := Num 5; "PSAL" := Num 35 ]});
                         (Num 1, {[ "TEMP" := Num 3; "PSAL" := Num 33 ]});
                         (Num 2, {[ "TEMP" := NaN; "PSAL" := NaN ]});
                         (Num 3, {[ "TEMP" := NaN; "PSAL" := NaN ]})] |};
     category := "float";
     providers := ["HYCOM"];
     variables := hydro_vars |}.

(** The same simulations without the salinity column. *)
Definition simulated_temp_only : Storer :=
  {| data := {| columns := ["TEMP"];
                rows := rows (data simulated) |};
     category := "float";
     providers := ["HYCOM"];
     variables := hydro_vars |}.

(** A reference table of observations made on days 10 and 11, and a source
    whose simulation files are dated on days 20 and 21. *)
Definition reference_obs : DataFrame :=
  {| columns := ["DATE"; "LATITUDE"; "LONGITUDE"];
     rows := [(Num 0, {[ "DATE" := Num 10; "LATITUDE" := Num 60; "LONGITUDE" := Num 5 ]});
              (Num 1, {[ "DATE" := Num 11; "LATITUDE" := Num 61; "LONGITUDE" := Num 6 ]})] |}.

Definition hycom_source : Matching.SelectiveDataSource :=
  {| Matching.reference := reference_obs;
     Matching.date_var_label := "DATE";
     Matching.loader_category := "float";
     Matching.loader_provider := "HYCOM";
     Matching._store_vars := hydro_vars |}.

Definition file_date (filepath : string) : result Z :=
  if decide (filepath = "archm.2000_020_12") then Ok 20
  else if decide (filepath = "archm.2000_021_12") then Ok 21
  else Raise (ValueError "time data does not match format '%Y_%j_%H'").

(** Property P7: observations 10 and 11 both choose the simulated point 7. *)
Definition match_10_11 : Matching.Match :=
  Matching.Match_init [(Num 10, Num 7); (Num 11, Num 7)].

Definition loaded_point_7 : DataFrame :=
  {| columns := ["DEPH"; "TEMP"];
     rows := [(Num 7, {[ "DEPH" := Num 5; "TEMP" := Num 4 ]})] |}.

(** One observation choosing the point 7, loaded with two depth levels, and
    the same with a further point 8 that no observation chose. *)
Definition match_10 : Matching.Match := Matching.Match_init [(Num 10, Num 7)].

Definition loaded_two_levels : DataFrame :=
  {| columns := ["DEPH"; "TEMP"];
     rows := [(Num 7, {[ "DEPH" := Num 5; "TEMP" := Num 4 ]});
              (Num 7, {[ "DEPH" := Num 50; "TEMP" := Num 2 ]})] |}.

Definition loaded_points_7_8 : DataFrame :=
  {| columns := ["DEPH"; "TEMP"];
     rows := [(Num 7, {[ "DEPH" := Num 5; "TEMP" := Num 4 ]});
              (Num 8, {[ "DEPH" := Num 5; "TEMP" := Num 6 ]})] |}.

(** Property P4: F1 is made from A and B, F2 from F1 and C; and two features
    that require each other. *)
Definition var_A : BaseVar := mkVar "A" "[a]".
Definition var_B : BaseVar := mkVar "B" "[b]".
Definition var_C : BaseVar := mkVar "C" "[c]".

Definition feature_F1 : FeatureVar :=
  {| fvar := mkVar "F1" "[f]"; required_vars := [var_A; var_B] |}.
Definition feature_F2 : FeatureVar :=
  {| fvar := mkVar "F2" "[f]"; required_vars := [mkVar "F1" "[f]"; var_C] |}.

Definition cyclic_F2 : FeatureVar :=
  {| fvar := mkVar "F2" "[f]"; required_vars := [mkVar "F3" "[f]"] |}.
Definition cyclic_F3 : FeatureVar :=
  {| fvar := mkVar "F3" "[f]"; required_vars := [mkVar "F2" "[f]"] |}.

(** A feature made from A alone, and a loaded variable that already bears
    its name. *)
Definition feature_G1 : FeatureVar :=
  {| fvar := mkVar "F1" "[f]"; required_vars := [var_A] |}.

(** Property P6: the simulated profile matched with observation 10 has the
    depths -5, -10 and -20; the one matched with observation 11 has a single
    level. *)
Definition profile_vars : VariableSet.t :=
  [mkVar "DATE" "[]"; mkVar "DEPH" "[meter]"; mkVar "TEMP" "[deg_C]"].

Definition profiles : Storer :=
  {| data := {| columns := ["DATE"; "DEPH"; "TEMP"];
                rows := [(Num 10, {[ "DATE" := Num 20; "DEPH" := Num (-5); "TEMP" := Num 8 ]});
                         (Num 10, {[ "DATE" := Num 20; "DEPH" := Num (-10); "TEMP" := Num 6 ]});
                         (Num 10, {[ "DATE" := Num 20; "DEPH" := Num (-20); "TEMP" := Num 4 ]});
                         (Num 11, {[ "DATE" := Num 21; "DEPH" := Num (-5); "TEMP" := Num 9 ]})] |};
     category := "float";
     providers := ["HYCOM"];
     variables := profile_vars |}.

Definition depth_interpolator : Interpolation.Interpolator :=
  {| Interpolation._storer := profiles;
     Interpolation._columns_order := ["DATE"; "DEPH"; "TEMP"];
     Interpolation._x := "DEPH";
     Interpolation._ys := ["TEMP"];
     Interpolation.kind := "linear" |}.

(** A stand-in for the interpolation function in the examples: the values at
    a depth of the profile, and no value elsewhere. *)
Definition interp_at_levels (kind : string) (xs : list cell) (ys : list (list cell))
    (at_x : cell) : result (list cell) :=
  match list_find (fun p => p.1 = at_x) (zip xs ys) with
  | Some (_, p) => Ok p.2
  | None => Ok (map (fun _ => NaN) (default [] (head ys)))
  end.

(** The stations below 100, in the North Sea rectangle. *)
Definition constraints_deep : @Filtering.Constraints rectangle :=
  Filtering.add_boundary_constraint
    (Filtering.add_polygon_constraint Filtering.Constraints_init
       "LATITUDE" "LONGITUDE" north_sea)
    "DEPH" (Num 100) NaN.

(** A third storer over the variables of [storer_north], and a storer of
    casts with their dates. *)
Definition storer_east : Storer :=
  {| data := {| columns := ["DEPH"; "TEMP"];
                rows := [(Num 0, {[ "DEPH" := Num 30; "TEMP" := Num 1 ]});
                         (Num 1, {[ "DEPH" := Num 40; "TEMP" := Num 2 ]})] |};
     category := "in_situ";
     providers := ["NMDC"];
     variables := bottle_vars |}.

Definition cast_vars : VariableSet.t :=
  [mkVar "DATE" "[]"; mkVar "TEMP" "[deg_C]"].

Definition casts : Storer :=
  {| data := {| columns := ["DATE"; "TEMP"];
                rows := [(Num 0, {[ "DATE" := Num 10; "TEMP" := Num 4 ]});
                         (Num 1, {[ "DATE" := Num 15; "TEMP" := Num 5 ]});
                         (Num 2, {[ "DATE" := Num 20; "TEMP" := Num 6 ]});
                         (Num 3, {[ "DATE" := Num 12; "TEMP" := Num 7 ]})] |};
     category := "in_situ";
     providers := ["IMR"];
     variables := cast_vars |}.

(** A grid of two rows and three columns, where the observations 10 and 11
    chose the cell 4 and the observation 12 the cell 1. *)
Definition chosen_cells : list (cell * cell) :=
  [(Num 10, Num 4); (Num 11, Num 4); (Num 12, Num 1)].

Definition grid_index : ndarray cell :=
  np_reshape (np_arange 6) [2; 3]%nat.

Definition grid_mask : ndarray bool :=
  {| arr_shape := [2; 3]%nat;
     arr_data := [false; true; false; false; true; true] |}.

Definition grid_temperature : ndarray cell :=
  {| arr_shape := [2; 3]%nat;
     arr_data := [Num 10; Num 11; Num 12; Num 13; Num 14; NaN] |}.

Definition grid_sea : ndarray bool :=
  {| arr_shape := [2; 3]%nat;
     arr_data := [true; true; true; true; false; true] |}.

(** A frame of two rows and no column, as [pd.DataFrame(index=[0, 1])]. *)
Definition frame_without_columns : DataFrame :=
  {| columns := []; rows := [(Num 0, ∅); (Num 1, ∅)] |}.

(** File names and their dates: the day 10 has observations in
    [reference_obs], the day 20 has none. *)
Definition file_day (filepath : string) : result Z :=
  if decide (filepath = "archm.2000_010_12") then Ok 10
  else if decide (filepath = "archm.2000_020_12") then Ok 20
  else Raise (ValueError "time data does not match format '%Y_%j_%H'").

(** * Properties *)

(** ** Masks, folds and dictionaries *)

Lemma select_mask_map {A : Type} (f : A -> bool) (l : list A) :
  select_mask (map f l) l = List.filter f l.
Proof.
  induction l as [|x l IH]; simpl; [reflexivity|].
  destruct (f x); by rewrite IH.
Qed.

Lemma mask_and_map {A : Type} (f g : A -> bool) (l : list A) :
  mask_and (map f l) (map g l) = map (fun x => f x && g x) l.
Proof.
  unfold mask_and. induction l as [|x l IH]; simpl; [reflexivity|].
  by rewrite IH.
Qed.

Lemma mask_or_map {A : Type} (f g : A -> bool) (l : list A) :
  mask_or (map f l) (map g l) = map (fun x => f x || g x) l.
Proof.
  unfold mask_or. induction l as [|x l IH]; simpl; [reflexivity|].
  by rewrite IH.
Qed.

Lemma replicate_true_map {A : Type} (l : list A) :
  replicate (length l) true = map (fun _ => true) l.
Proof. induction l as [|x l IH]; simpl; [reflexivity|]. by rewrite IH. Qed.

Lemma filter_all_true {A : Type} (f : A -> bool) (l : list A) :
  (forall x, f x = true) -> List.filter f l = l.
Proof.
  intros Hf. induction l as [|x l IH]; simpl; [reflexivity|].
  by rewrite Hf, IH.
Qed.

Lemma get_column_Ok (df : DataFrame) (l : string) :
  l ∈ columns df ->
  get_column df l = Ok (map (fun ir => row_get ir.2 l) (rows df)).
Proof. intros Hin. unfold get_column. by rewrite decide_True. Qed.

Lemma first_column_shape_Ok (df : DataFrame) :
  columns df <> [] -> first_column_shape df = Ok (length (rows df)).
Proof. unfold first_column_shape. by destruct (columns df). Qed.

Lemma dict_set_elem {V : Type} (k : string) (v : V) (d : dict V) (p : string * V) :
  p ∈ dict_set k v d -> p = (k, v) \/ p ∈ d.
Proof.
  induction d as [|[k' v'] d IH]; simpl.
  - intros ->%list_elem_of_singleton. by left.
  - destruct (decide (k' = k)) as [->|Hne].
    + intros [->|Hin]%elem_of_cons; [by left|]. right. by apply elem_of_cons; right.
    + intros [->|Hin]%elem_of_cons.
      * right. by apply elem_of_cons; left.
      * destruct (IH Hin) as [->|Hd]; [by left|].
        right. by apply elem_of_cons; right.
Qed.

(** ** Constraints *)

Section FilteringFacts.
Import Filtering.
Context {Polygon : Type}.
Variable within : cell -> cell -> Polygon -> bool.

Local Abbreviation Constraints := (@Filtering.Constraints Polygon).

(** No registered superset constraint has an empty value list. *)
Lemma registered_supersets_nonempty (c : Constraints) :
  registered c -> forall item, item ∈ supersets c -> item.2 <> [].
Proof.
  induction 1 as [|c l lo hi _ IH|c l vs _ IH|c lat lon poly _ IH|c _ IH];
    simpl; intros item Hin.
  - by apply elem_of_nil in Hin.
  - unfold add_boundary_constraint in Hin.
    destruct (negb _); simpl in Hin; by apply IH.
  - unfold add_superset_constraint in Hin.
    destruct (truthy (default [] vs)) eqn:Hvs; simpl in Hin; [|by apply IH].
    apply dict_set_elem in Hin as [->|Hin]; [|by apply IH].
    simpl. by destruct (default [] vs).
  - by apply IH.
  - by apply elem_of_nil in Hin.
Qed.

Lemma boundary_step_map (df : DataFrame) (g : cell * Row -> bool)
    (item : string * (cell * cell)) :
  item.1 ∈ columns df ->
  boundary_step df (map g (rows df)) item
  = Ok (map (fun ir => g ir && boundary_holds ir.2 item) (rows df)).
Proof.
  intros Hcol. unfold boundary_step. rewrite (get_column_Ok _ _ Hcol). simpl.
  destruct item as [l [lo hi]]; simpl in *. unfold boundary_holds; simpl.
  destruct (is_nan lo) eqn:Hlo, (is_nan hi) eqn:Hhi; simpl.
  - f_equal. apply map_ext. intros ir. by rewrite andb_true_r.
  - rewrite map_map, mask_and_map. reflexivity.
  - rewrite map_map, mask_and_map. f_equal. apply map_ext. intros ir.
    by rewrite andb_true_r.
  - rewrite !map_map, mask_and_map, mask_and_map. reflexivity.
Qed.

Lemma boundary_fold_map (df : DataFrame) (items : dict (cell * cell)) :
  (forall item, item ∈ items -> item.1 ∈ columns df) ->
  forall g,
    fold_result (boundary_step df) (map g (rows df)) items
    = Ok (map (fun ir => g ir && forallb (boundary_holds ir.2) items) (rows df)).
Proof.
  induction items as [|item items IH]; intros Hcols g; simpl.
  - f_equal. apply map_ext. intros ir. by rewrite andb_true_r.
  - rewrite boundary_step_map by (apply Hcols; left). simpl.
    rewrite IH by (intros it Hit; apply Hcols; by right).
    f_equal. apply map_ext. intros ir. by rewrite andb_assoc.
Qed.

Lemma superset_step_map (df : DataFrame) (g : cell * Row -> bool)
    (bs : option (list bool)) (item : string * list cell) :
  item.1 ∈ columns df -> item.2 <> [] ->
  exists bs',
    superset_step df (map g (rows df), bs) item
    = Ok (map (fun ir => g ir && superset_holds ir.2 item) (rows df), bs').
Proof.
  intros Hcol Hne. unfold superset_step. simpl.
  destruct item as [l vs]; simpl in *.
  destruct vs as [|v vs]; [done|]. simpl.
  rewrite (get_column_Ok _ _ Hcol). simpl.
  eexists. rewrite map_map, mask_and_map. reflexivity.
Qed.

Lemma superset_fold_map (df : DataFrame) (items : dict (list cell)) :
  (forall item, item ∈ items -> item.1 ∈ columns df /\ item.2 <> []) ->
  forall g bs, exists bs',
    fold_result (superset_step df) (map g (rows df), bs) items
    = Ok (map (fun ir => g ir && forallb (superset_holds ir.2) items) (rows df), bs').
Proof.
  induction items as [|item items IH]; intros Hok g bs; simpl.
  - exists bs. do 2 f_equal. apply map_ext. intros ir. by rewrite andb_true_r.
  - destruct (Hok item) as [Hcol Hne]; [by left|].
    destruct (superset_step_map df g bs item Hcol Hne) as [bs1 ->]. simpl.
    destruct (IH (fun it Hit => Hok it (list_elem_of_further _ _ _ Hit))
                 (fun ir => g ir && superset_holds ir.2 item) bs1) as [bs2 ->].
    exists bs2. do 2 f_equal. apply map_ext. intros ir. by rewrite andb_assoc.
Qed.

Lemma polygon_step_map (df : DataFrame) (g : cell * Row -> bool)
    (p : @PolygonConstraint Polygon) :
  longitude_field p ∈ columns df -> latitude_field p ∈ columns df ->
  polygon_step within df (map g (rows df)) p
  = Ok (map (fun ir => g ir && polygon_holds within ir.2 p) (rows df)).
Proof.
  intros Hlon Hlat. unfold polygon_step.
  rewrite (get_column_Ok _ _ Hlon). simpl.
  rewrite (get_column_Ok _ _ Hlat). simpl.
  f_equal. unfold polygon_holds.
  induction (rows df) as [|ir rs IH]; simpl; [reflexivity|].
  unfold mask_and in *. simpl. by rewrite IH.
Qed.

Lemma polygon_fold_map (df : DataFrame) (items : list (@PolygonConstraint Polygon)) :
  (forall p, p ∈ items ->
     longitude_field p ∈ columns df /\ latitude_field p ∈ columns df) ->
  forall g,
    fold_result (polygon_step within df) (map g (rows df)) items
    = Ok (map (fun ir => g ir && forallb (polygon_holds within ir.2) items) (rows df)).
Proof.
  induction items as [|p items IH]; intros Hcols g; simpl.
  - f_equal. apply map_ext. intros ir. by rewrite andb_true_r.
  - destruct (Hcols p) as [Hlon Hlat]; [by left|].
    rewrite polygon_step_map by done. simpl.
    rewrite IH by (intros q Hq; apply Hcols; by right).
    f_equal. apply map_ext. intros ir. by rewrite andb_assoc.
Qed.

(** The three masks, and the selection, on a frame that has the constrained
    columns. *)
Lemma apply_constraints_filter (c : Constraints) (df : DataFrame) :
  columns df <> [] ->
  (forall item, item ∈ supersets c -> item.2 <> []) ->
  (forall l, l ∈ constrained_labels c -> l ∈ columns df) ->
  apply_constraints_to_dataframe within c df
  = Ok {| columns := columns df;
          rows := List.filter (fun ir => all_predicates_hold within c ir.2) (rows df) |}.
Proof.
  intros Hcols Hne Hlabels.
  unfold apply_constraints_to_dataframe, _apply_boundary_constraints,
    _apply_superset_constraints, _apply_polygon_constraints.
  rewrite (first_column_shape_Ok _ Hcols). simpl.
  rewrite replicate_true_map.
  rewrite boundary_fold_map; last first.
  { intros item Hin. apply Hlabels. unfold constrained_labels.
    apply elem_of_app; left. apply list_elem_of_fmap. by exists item. }
  simpl.
  destruct (superset_fold_map df (supersets c)) with (g := fun _ : cell * Row => true)
    (bs := @None (list bool)) as [bs' Hs].
  { intros item Hin. split; [|by apply Hne].
    apply Hlabels. unfold constrained_labels.
    apply elem_of_app; right. apply elem_of_app; left.
    apply list_elem_of_fmap. by exists item. }
  rewrite Hs. simpl.
  rewrite polygon_fold_map; last first.
  { intros p Hin.
    split; apply Hlabels; unfold constrained_labels;
      (apply elem_of_app; right; apply elem_of_app; right);
      apply list_elem_of_In, in_flat_map; exists p;
      (split; [by apply list_elem_of_In|]); simpl; auto. }
  simpl. unfold loc_mask. f_equal. f_equal.
  rewrite !mask_and_map, select_mask_map.
  apply filter_ext. intros ir. unfold all_predicates_hold. reflexivity.
Qed.

(** C1. On a frame that has a column at least and every constrained column,
    [apply_constraints_to_dataframe] returns exactly the rows on which every
    registered boundary, superset and polygon predicate holds, each with the
    index label it had; with nothing registered the frame comes back
    unchanged. *)
Theorem apply_constraints_conjunction (c : Constraints) (df : DataFrame) :
  registered c ->
  columns df <> [] ->
  (forall l, l ∈ constrained_labels c -> l ∈ columns df) ->
  apply_constraints_to_dataframe within c df
  = Ok {| columns := columns df;
          rows := List.filter (fun ir => all_predicates_hold within c ir.2) (rows df) |}
  /\ apply_constraints_to_dataframe within Constraints_init df = Ok df.
Proof.
  intros Hreg Hcols Hlabels. split.
  - apply apply_constraints_filter; [done| |done].
    by apply registered_supersets_nonempty.
  - rewrite apply_constraints_filter; [|done| |].
    + destruct df as [cols rs]. simpl. f_equal. f_equal.
      by apply filter_all_true.
    + intros item Hin. by apply elem_of_nil in Hin.
    + intros l Hin. by apply elem_of_nil in Hin.
Qed.


(** *** Extremes *)

Lemma foldl_py_min2_Num (x : Z) (zs : list Z) :
  foldl py_min2 (Num x) (map Num zs) = Num (foldl Z.min x zs).
Proof.
  revert x. induction zs as [|z zs IH]; intros x; simpl; [reflexivity|].
  unfold py_min2 at 2. simpl. destruct (Z.ltb_spec z x).
  - rewrite IH. by rewrite Z.min_r by lia.
  - rewrite IH. by rewrite Z.min_l by lia.
Qed.

Lemma foldl_py_max2_Num (x : Z) (zs : list Z) :
  foldl py_max2 (Num x) (map Num zs) = Num (foldl Z.max x zs).
Proof.
  revert x. induction zs as [|z zs IH]; intros x; simpl; [reflexivity|].
  unfold py_max2 at 2. simpl. destruct (Z.ltb_spec x z).
  - rewrite IH. by rewrite Z.max_r by lia.
  - rewrite IH. by rewrite Z.max_l by lia.
Qed.

Lemma foldl_min_least (x : Z) (zs : list Z) : least_of (foldl Z.min x zs) (x :: zs).
Proof.
  revert x. induction zs as [|z zs IH]; intros x; simpl.
  - split; [left|]. intros y ->%list_elem_of_singleton. lia.
  - destruct (IH (Z.min x z)) as [Hin Hle]. split.
    + apply elem_of_cons in Hin as [->|Hin].
      * destruct (Z.min_spec x z) as [[_ ->]|[_ ->]]; [left|right; left].
      * right. by right.
    + intros y Hy. pose proof (Hle (Z.min x z) ltac:(left)) as H0.
      apply elem_of_cons in Hy as [->|Hy]; [lia|].
      apply elem_of_cons in Hy as [->|Hy]; [lia|].
      apply Hle. by right.
Qed.

Lemma foldl_max_greatest (x : Z) (zs : list Z) : greatest_of (foldl Z.max x zs) (x :: zs).
Proof.
  revert x. induction zs as [|z zs IH]; intros x; simpl.
  - split; [left|]. intros y ->%list_elem_of_singleton. lia.
  - destruct (IH (Z.max x z)) as [Hin Hle]. split.
    + apply elem_of_cons in Hin as [->|Hin].
      * destruct (Z.max_spec x z) as [[_ ->]|[_ ->]]; [right; left|left].
      * right. by right.
    + intros y Hy. pose proof (Hle (Z.max x z) ltac:(left)) as H0.
      apply elem_of_cons in Hy as [->|Hy]; [lia|].
      apply elem_of_cons in Hy as [->|Hy]; [lia|].
      apply Hle. by right.
Qed.

Lemma dict_in_Some {V : Type} (d : dict V) (k : string) (v : V) :
  dict_get d k = Some v -> dict_in d k = true.
Proof. intros H. unfold dict_in. rewrite H. by apply bool_decide_eq_true. Qed.

Lemma dict_in_None {V : Type} (d : dict V) (k : string) :
  dict_get d k = None -> dict_in d k = false.
Proof.
  intros H. unfold dict_in. rewrite H. apply bool_decide_eq_false.
  by apply is_Some_None.
Qed.

(** C6, as the code has it.  With finite bounds and values, [get_extremes]
    returns the interval spanned by the boundary and the superset values
    together: the least of the boundary minimum and the superset values, and
    the greatest of the boundary maximum and the superset values.  With one
    kind of constraint only it returns that constraint's extremes, and with
    none the defaults. *)
Theorem get_extremes_span (c : Constraints) (field : string)
    (default_min default_max : option cell) :
  (dict_get (boundaries c) field = None ->
   dict_get (supersets c) field = None ->
   get_extremes c field default_min default_max = Ok (default_min, default_max))
  /\ (forall lo hi z zs,
        dict_get (boundaries c) field = Some (Num lo, Num hi) ->
        dict_get (supersets c) field = Some (map Num (z :: zs)) ->
        exists a b,
          get_extremes c field default_min default_max
          = Ok (Some (Num a), Some (Num b))
          /\ least_of a (lo :: z :: zs) /\ greatest_of b (hi :: z :: zs))
  /\ (forall lo hi,
        dict_get (boundaries c) field = Some (lo, hi) ->
        dict_get (supersets c) field = None ->
        get_extremes c field default_min default_max = Ok (Some lo, Some hi))
  /\ (forall z zs,
        dict_get (boundaries c) field = None ->
        dict_get (supersets c) field = Some (map Num (z :: zs)) ->
        exists a b,
          get_extremes c field default_min default_max
          = Ok (Some (Num a), Some (Num b))
          /\ least_of a (z :: zs) /\ greatest_of b (z :: zs)).
Proof.
  unfold get_extremes, is_constrained, get_constraint_parameters,
    params_boundary, params_superset.
  repeat split.
  - intros Hb Hs. by rewrite (dict_in_None _ _ Hb), (dict_in_None _ _ Hs).
  - intros lo hi z zs Hb Hs.
    rewrite (dict_in_Some _ _ _ Hb). simpl. rewrite Hb, Hs. simpl.
    rewrite ?bool_decide_eq_true_2 by eauto. simpl.
    rewrite foldl_py_min2_Num, foldl_py_max2_Num.
    pose proof (foldl_min_least z zs) as [Hmin_in Hmin_le].
    pose proof (foldl_max_greatest z zs) as [Hmax_in Hmax_le].
    set (m := foldl Z.min z zs) in *. set (M := foldl Z.max z zs) in *.
    unfold py_min2, py_max2. simpl.
    exists (if (m <? lo)%Z then m else lo), (if (hi <? M)%Z then M else hi).
    split; [by destruct (m <? lo)%Z, (hi <? M)%Z|]. split.
    + destruct (Z.ltb_spec m lo); split.
      * by right.
      * intros y [->|Hy]%elem_of_cons; [lia|by apply Hmin_le].
      * left.
      * intros y [->|Hy]%elem_of_cons; [lia|].
        specialize (Hmin_le y Hy). lia.
    + destruct (Z.ltb_spec hi M); split.
      * by right.
      * intros y [->|Hy]%elem_of_cons; [lia|by apply Hmax_le].
      * left.
      * intros y [->|Hy]%elem_of_cons; [lia|].
        specialize (Hmax_le y Hy). lia.
  - intros lo hi Hb Hs.
    rewrite (dict_in_Some _ _ _ Hb). simpl. rewrite Hb, Hs. simpl.
    rewrite ?bool_decide_eq_true_2 by eauto.
    rewrite ?bool_decide_eq_false_2 by (by apply is_Some_None). reflexivity.
  - intros z zs Hb Hs.
    rewrite (dict_in_None _ _ Hb), (dict_in_Some _ _ _ Hs). simpl.
    rewrite Hb, Hs. simpl.
    rewrite ?bool_decide_eq_false_2 by (by apply is_Some_None). simpl.
    rewrite foldl_py_min2_Num, foldl_py_max2_Num.
    eexists _, _. split; [reflexivity|].
    split; [apply foldl_min_least|apply foldl_max_greatest].
Qed.

End FilteringFacts.


Lemma apply_constraints_conjunction_witness :
  Filtering.apply_constraints_to_dataframe in_rectangle constraints_A table_A
  = Ok {| columns := ["A"];
          rows := [(Num 103, {[ "A" := Num 3 ]});
                   (Num 105, {[ "A" := Num 5 ]});
                   (Num 107, {[ "A" := Num 7 ]})] |}.
Proof.
  destruct (apply_constraints_conjunction in_rectangle constraints_A table_A)
    as [H _].
  - unfold constraints_A. do 2 constructor. constructor.
  - discriminate.
  - intros l Hin. vm_compute in Hin. vm_compute.
    apply elem_of_cons in Hin as [->|Hin]; [left|].
    apply elem_of_cons in Hin as [->|Hin]; [left|].
    by apply elem_of_nil in Hin.
  - rewrite H. vm_compute. reflexivity.
Defined.

(** C1, counterexample.  A frame of two rows and no column, with no
    constraint registered: the selection reads the number of rows off the
    first column, so it raises an [IndexError] where the frame was to come
    back unchanged. *)
Lemma apply_constraints_frame_without_columns :
  Filtering.apply_constraints_to_dataframe in_rectangle
    Filtering.Constraints_init frame_without_columns
  = Raise IndexError
  /\ Filtering.apply_constraints_to_dataframe in_rectangle
       Filtering.Constraints_init frame_without_columns
     <> Ok frame_without_columns.
Proof. split; [reflexivity|discriminate]. Qed.


(** C6, counterexample.  With the boundary [2, 8] and the superset {3, 5, 7}
    on one field, [get_extremes] returns (2, 8), while [3, 7] already holds
    every value the two constraints let through: (2, 8) is not the tightest
    interval. *)
Lemma get_extremes_not_tightest :
  Filtering.get_extremes constraints_A "A" None None
  = Ok (Some (Num 2), Some (Num 8))
  /\ ~ Filtering.tightest_interval constraints_A "A" 2 8.
Proof.
  split; [reflexivity|].
  intros [_ Htight].
  destruct (Htight 3 7)%Z as [Hlo _]; [|lia].
  intros v [_ Hsup].
  specialize (Hsup [Num 3; Num 5; Num 7] eq_refl).
  apply elem_of_cons in Hsup as [Hv|Hsup]; [injection Hv; lia|].
  apply elem_of_cons in Hsup as [Hv|Hsup]; [injection Hv; lia|].
  apply list_elem_of_singleton in Hsup. injection Hsup; lia.
Qed.

Lemma get_extremes_span_witness :
  exists a b,
    Filtering.get_extremes constraints_A "A" None None
    = Ok (Some (Num a), Some (Num b))
    /\ least_of a [2; 3; 5; 7]%Z /\ greatest_of b [8; 3; 5; 7]%Z.
Proof.
  destruct (get_extremes_span constraints_A "A" None None) as (_ & H & _ & _).
  apply (H 2 8 3 [5; 7])%Z; reflexivity.
Defined.

(** Whatever the frame, a field with a superset constraint makes
    [apply_specific_constraint] stop on the keyword that
    [add_superset_constraint] does not have. *)
Lemma apply_specific_constraint_superset_raises {Polygon : Type}
    (within : cell -> cell -> Polygon -> bool)
    (c : @Filtering.Constraints Polygon) (field : string) (df : DataFrame) :
  dict_in (Filtering.supersets c) field = true ->
  Filtering.apply_specific_constraint within c field df
  = Raise (TypeError
      "Constraints.add_superset_constraint() got an unexpected keyword argument 'value_superset'").
Proof.
  intros Hin. unfold Filtering.apply_specific_constraint. rewrite Hin.
  assert (exists vs, dict_get (Filtering.supersets c) field = Some vs) as [vs Hvs].
  { unfold dict_in in Hin. apply bool_decide_eq_true in Hin as [vs Hvs]. eauto. }
  rewrite Hvs.
  destruct (dict_in (Filtering.boundaries c) field) eqn:Hb.
  - assert (exists b, dict_get (Filtering.boundaries c) field = Some b) as [b Hbb].
    { unfold dict_in in Hb. apply bool_decide_eq_true in Hb as [b Hbb]. eauto. }
    rewrite Hbb. reflexivity.
  - reflexivity.
Qed.

(** C7, at a failing input.  With the superset {3, 5, 7} registered on
    column A, [apply_specific_constraint] on that field raises a [TypeError]
    instead of returning the rows 3, 5 and 7. *)
Theorem apply_specific_constraint_superset_fails :
  Filtering.apply_specific_constraint in_rectangle constraints_A "A" table_A
  = Raise (TypeError
      "Constraints.add_superset_constraint() got an unexpected keyword argument 'value_superset'").
Proof. vm_compute. reflexivity. Qed.

(** ** Storers *)

Lemma length_own_rows (df : DataFrame) : length (own_rows df) = length (rows df).
Proof. unfold own_rows. apply length_map. Qed.

Lemma length_renumber (rs : list (cell * Row)) : length (renumber rs) = length rs.
Proof. unfold renumber. apply length_imap. Qed.

Lemma pd_concat_two_rows (a b : DataFrame) (ignore_index : bool) :
  exists df,
    pd_concat [a; b] ignore_index = Ok df
    /\ length (rows df) = (length (rows a) + length (rows b))%nat.
Proof.
  eexists. split; [reflexivity|]. simpl.
  assert (length (own_rows a ++ own_rows b ++ [])
          = (length (rows a) + length (rows b))%nat) as Hlen.
  { rewrite app_nil_r, List.length_app, !length_own_rows. reflexivity. }
  destruct ignore_index; [by rewrite length_renumber|done].
Qed.

Lemma list_of_set_NoDup (l : list string) : NoDup (list_of_set l).
Proof. unfold list_of_set. apply NoDup_elements. Qed.

Lemma list_of_set_elem (l : list string) (x : string) : x ∈ list_of_set l <-> x ∈ l.
Proof. unfold list_of_set. by rewrite elem_of_elements, elem_of_list_to_set. Qed.

(** C8. The sum of two storers with equal variable sets and equal categories
    has as many rows as the two together, and its providers are the distinct
    providers of the two; different variable sets raise the variable-set
    error, and equal variable sets with different categories raise the
    category error. *)
Theorem Storer_add_concatenation (a b : Storer) :
  (VariableSet.eq (variables a) (variables b) = true ->
   category a = category b ->
   exists s,
     Storer_add a (PyStorer b) = Ok s
     /\ length (rows (data s)) = (length (rows (data a)) + length (rows (data b)))%nat
     /\ NoDup (providers s)
     /\ (forall p, p ∈ providers s <-> p ∈ providers a \/ p ∈ providers b))
  /\ (VariableSet.eq (variables a) (variables b) = false ->
      Storer_add a (PyStorer b)
      = Raise (IncompatibleVariableSetsError "Variables or categories are not compatible"))
  /\ (VariableSet.eq (variables a) (variables b) = true ->
      category a <> category b ->
      Storer_add a (PyStorer b)
      = Raise (IncompatibleCategoriesError "Categories are not compatible")).
Proof.
  unfold Storer_add. repeat split.
  - intros Hvars Hcat. rewrite Hvars. cbn [negb].
    rewrite bool_decide_eq_true_2 by done. cbn [negb].
    destruct (pd_concat_two_rows (data a) (data b) true) as (df & -> & Hlen).
    cbn [mbind result_bind]. eexists. split; [reflexivity|]. simpl. repeat split.
    + exact Hlen.
    + apply list_of_set_NoDup.
    + intros Hp. apply (proj1 (list_of_set_elem _ _)) in Hp.
      by apply elem_of_app in Hp.
    + intros Hp. apply (proj2 (list_of_set_elem _ _)). by apply elem_of_app.
  - intros Hvars. by rewrite Hvars.
  - intros Hvars Hcat. rewrite Hvars. simpl.
    by rewrite bool_decide_eq_false_2.
Qed.

Lemma Storer_add_concatenation_witness :
  exists s,
    Storer_add storer_north (PyStorer storer_south) = Ok s
    /\ length (rows (data s)) = 3%nat
    /\ NoDup (providers s)
    /\ (forall p, p ∈ providers s <-> p ∈ ["IMR"; "ICES"] \/ p ∈ ["ICES"; "ARGO"]).
Proof.
  destruct (Storer_add_concatenation storer_north storer_south) as (H & _ & _).
  apply H.
  - vm_compute. reflexivity.
  - reflexivity.
Defined.

(** ** Metrics *)



Section MetricsFacts.
Import Metrics.
Variable _eval : DataFrame -> DataFrame -> Series.


End MetricsFacts.



(** The message of the error: the shape of the observations is filled in,
    the placeholder of the simulations is not. *)
Example incomparable_storers_message :
  Metrics.evaluated_frames ["TEMP"; "PSAL"] observed simulated_temp_only
  = Raise (IncomparableStorersError
      "DataFrame shapes don't match(observations: (4, 2) - simulations: {sim_df.shape}) -> make sure both storer have the variables to evaluate on (variables: ['TEMP', 'PSAL'])").
Proof. vm_compute. reflexivity. Qed.

(** ** Loading the simulations selected by a reference table *)

Section LoadAllFacts.
Import Matching.
Context {Mask : Type}.
Variable parse_date_from_filepath : string -> result Z.
Variable select : DataFrame -> result (Mask * Match).
Variable loader_load : string -> Mask -> result DataFrame.
Variable finish_storer : Storer -> result Storer.

Local Abbreviation load_file :=
  (Matching.load_file parse_date_from_filepath select loader_load).
Local Abbreviation load_all :=
  (Matching.load_all parse_date_from_filepath select loader_load finish_storer).

(** A file whose date is the date of no reference row adds nothing. *)
Lemma load_file_skips (self : SelectiveDataSource) (datas : list DataFrame)
    (filepath : string) (date : Z) :
  date_var_label self ∈ columns (reference self) ->
  parse_date_from_filepath filepath = Ok date ->
  Num date ∉ reference_dates self ->
  load_file self datas filepath = Ok datas.
Proof.
  intros Hcol Hparse Hdate. unfold Matching.load_file. rewrite Hparse.
  cbn [mbind result_bind]. rewrite (get_column_Ok _ _ Hcol).
  cbn [mbind result_bind].
  assert (rows (loc_mask (reference self)
            (map (fun d => bool_decide (d = Num date))
               (map (fun ir : cell * Row => row_get ir.2 (date_var_label self))
                  (rows (reference self))))) = []) as Hrows.
  { unfold loc_mask. cbn [rows]. rewrite map_map, select_mask_map.
    unfold reference_dates in Hdate.
    induction (rows (reference self)) as [|ir rs IH]; [reflexivity|].
    simpl. rewrite bool_decide_eq_false_2.
    - apply IH. intros Hin. apply Hdate. simpl. by right.
    - intros Heq. apply Hdate. simpl. rewrite Heq. left. }
  unfold df_empty. rewrite Hrows. reflexivity.
Qed.

(** C10. When the date of every simulation file is the date of no reference
    row, every file is skipped, nothing is accumulated, and [load_all] raises
    the error of a concatenation of no frame, rather than returning a
    storer. *)
Theorem load_all_raises_when_nothing_matches (self : SelectiveDataSource)
    (filepaths : list string) :
  date_var_label self ∈ columns (reference self) ->
  (forall filepath, filepath ∈ filepaths ->
     exists date, parse_date_from_filepath filepath = Ok date
                  /\ Num date ∉ reference_dates self) ->
  load_all self filepaths = Raise (ValueError "No objects to concatenate").
Proof.
  intros Hcol Hfiles. unfold Matching.load_all.
  assert (fold_result (load_file self) [] filepaths = Ok []) as ->.
  { induction filepaths as [|f fs IH]; [reflexivity|].
    simpl. destruct (Hfiles f) as (date & Hparse & Hdate); [left|].
    rewrite (load_file_skips self [] f date Hcol Hparse Hdate).
    cbn [mbind result_bind]. apply IH.
    intros g Hg. apply Hfiles. by right. }
  reflexivity.
Qed.

End LoadAllFacts.

Lemma load_all_raises_when_nothing_matches_witness :
  Matching.load_all file_date
    (fun _ => Raise (ValueError "no grid file") : result (list bool * Matching.Match))
    (fun _ _ => Raise (ValueError "no archive file"))
    (fun s => Ok s)
    hycom_source ["archm.2000_020_12"; "archm.2000_021_12"]
  = Raise (ValueError "No objects to concatenate").
Proof.
  apply load_all_raises_when_nothing_matches.
  - vm_compute. left.
  - intros f Hf.
    apply elem_of_cons in Hf as [->|Hf]; [exists 20%Z|].
    + split; [reflexivity|]. vm_compute. intros Hin.
      apply elem_of_cons in Hin as [Hin|Hin]; [discriminate|].
      apply list_elem_of_singleton in Hin. discriminate.
    + apply list_elem_of_singleton in Hf as ->. exists 21%Z.
      split; [reflexivity|]. vm_compute. intros Hin.
      apply elem_of_cons in Hin as [Hin|Hin]; [discriminate|].
      apply list_elem_of_singleton in Hin. discriminate.
Defined.

(** ** Matching the loaded rows with the observations *)

Section MatchFacts.
Import Matching.

Lemma take_positions_app (rs : list (cell * Row)) (p1 p2 : list nat) :
  take_positions rs (p1 ++ p2)
  = (r1 ← take_positions rs p1; r2 ← take_positions rs p2; Ok (r1 ++ r2)).
Proof.
  induction p1 as [|p p1 IH]; simpl.
  - by destruct (take_positions rs p2).
  - destruct (rs !! p) as [ir|]; [|reflexivity].
    rewrite IH. destruct (take_positions rs p1) as [r1|e]; simpl; [|reflexivity].
    by destruct (take_positions rs p2).
Qed.

Lemma take_positions_replicate (rs : list (cell * Row)) (p n : nat) (ir : cell * Row) :
  rs !! p = Some ir ->
  take_positions rs (replicate n p) = Ok (replicate n ir.2).
Proof.
  intros Hp. induction n as [|n IH]; simpl; [reflexivity|].
  by rewrite Hp, IH.
Qed.

Lemma merged_positions (p : nat) (s : cell) (xs : list link) :
  map m_load_index (map (fun r => mkMerged p s (obs_index r)) xs)
  = replicate (length (map (fun r => mkMerged p s (obs_index r)) xs)) p.
Proof. induction xs as [|x xs IH]; simpl; [reflexivity|]. by rewrite IH. Qed.

Lemma merged_fan_out (p : nat) (s : cell) (r : Row) (xs : list link) :
  zip (map m_obs_index (map (fun l => mkMerged p s (obs_index l)) xs))
      (replicate (length (map (fun l => mkMerged p s (obs_index l)) xs)) r)
  = map (fun l => (obs_index l, r)) xs.
Proof. induction xs as [|x xs IH]; simpl; [reflexivity|]. by rewrite IH. Qed.

Lemma merge_lines_positions (links : list link) (p : nat) (s : cell) :
  map m_load_index (merge_lines links (p, s))
  = replicate (length (merge_lines links (p, s))) p.
Proof.
  unfold merge_lines. cbn [fst snd].
  destruct (List.filter _ links) as [|l ls]; [reflexivity|].
  apply (merged_positions p s (l :: ls)).
Qed.

Lemma merge_lines_fan_out (links : list link) (p : nat) (s : cell) (r : Row) :
  zip (map m_obs_index (merge_lines links (p, s)))
      (replicate (length (merge_lines links (p, s))) r)
  = fan_out links (s, r).
Proof.
  unfold merge_lines, fan_out. cbn [fst snd].
  destruct (List.filter _ links) as [|l ls]; [reflexivity|].
  apply (merged_fan_out p s r (l :: ls)).
Qed.

Lemma take_positions_merge (links : list link) (rest pre : list (cell * Row)) :
  exists reshaped,
    take_positions (pre ++ rest)
      (map m_load_index
         (merge_left (imap (fun i s => ((length pre + i)%nat, s)) rest.*1) links))
    = Ok reshaped
    /\ zip (map m_obs_index
              (merge_left (imap (fun i s => ((length pre + i)%nat, s)) rest.*1) links))
           reshaped
       = flat_map (fan_out links) rest.
Proof.
  revert pre. induction rest as [|[s r] rest IH]; intros pre.
  - exists []. split; reflexivity.
  - destruct (IH (pre ++ [(s, r)])) as (reshaped & Htake & Hzip).
    rewrite <- app_assoc in Htake. simpl in Htake.
    assert (imap (fun i s0 => ((length pre + i)%nat, s0)) ((s, r) :: rest).*1
            = ((length pre + 0)%nat, s)
              :: imap (fun i s0 => ((length (pre ++ [(s, r)]) + i)%nat, s0)) rest.*1)
      as ->.
    { simpl. f_equal. apply imap_ext. intros i x _. simpl.
      rewrite List.length_app. simpl. f_equal. lia. }
    unfold merge_left in *. simpl.
    exists (replicate (length (merge_lines links ((length pre + 0)%nat, s))) r
            ++ reshaped).
    rewrite !map_app, take_positions_app, merge_lines_positions.
    rewrite (take_positions_replicate _ _ _ (s, r)); last first.
    { rewrite Nat.add_0_r. by apply list_lookup_middle. }
    cbn [mbind result_bind fst snd]. rewrite Htake.
    cbn [mbind result_bind]. split; [reflexivity|].
    rewrite <- Hzip, <- (merge_lines_fan_out links (length pre + 0)%nat s r).
    apply zip_with_app.
    by rewrite length_map, length_replicate.
Qed.

(** The rows that [match_] returns: each loaded row, in order, fanned out
    over the observations that chose its index. *)
Lemma match_rows (self : Match) (loaded_df : DataFrame) :
  match_ self loaded_df
  = Ok {| columns := columns loaded_df;
          rows := flat_map (fan_out (index_link self)) (rows loaded_df) |}.
Proof.
  unfold match_.
  destruct (take_positions_merge (index_link self) (rows loaded_df) [])
    as (reshaped & Htake & Hzip).
  simpl in Htake, Hzip. unfold index. rewrite Htake. simpl. by rewrite Hzip.
Qed.

Lemma flat_map_nil {A B : Type} (l : list A) :
  flat_map (fun _ : A => @nil B) l = [].
Proof. induction l as [|x l IH]; simpl; done. Qed.

Lemma flat_map_split {A B : Type} (f g : A -> list B) (l : list A) :
  flat_map (fun x => f x ++ g x) l ≡ₚ flat_map f l ++ flat_map g l.
Proof.
  induction l as [|x l IH]; simpl; [reflexivity|].
  rewrite IH, <- !app_assoc. f_equiv.
  rewrite !app_assoc. f_equiv. apply Permutation_app_comm.
Qed.

Lemma flat_map_if {A B : Type} (f : A -> bool) (g : A -> B) (l : list A) :
  flat_map (fun x => if f x then [g x] else []) l = map g (List.filter f l).
Proof.
  induction l as [|x l IH]; simpl; [reflexivity|].
  destruct (f x); simpl; by rewrite IH.
Qed.

(** A loaded row that some observation chose gives one row per such
    observation. *)
Lemma fan_out_chosen (links : list link) (ir : cell * Row) :
  (exists l, l ∈ links /\ sim_index l = ir.1) ->
  fan_out links ir
  = flat_map (fun l => if bool_decide (ir.1 = sim_index l)
                       then [(obs_index l, ir.2)] else []) links.
Proof.
  intros (l & Hl & Hsim). unfold fan_out.
  rewrite flat_map_if.
  rewrite (filter_ext (fun r => bool_decide (sim_index r = ir.1))
                      (fun r => bool_decide (ir.1 = sim_index r)));
    [|intros r; apply bool_decide_ext; split; congruence].
  destruct (List.filter _ links) as [|x xs] eqn:Hf; [|reflexivity].
  exfalso.
  assert (In l (List.filter (fun r => bool_decide (ir.1 = sim_index r)) links)) as Hin.
  { apply filter_In. split; [by apply list_elem_of_In|].
    by apply bool_decide_eq_true. }
  rewrite Hf in Hin. destruct Hin.
Qed.

(** The output, read observation by observation instead of loaded row by
    loaded row. *)
Lemma fan_out_by_observation (links : list link) (rs : list (cell * Row)) :
  (forall ir, ir ∈ rs -> exists l, l ∈ links /\ sim_index l = ir.1) ->
  flat_map (fan_out links) rs ≡ₚ flat_map (rows_chosen_by rs) links.
Proof.
  induction rs as [|ir rs IH]; intros Hchosen; simpl.
  - unfold rows_chosen_by. simpl. by rewrite flat_map_nil.
  - rewrite IH by (intros jr Hjr; apply Hchosen; by right).
    rewrite fan_out_chosen by (apply Hchosen; left).
    rewrite <- flat_map_split.
    erewrite flat_map_ext; [reflexivity|].
    intros l. unfold rows_chosen_by. simpl.
    by destruct (bool_decide (ir.1 = sim_index l)).
Qed.

(** With distinct index labels, a label of the frame selects one row. *)
Lemma filter_index_singleton (rs : list (cell * Row)) (s : cell) :
  NoDup rs.*1 -> s ∈ rs.*1 ->
  exists r, (s, r) ∈ rs
            /\ List.filter (fun ir => bool_decide (ir.1 = s)) rs = [(s, r)].
Proof.
  induction rs as [|[i r] rs IH]; simpl; intros Hnd Hin.
  - by apply elem_of_nil in Hin.
  - apply NoDup_cons in Hnd as [Hnotin Hnd].
    destruct (decide (i = s)) as [->|Hne].
    + exists r. split; [left|].
      rewrite bool_decide_eq_true_2 by done. f_equal.
      clear IH Hin Hnd. induction rs as [|[j q] rs IH]; [reflexivity|].
      simpl in *. rewrite bool_decide_eq_false_2.
      * apply IH. intros H. apply Hnotin. by right.
      * intros ->. apply Hnotin. left.
    + apply elem_of_cons in Hin as [->|Hin]; [done|].
      destruct (IH Hnd Hin) as (q & Hq & Hf).
      exists q. split; [by right|].
      by rewrite bool_decide_eq_false_2.
Qed.

Lemma rows_chosen_single (rs : list (cell * Row)) (links : list link) :
  NoDup rs.*1 ->
  (forall l, l ∈ links -> sim_index l ∈ rs.*1) ->
  exists chosen,
    Forall2 (fun l r => (sim_index l, r) ∈ rs) links chosen
    /\ flat_map (rows_chosen_by rs) links = zip (map obs_index links) chosen.
Proof.
  intros Hnd. induction links as [|l links IH]; intros Hin.
  - exists []. split; [constructor|reflexivity].
  - destruct IH as (chosen & Hall & Heq); [intros k Hk; apply Hin; by right|].
    destruct (filter_index_singleton rs (sim_index l) Hnd) as (r & Hr & Hf);
      [apply Hin; left|].
    exists (r :: chosen). split; [by constructor|].
    simpl. unfold rows_chosen_by at 1. rewrite Hf. simpl. by rewrite Heq.
Qed.

Lemma fan_out_elem (links : list link) (rs : list (cell * Row)) (l : link) (r : Row) :
  l ∈ links -> (sim_index l, r) ∈ rs ->
  (obs_index l, r) ∈ flat_map (fan_out links) rs.
Proof.
  intros Hl Hr. apply list_elem_of_In, in_flat_map.
  exists (sim_index l, r). split; [by apply list_elem_of_In|].
  rewrite fan_out_chosen by (exists l; by split). simpl.
  apply in_flat_map. exists l. split; [by apply list_elem_of_In|].
  rewrite bool_decide_eq_true_2 by done. by left.
Qed.

(** C5, as the code has it.  When the loaded frame has distinct index values
    and these are exactly the flat indexes that the observations chose,
    [match_] returns one row per observation: the loaded row at the flat
    index the observation chose, under the observation's index.  Two
    observations that chose the same flat index both get its row. *)
Theorem match_one_row_per_observation (self : Match) (loaded_df : DataFrame) :
  NoDup (index loaded_df) ->
  (forall l, l ∈ index_link self -> sim_index l ∈ index loaded_df) ->
  (forall s, s ∈ index loaded_df ->
     exists l, l ∈ index_link self /\ sim_index l = s) ->
  exists out chosen,
    match_ self loaded_df = Ok out
    /\ columns out = columns loaded_df
    /\ Forall2 (fun l r => (sim_index l, r) ∈ rows loaded_df) (index_link self) chosen
    /\ rows out ≡ₚ zip (map obs_index (index_link self)) chosen
    /\ length (rows out) = length (index_link self)
    /\ (forall l1 l2 r,
          l1 ∈ index_link self -> l2 ∈ index_link self ->
          sim_index l1 = sim_index l2 ->
          (sim_index l1, r) ∈ rows loaded_df ->
          (obs_index l1, r) ∈ rows out /\ (obs_index l2, r) ∈ rows out).
Proof.
  intros Hnd Hloaded Hchosen. unfold index in *.
  destruct (rows_chosen_single (rows loaded_df) (index_link self) Hnd Hloaded)
    as (chosen & Hall & Heq).
  assert (flat_map (fan_out (index_link self)) (rows loaded_df)
          ≡ₚ zip (map obs_index (index_link self)) chosen) as Hperm.
  { rewrite <- Heq. apply fan_out_by_observation.
    intros [s r] Hir. apply Hchosen. apply list_elem_of_fmap. by exists (s, r). }
  eexists _, chosen. rewrite match_rows. split; [reflexivity|]. simpl.
  repeat split; try done.
  - rewrite Hperm, length_zip_with_l_eq; [by rewrite length_map|].
    rewrite length_map. by apply Forall2_length in Hall.
  - by apply fan_out_elem.
  - apply fan_out_elem; [done|]. by rewrite <- H1.
Qed.

End MatchFacts.

(** C5, counterexample.  One observation, 10, chose the point 7.  When the
    point is loaded with two depth levels, the output has two rows for the
    observation; when a point 8 that nobody chose is loaded too, the output
    has a row without observation index. *)
Lemma match_not_one_row_per_observation :
  (exists out,
     Matching.match_ match_10 loaded_two_levels = Ok out
     /\ index out = [Num 10; Num 10]
     /\ length (rows out) <> length (Matching.index_link match_10))
  /\ (exists out,
        Matching.match_ match_10 loaded_points_7_8 = Ok out
        /\ index out = [Num 10; NaN]
        /\ length (rows out) <> length (Matching.index_link match_10)).
Proof.
  split; eexists; (split; [vm_compute; reflexivity|]); simpl;
    (split; [reflexivity|discriminate]).
Qed.

Lemma match_one_row_per_observation_witness :
  exists out chosen,
    Matching.match_ match_10_11 loaded_point_7 = Ok out
    /\ columns out = ["DEPH"; "TEMP"]
    /\ Forall2 (fun l r => (Matching.sim_index l, r) ∈ rows loaded_point_7)
               (Matching.index_link match_10_11) chosen
    /\ rows out ≡ₚ zip [Num 10; Num 11] chosen
    /\ length (rows out) = 2%nat
    /\ (forall l1 l2 r,
          l1 ∈ Matching.index_link match_10_11 ->
          l2 ∈ Matching.index_link match_10_11 ->
          Matching.sim_index l1 = Matching.sim_index l2 ->
          (Matching.sim_index l1, r) ∈ rows loaded_point_7 ->
          (Matching.obs_index l1, r) ∈ rows out
          /\ (Matching.obs_index l2, r) ∈ rows out).
Proof.
  apply (match_one_row_per_observation match_10_11 loaded_point_7).
  - vm_compute. apply NoDup_singleton.
  - intros l Hl. vm_compute in Hl. vm_compute.
    apply elem_of_cons in Hl as [->|Hl]; [left|].
    apply list_elem_of_singleton in Hl as ->. left.
  - intros s Hs. vm_compute in Hs. apply list_elem_of_singleton in Hs as ->.
    exists (Matching.mkLink (Num 10) (Num 7)). split; [left|reflexivity].
Defined.

(** ** The order of construction of the features *)

Section FeatureFacts.
Import FeatureVariablesSet.

Lemma yield_all_app (available : list BaseVar) (out cs : list FeatureVar) :
  yield_all available out cs = (available ++ map fvar cs, out ++ cs).
Proof.
  unfold yield_all. revert available out.
  induction cs as [|c cs IH]; intros available out; simpl.
  - by rewrite !app_nil_r.
  - rewrite IH. simpl. by rewrite <- !app_assoc.
Qed.

Lemma var_eq_refl (v : BaseVar) : var_eq v v = true.
Proof. unfold var_eq. by apply bool_decide_eq_true. Qed.

Lemma is_loadable_spec (f : FeatureVar) (loaded : list BaseVar) :
  is_loadable f loaded = true ->
  forall v, v ∈ required_vars f -> exists x, x ∈ loaded /\ name x = name v.
Proof.
  unfold is_loadable. intros H v Hv.
  rewrite forallb_forall in H. specialize (H v (proj1 (list_elem_of_In _ _) Hv)).
  apply existsb_exists in H as (x & Hx & Hname).
  exists x. split; [by apply list_elem_of_In|]. by apply bool_decide_eq_true in Hname.
Qed.

Lemma filter_elem {A : Type} (p : A -> bool) (l : list A) (x : A) :
  x ∈ List.filter p l <-> x ∈ l /\ p x = true.
Proof. rewrite !list_elem_of_In. apply filter_In. Qed.

Lemma filter_length_lt {A : Type} (p : A -> bool) (l : list A) (x : A) :
  x ∈ l -> p x = false -> (length (List.filter p l) < length l)%nat.
Proof.
  induction l as [|y l IH]; intros Hin Hp.
  - by apply elem_of_nil in Hin.
  - simpl. pose proof (filter_length_le p l) as Hle.
    apply elem_of_cons in Hin as [->|Hin].
    + rewrite Hp. lia.
    + specialize (IH Hin Hp). destruct (p y); simpl; lia.
Qed.

Lemma forallb_false_elem {A : Type} (p : A -> bool) (l : list A) :
  forallb p l = false -> exists x, x ∈ l /\ p x = false.
Proof.
  induction l as [|y l IH]; simpl; [discriminate|].
  destruct (p y) eqn:Hy; simpl.
  - intros H. destruct (IH H) as (x & Hx & Hp). exists x. split; [by right|done].
  - intros _. exists y. split; [left|done].
Qed.

Lemma loop_invariant_step (self : list FeatureVar) (available_vars : list BaseVar)
    (features : list FeatureVar) (available : list BaseVar) (out : list FeatureVar) :
  loop_invariant self available_vars features available out ->
  let cs := _get_constructable_features features available in
  let available' := available ++ map fvar cs in
  let features' :=
    List.filter (fun f => forallb (fun a => negb (var_eq (fvar f) a)) available')
                features in
  loop_invariant self available_vars features' available' (out ++ cs).
Proof.
  intros [Hav Hy Hf Hc Hfresh] cs available' features'.
  assert (forall f, f ∈ cs -> f ∈ features /\ is_loadable f available = true) as Hcs.
  { intros f Hin. by apply filter_elem in Hin. }
  split.
  - subst available' available. by rewrite map_app, app_assoc.
  - intros i f Hi. apply lookup_app_Some in Hi as [Hi|[Hge Hi]].
    + destruct (Hy i f Hi) as [Hself Hreq]. split; [done|].
      intros v Hv. destruct (Hreq v Hv) as [?|(j & g & Hj & Hg & Hn)]; [by left|].
      right. exists j, g. split; [done|]. split; [|done].
      by apply lookup_app_l_Some.
    + assert (f ∈ cs) as Hin by (by eapply list_elem_of_lookup_2).
      destruct (Hcs f Hin) as [Hfeat Hload]. split; [by apply Hf|].
      intros v Hv. destruct (is_loadable_spec f available Hload v Hv) as (x & Hx & Hn).
      rewrite Hav in Hx. apply elem_of_app in Hx as [Hx|Hx]; [left; eauto|].
      right. apply list_elem_of_fmap in Hx as (g & -> & Hg).
      apply list_elem_of_lookup in Hg as [j Hj].
      exists j, g. split; [|split; [by apply lookup_app_l_Some|done]].
      apply lookup_lt_Some in Hj. lia.
  - intros f Hin. apply filter_elem in Hin as [Hin _]. by apply Hf.
  - intros f Hself.
    destruct (forallb (fun a => negb (var_eq (fvar f) a)) available') eqn:Hall.
    + destruct (Hc f Hself) as [Hin|(a & Ha & Heq)].
      * left. by apply filter_elem.
      * right. exists a. split; [|done]. apply elem_of_app. by left.
    + right. apply forallb_false_elem in Hall as (a & Ha & Heq).
      exists a. split; [done|]. by apply negb_false_iff in Heq.
  - intros f Hin Hout. apply filter_elem in Hin as [Hin Hall].
    rewrite forallb_forall in Hall.
    apply elem_of_app in Hout as [Hout|Hout]; [by apply (Hfresh f)|].
    assert (In (fvar f) available') as Ha.
    { apply list_elem_of_In. subst available'. apply elem_of_app. right.
      apply list_elem_of_fmap. by exists f. }
    specialize (Hall _ Ha). by rewrite var_eq_refl in Hall.
Qed.

(** The loop ends within as many passes as there are features to build, plus
    one, and ends in a state where nothing more is constructable. *)
Lemma while_constructables_ends (self : list FeatureVar) (available_vars : list BaseVar)
    (passes : nat) :
  forall features available out,
    loop_invariant self available_vars features available out ->
    (length features < passes)%nat ->
    exists features' out',
      while_constructables passes features available
        (_get_constructable_features features available) out
      = Some (features', out')
      /\ loop_invariant self available_vars features'
           (available_vars ++ map fvar out') out'
      /\ _get_constructable_features features' (available_vars ++ map fvar out') = [].
Proof.
  induction passes as [|passes IH]; intros features available out Hinv Hlen; [lia|].
  destruct (_get_constructable_features features available) as [|c cs] eqn:Hcs.
  - exists features, out. simpl. split; [reflexivity|].
    rewrite <- (inv_available _ _ _ _ _ Hinv). by split.
  - cbn [while_constructables]. rewrite yield_all_app. cbn [fst snd].
    pose proof (loop_invariant_step _ _ _ _ _ Hinv) as Hstep.
    cbv zeta in Hstep. rewrite Hcs in Hstep.
    apply IH; [exact Hstep|].
    assert (c ∈ features /\ is_loadable c available = true) as [Hc _].
    { apply (proj1 (filter_elem (fun f => is_loadable f available) features c)).
      unfold _get_constructable_features in Hcs. rewrite Hcs. left. }
    assert (length (List.filter
              (fun f => forallb (fun a => negb (var_eq (fvar f) a))
                          (available ++ map fvar (c :: cs))) features)
            < length features)%nat as Hlt; [|lia].
    apply (filter_length_lt _ _ c Hc).
    destruct (forallb _ _) eqn:Hall; [|reflexivity].
    rewrite forallb_forall in Hall.
    assert (In (fvar c) (available ++ map fvar (c :: cs))) as Hin.
    { apply in_or_app. right. simpl. by left. }
    specialize (Hall _ Hin). by rewrite var_eq_refl in Hall.
Qed.

Lemma loop_invariant_init (self : list FeatureVar) (available_vars : list BaseVar) :
  loop_invariant self available_vars self available_vars [].
Proof.
  split.
  - simpl. by rewrite app_nil_r.
  - intros i f Hi. by rewrite lookup_nil in Hi.
  - done.
  - intros f Hf. by left.
  - intros f _ Hf. by apply elem_of_nil in Hf.
Qed.



End FeatureFacts.


Example iter_cycle_raises :
  FeatureVariablesSet.iter_constructables_features
    [cyclic_F2; cyclic_F3] [var_A; var_B; var_C]
  = Some {| FeatureVariablesSet.yielded := [];
            FeatureVariablesSet.raised :=
              Some (FeatureConstructionError ["F2_[f]"; "F3_[f]"]) |}.
Proof. vm_compute. reflexivity. Qed.



(** ** Interpolation of a profile at the depth of an observation *)

Section InterpolationFacts.
Import Interpolation.
Variable interp1d : string -> list cell -> list (list cell) -> cell -> result (list cell).

Lemma series_get_row_to_series (cols : list string) (r : Row) (x : string) :
  x ∈ cols -> series_get (row_to_series cols r) x = Ok (row_get r x).
Proof.
  intros Hin. unfold series_get, row_to_series.
  induction cols as [|c cols IH]; [by apply elem_of_nil in Hin|].
  simpl. destruct (decide (c = x)) as [->|Hne]; [reflexivity|].
  apply elem_of_cons in Hin as [->|Hin]; [done|].
  specialize (IH Hin).
  destruct (list_find (fun p : string * cell => p.1 = x)
              (map (fun c0 => (c0, row_get r c0)) cols)) as [[i p]|]; simpl in *;
    [done|discriminate].
Qed.

(** A profile of one row is handed over as a Series, and the branch of a
    missing observation depth reads its columns: whatever the interpolation
    function, the call raises. *)
Lemma interpolate_one_row_nan (self : Interpolator) (row_name : cell)
    (row : Series) (ir : cell * Row) :
  List.filter (fun jr => bool_decide (jr.1 = row_name)) (rows (data (_storer self)))
  = [ir] ->
  _x self ∈ columns (data (_storer self)) ->
  series_get row (_x self) = Ok NaN ->
  interpolate interp1d self row_name row
  = Raise (AttributeError "'Series' object has no attribute 'columns'").
Proof.
  intros Hone Hx Hdepth. unfold interpolate, loc_label.
  rewrite Hone. cbn [mbind result_bind]. rewrite Hdepth. cbn [mbind result_bind].
  unfold slice_column. rewrite (series_get_row_to_series _ _ _ Hx).
  reflexivity.
Qed.

(** *** Profiles of several rows *)

Lemma series_get_cons (l k : string) (c : cell) (s : Series) :
  series_get ((l, c) :: s) k = if decide (l = k) then Ok c else series_get s k.
Proof.
  unfold series_get. simpl. destruct (decide (l = k)); [reflexivity|].
  by destruct (list_find (fun p : string * cell => p.1 = k) s) as [[i p]|].
Qed.

Lemma series_get_set (s : Series) (l k : string) (v : cell) :
  series_get (series_set s l v) k
  = if decide (l = k) then Ok v else series_get s k.
Proof.
  induction s as [|[l' c] s IH]; simpl.
  - rewrite series_get_cons. by destruct (decide (l = k)).
  - destruct (decide (l' = l)) as [->|Hne]; rewrite !series_get_cons.
    + by destruct (decide (l = k)).
    + rewrite IH. destruct (decide (l' = k)) as [->|]; [|reflexivity].
      by rewrite decide_False by done.
Qed.

Lemma series_get_app (s1 s2 : Series) (k : string) :
  series_get (s1 ++ s2) k
  = match series_get s1 k with Ok v => Ok v | Raise _ => series_get s2 k end.
Proof.
  induction s1 as [|[l c] s1 IH]; simpl; [reflexivity|].
  rewrite !series_get_cons. by destruct (decide (l = k)).
Qed.

Lemma series_get_missing (labels : list string) (v : string -> cell) (k : string) :
  k ∉ labels -> series_get (map (fun c => (c, v c)) labels) k = Raise (KeyError k).
Proof.
  induction labels as [|c labels IH]; intros Hk; [reflexivity|].
  simpl. rewrite series_get_cons, decide_False.
  - apply IH. intros H. apply Hk. by right.
  - intros ->. apply Hk. left.
Qed.

Lemma series_get_present (labels : list string) (v : string -> cell) (k : string) :
  k ∈ labels -> series_get (map (fun c => (c, v c)) labels) k = Ok (v k).
Proof.
  induction labels as [|c labels IH]; intros Hk; [by apply elem_of_nil in Hk|].
  simpl. rewrite series_get_cons. destruct (decide (c = k)) as [->|Hne]; [done|].
  apply IH. by apply elem_of_cons in Hk as [->|Hk].
Qed.

Lemma series_take_map (s : Series) (labels : list string) (v : string -> cell) :
  (forall c, c ∈ labels -> series_get s c = Ok (v c)) ->
  series_take s labels = Ok (map (fun c => (c, v c)) labels).
Proof.
  induction labels as [|c labels IH]; intros Hget; simpl; [reflexivity|].
  rewrite (Hget c) by left. cbn [mbind result_bind].
  rewrite IH by (intros k Hk; apply Hget; by right). reflexivity.
Qed.

(** A missing observation depth on a frame: missing values in the columns to
    interpolate, the values of the first row in the others, and the missing
    depth in the depth column. *)
Lemma handle_nan_depth_frame (self : Interpolator) (df : DataFrame)
    (obs_depth : cell) (first : cell * Row) (rest : list (cell * Row)) :
  rows df = first :: rest ->
  _columns_order self = columns df ->
  _handle_nan_depth self (SliceFrame df) obs_depth
  = Ok (map (fun c => (c, if decide (_x self = c) then obs_depth
                          else if decide (c ∈ _ys self) then NaN
                          else row_get first.2 c))
            (columns df)).
Proof.
  intros Hrows Horder. unfold _handle_nan_depth, _get_columns_to_interp,
    _get_constant_columns, iloc. cbn [slice_columns mbind result_bind rows columns].
  rewrite Hrows. cbn [lookup list_lookup mbind result_bind]. rewrite Horder.
  apply series_take_map. intros c Hc.
  rewrite series_get_set. destruct (decide (_x self = c)); [reflexivity|].
  rewrite series_get_app. unfold row_to_series.
  destruct (decide (c ∈ _ys self)) as [Hys|Hys].
  - rewrite series_get_missing.
    + rewrite (series_get_present _ (fun _ => NaN)); [reflexivity|].
      apply filter_elem. split; [done|]. by apply bool_decide_eq_true.
    + intros Hin. apply filter_elem in Hin as [_ Hin].
      apply negb_true_iff, bool_decide_eq_false in Hin. done.
  - rewrite (series_get_present _ (fun c => row_get first.2 c)); [reflexivity|].
    apply filter_elem. split; [done|].
    by apply negb_true_iff, bool_decide_eq_false.
Qed.

Lemma series_max_elem (l : list cell) (m : Z) :
  series_max l = Num m -> Num m ∈ l.
Proof.
  unfold series_max.
  assert (forall acc,
            foldl (fun acc v => match acc, v with
                                | NaN, _ => v
                                | _, NaN => acc
                                | Num a, Num b => Num (Z.max a b)
                                end) acc l = Num m ->
            acc = Num m \/ Num m ∈ l) as H.
  { induction l as [|v l IH]; intros acc Hf; simpl in Hf; [by left|].
    destruct (IH _ Hf) as [Hacc|Hin]; [|right; by right].
    destruct acc as [|a], v as [|b]; simpl in Hacc; try discriminate.
    - right. rewrite Hacc. left.
    - by left.
    - injection Hacc as Hacc.
      destruct (Z.max_spec a b) as [[_ Hm]|[_ Hm]]; rewrite Hm in Hacc; subst.
      + right. left.
      + by left. }
  intros Hm. by destruct (H NaN Hm).
Qed.

Lemma series_min_elem (l : list cell) (m : Z) :
  series_min l = Num m -> Num m ∈ l.
Proof.
  unfold series_min.
  assert (forall acc,
            foldl (fun acc v => match acc, v with
                                | NaN, _ => v
                                | _, NaN => acc
                                | Num a, Num b => Num (Z.min a b)
                                end) acc l = Num m ->
            acc = Num m \/ Num m ∈ l) as H.
  { induction l as [|v l IH]; intros acc Hf; simpl in Hf; [by left|].
    destruct (IH _ Hf) as [Hacc|Hin]; [|right; by right].
    destruct acc as [|a], v as [|b]; simpl in Hacc; try discriminate.
    - right. rewrite Hacc. left.
    - by left.
    - injection Hacc as Hacc.
      destruct (Z.min_spec a b) as [[_ Hm]|[_ Hm]]; rewrite Hm in Hacc; subst.
      + by left.
      + right. left. }
  intros Hm. by destruct (H NaN Hm).
Qed.

Lemma series_max_upper (l : list cell) (m z : Z) :
  series_max l = Num m -> Num z ∈ l -> (z <= m)%Z.
Proof.
  unfold series_max.
  assert (forall acc,
            foldl (fun acc v => match acc, v with
                                | NaN, _ => v
                                | _, NaN => acc
                                | Num a, Num b => Num (Z.max a b)
                                end) acc l = Num m ->
            (forall a, acc = Num a -> (a <= m)%Z)
            /\ (forall z, Num z ∈ l -> (z <= m)%Z)) as H.
  { induction l as [|v l IH]; intros acc Hf; simpl in Hf.
    - split; [intros a Ha; rewrite Ha in Hf; injection Hf; lia|].
      intros y Hy. by apply elem_of_nil in Hy.
    - destruct (IH _ Hf) as [Hacc Hl]. split.
      + intros a ->. destruct v as [|b]; [by apply Hacc|].
        specialize (Hacc _ eq_refl). lia.
      + intros y [Hy|Hy]%elem_of_cons; [|by apply Hl]. subst v.
        destruct acc as [|a]; [by apply Hacc|].
        specialize (Hacc _ eq_refl). lia. }
  intros Hm. by apply (H NaN Hm).
Qed.

Lemma series_min_lower (l : list cell) (m z : Z) :
  series_min l = Num m -> Num z ∈ l -> (m <= z)%Z.
Proof.
  unfold series_min.
  assert (forall acc,
            foldl (fun acc v => match acc, v with
                                | NaN, _ => v
                                | _, NaN => acc
                                | Num a, Num b => Num (Z.min a b)
                                end) acc l = Num m ->
            (forall a, acc = Num a -> (m <= a)%Z)
            /\ (forall z, Num z ∈ l -> (m <= z)%Z)) as H.
  { induction l as [|v l IH]; intros acc Hf; simpl in Hf.
    - split; [intros a Ha; rewrite Ha in Hf; injection Hf; lia|].
      intros y Hy. by apply elem_of_nil in Hy.
    - destruct (IH _ Hf) as [Hacc Hl]. split.
      + intros a ->. destruct v as [|b]; [by apply Hacc|].
        specialize (Hacc _ eq_refl). lia.
      + intros y [Hy|Hy]%elem_of_cons; [|by apply Hl]. subst v.
        destruct acc as [|a]; [by apply Hacc|].
        specialize (Hacc _ eq_refl). lia. }
  intros Hm. by apply (H NaN Hm).
Qed.

Lemma position_of_elem (m : Z) (l : list cell) :
  Num m ∈ l -> exists i, position_of (Num m) l = Ok i /\ l !! i = Some (Num m).
Proof.
  intros Hin. unfold position_of.
  destruct (list_find_elem_of (fun v => v = Num m) l (Num m) Hin eq_refl)
    as [[i v] Hfind].
  rewrite Hfind. apply list_find_Some in Hfind as (Hi & -> & _). eauto.
Qed.

(** An observation deeper than the profile on a frame, in the sense of the
    values compared: the row that holds the maximum of the depth column, with
    the observation depth in the depth column. *)
Lemma handle_outbound_max_frame (self : Interpolator) (df : DataFrame)
    (obs_depth : cell) (m : Z) :
  _columns_order self = columns df ->
  _x self ∈ columns df ->
  series_max (map (fun ir => row_get ir.2 (_x self)) (rows df)) = Num m ->
  exists ir,
    ir ∈ rows df /\ row_get ir.2 (_x self) = Num m
    /\ _handle_outbound_max self (SliceFrame df) obs_depth
       = Ok (map (fun c => (c, if decide (_x self = c) then obs_depth
                               else row_get ir.2 c))
                 (columns df)).
Proof.
  intros Horder Hx Hmax. unfold _handle_outbound_max.
  rewrite (get_column_Ok _ _ Hx). cbn [mbind result_bind].
  unfold series_argmax. rewrite Hmax.
  destruct (position_of_elem m _ (series_max_elem _ _ Hmax)) as (i & -> & Hi).
  cbn [mbind result_bind].
  rewrite list_lookup_fmap in Hi.
  destruct (rows df !! i) as [ir|] eqn:Hrow; [|discriminate].
  simpl in Hi. injection Hi as Hdepth.
  exists ir. split; [by eapply list_elem_of_lookup_2|]. split; [done|].
  unfold iloc. rewrite Hrow. cbn [mbind result_bind]. rewrite Horder.
  apply series_take_map. intros c Hc. rewrite series_get_set.
  destruct (decide (_x self = c)); [reflexivity|].
  by apply series_get_row_to_series.
Qed.

Lemma handle_outbound_min_frame (self : Interpolator) (df : DataFrame)
    (obs_depth : cell) (m : Z) :
  _columns_order self = columns df ->
  _x self ∈ columns df ->
  series_min (map (fun ir => row_get ir.2 (_x self)) (rows df)) = Num m ->
  exists ir,
    ir ∈ rows df /\ row_get ir.2 (_x self) = Num m
    /\ _handle_outbound_min self (SliceFrame df) obs_depth
       = Ok (map (fun c => (c, if decide (_x self = c) then obs_depth
                               else row_get ir.2 c))
                 (columns df)).
Proof.
  intros Horder Hx Hmin. unfold _handle_outbound_min.
  rewrite (get_column_Ok _ _ Hx). cbn [mbind result_bind].
  unfold series_argmin. rewrite Hmin.
  destruct (position_of_elem m _ (series_min_elem _ _ Hmin)) as (i & -> & Hi).
  cbn [mbind result_bind].
  rewrite list_lookup_fmap in Hi.
  destruct (rows df !! i) as [ir|] eqn:Hrow; [|discriminate].
  simpl in Hi. injection Hi as Hdepth.
  exists ir. split; [by eapply list_elem_of_lookup_2|]. split; [done|].
  unfold iloc. rewrite Hrow. cbn [mbind result_bind]. rewrite Horder.
  apply series_take_map. intros c Hc. rewrite series_get_set.
  destruct (decide (_x self = c)); [reflexivity|].
  by apply series_get_row_to_series.
Qed.

(** The four branches of [interpolate] on a profile of two rows or more. *)
Lemma interpolate_profile (self : Interpolator) (row_name obs_depth : cell)
    (row : Series) (r1 r2 : cell * Row) (rs : list (cell * Row)) :
  List.filter (fun jr => bool_decide (jr.1 = row_name)) (rows (data (_storer self)))
  = r1 :: r2 :: rs ->
  _columns_order self = columns (data (_storer self)) ->
  _x self ∈ columns (data (_storer self)) ->
  series_get row (_x self) = Ok obs_depth ->
  let profile := {| columns := columns (data (_storer self));
                    rows := r1 :: r2 :: rs |} in
  let depths := map (fun ir => row_get ir.2 (_x self)) (r1 :: r2 :: rs) in
  (obs_depth = NaN ->
   interpolate interp1d self row_name row
   = Ok (map (fun c => (c, if decide (_x self = c) then NaN
                           else if decide (c ∈ _ys self) then NaN
                           else row_get r1.2 c))
             (columns profile)))
  /\ (cell_gt obs_depth (series_max depths) = true ->
      exists ir,
        ir ∈ rows profile /\ row_get ir.2 (_x self) = series_max depths
        /\ interpolate interp1d self row_name row
           = Ok (map (fun c => (c, if decide (_x self = c) then obs_depth
                                   else row_get ir.2 c))
                     (columns profile)))
  /\ (cell_gt obs_depth (series_max depths) = false ->
      cell_lt obs_depth (series_min depths) = true ->
      exists ir,
        ir ∈ rows profile /\ row_get ir.2 (_x self) = series_min depths
        /\ interpolate interp1d self row_name row
           = Ok (map (fun c => (c, if decide (_x self = c) then obs_depth
                                   else row_get ir.2 c))
                     (columns profile)))
  /\ (is_nan obs_depth = false ->
      cell_gt obs_depth (series_max depths) = false ->
      cell_lt obs_depth (series_min depths) = false ->
      interpolate interp1d self row_name row
      = _interpolate interp1d self (SliceFrame profile) obs_depth).
Proof.
  intros Hslice Horder Hx Hdepth profile depths.
  assert (forall k : result Series -> Prop,
            k (if is_nan obs_depth then _handle_nan_depth self (SliceFrame profile) obs_depth
               else if cell_gt obs_depth (series_max depths)
               then _handle_outbound_max self (SliceFrame profile) obs_depth
               else if cell_lt obs_depth (series_min depths)
               then _handle_outbound_min self (SliceFrame profile) obs_depth
               else _interpolate interp1d self (SliceFrame profile) obs_depth) ->
            k (interpolate interp1d self row_name row)) as Hbranch.
  { intros k Hk. unfold interpolate, loc_label. rewrite Hslice.
    cbn [mbind result_bind]. rewrite Hdepth. cbn [mbind result_bind slice_column].
    fold profile. rewrite (get_column_Ok profile _ Hx). exact Hk. }
  repeat split.
  - intros ->. apply Hbranch. cbn [is_nan].
    rewrite (handle_nan_depth_frame self profile NaN r1 (r2 :: rs)); done.
  - intros Hgt. destruct obs_depth as [|z]; [discriminate|].
    destruct (series_max depths) as [|m] eqn:Hmax; [discriminate|].
    destruct (handle_outbound_max_frame self profile (Num z) m Horder Hx Hmax)
      as (ir & Hin & Hm & Hres).
    exists ir. split; [done|]. split; [done|].
    apply Hbranch. cbn [is_nan]. rewrite ?Hmax, Hgt. exact Hres.
  - intros Hgt Hlt. destruct obs_depth as [|z]; [discriminate|].
    destruct (series_min depths) as [|m] eqn:Hmin; [discriminate|].
    destruct (handle_outbound_min_frame self profile (Num z) m Horder Hx Hmin)
      as (ir & Hin & Hm & Hres).
    exists ir. split; [done|]. split; [done|].
    apply Hbranch. cbn [is_nan]. rewrite Hgt, ?Hmin, Hlt. exact Hres.
  - intros Hnan Hgt Hlt. apply Hbranch. by rewrite Hnan, Hgt, Hlt.
Qed.

End InterpolationFacts.

(** Property P6 on the profile of three levels: below the deepest level the
    row of -20 comes back with the depth -30; above the shallowest one the
    row of -5 with the depth -2; with a missing depth the temperature is
    missing and the date is the one of the first level. *)
Example interpolate_below_profile :
  Interpolation.interpolate interp_at_levels depth_interpolator (Num 10)
    [("DEPH", Num (-30)); ("TEMP", Num 5)]
  = Ok [("DATE", Num 20); ("DEPH", Num (-30)); ("TEMP", Num 4)].
Proof. vm_compute. reflexivity. Qed.

Example interpolate_above_profile :
  Interpolation.interpolate interp_at_levels depth_interpolator (Num 10)
    [("DEPH", Num (-2)); ("TEMP", Num 5)]
  = Ok [("DATE", Num 20); ("DEPH", Num (-2)); ("TEMP", Num 8)].
Proof. vm_compute. reflexivity. Qed.

Example interpolate_missing_depth :
  Interpolation.interpolate interp_at_levels depth_interpolator (Num 10)
    [("DEPH", NaN); ("TEMP", Num 5)]
  = Ok [("DATE", Num 20); ("DEPH", NaN); ("TEMP", NaN)].
Proof. vm_compute. reflexivity. Qed.

Example interpolate_inside_profile :
  Interpolation.interpolate interp_at_levels depth_interpolator (Num 10)
    [("DEPH", Num (-10)); ("TEMP", Num 5)]
  = Ok [("DATE", Num 20); ("DEPH", Num (-10)); ("TEMP", Num 6)].
Proof. vm_compute. reflexivity. Qed.

(** On the profile of one level the two out-of-bound branches answer, as
    they test for a Series. *)
Example interpolate_one_row_below :
  Interpolation.interpolate interp_at_levels depth_interpolator (Num 11)
    [("DEPH", Num (-30)); ("TEMP", Num 5)]
  = Ok [("DATE", Num 21); ("DEPH", Num (-30)); ("TEMP", Num 9)].
Proof. vm_compute. reflexivity. Qed.

(** C2, at a failing input.  Observation 11 has a missing depth and its
    profile has one level: instead of the row with a missing temperature,
    the date of the profile and the missing depth, the call raises an
    [AttributeError], whatever the interpolation function. *)
Theorem interpolate_one_row_missing_depth_fails
    (interp1d : string -> list cell -> list (list cell) -> cell -> result (list cell)) :
  Interpolation.interpolate interp1d depth_interpolator (Num 11)
    [("DEPH", NaN); ("TEMP", Num 5)]
  = Raise (AttributeError "'Series' object has no attribute 'columns'").
Proof.
  apply (interpolate_one_row_nan interp1d depth_interpolator (Num 11) _
           (Num 11, {[ "DATE" := Num 21; "DEPH" := Num (-5); "TEMP" := Num 9 ]})).
  - vm_compute. reflexivity.
  - vm_compute. right. left.
  - reflexivity.
Qed.

(** The same profile at the depth of its only level: the interpolation
    branch reads the columns of the Series too. *)
Example interpolate_one_row_at_level :
  Interpolation.interpolate interp_at_levels depth_interpolator (Num 11)
    [("DEPH", Num (-5)); ("TEMP", Num 5)]
  = Raise (AttributeError "'Series' object has no attribute 'columns'").
Proof. vm_compute. reflexivity. Qed.

(** ** Constraints: registration, composition and errors *)

Lemma dict_get_set_eq {V : Type} (k : string) (v : V) (d : dict V) :
  dict_get (dict_set k v d) k = Some v.
Proof.
  induction d as [|[k' v'] d IH]; simpl.
  - by rewrite decide_True.
  - destruct (decide (k' = k)) as [->|Hne]; simpl.
    + by rewrite decide_True.
    + by rewrite decide_False.
Qed.

Lemma dict_get_set_ne {V : Type} (k k' : string) (v : V) (d : dict V) :
  k <> k' -> dict_get (dict_set k v d) k' = dict_get d k'.
Proof.
  intros Hne. induction d as [|[k0 v0] d IH]; simpl.
  - by rewrite decide_False.
  - destruct (decide (k0 = k)) as [->|Hne0]; simpl.
    + by rewrite !decide_False.
    + destruct (decide (k0 = k')); [reflexivity|exact IH].
Qed.

Lemma dict_set_set {V : Type} (k : string) (v v' : V) (d : dict V) :
  dict_set k v' (dict_set k v d) = dict_set k v' d.
Proof.
  induction d as [|[k0 v0] d IH]; simpl.
  - by rewrite decide_True.
  - destruct (decide (k0 = k)) as [->|Hne]; simpl.
    + by rewrite decide_True.
    + by rewrite decide_False, IH.
Qed.

Lemma filter_filter {A : Type} (p q : A -> bool) (l : list A) :
  List.filter p (List.filter q l) = List.filter (fun x => q x && p x) l.
Proof.
  induction l as [|x l IH]; simpl; [reflexivity|].
  destruct (q x); simpl; [destruct (p x)|]; by rewrite IH.
Qed.

Lemma get_column_missing (df : DataFrame) (l : string) :
  l ∉ columns df -> get_column df l = Raise (KeyError l).
Proof. intros Hl. unfold get_column. by rewrite decide_False. Qed.

(** A loop whose body returns on the good items and raises on the others
    raises on the first item that is not good. *)
Lemma fold_result_all_good {A B : Type} (f : A -> B -> result A)
    (good : B -> Prop) (l : list B) :
  (forall a b, b ∈ l -> good b -> exists a', f a b = Ok a') ->
  Forall good l ->
  forall a, exists a', fold_result f a l = Ok a'.
Proof.
  induction l as [|b l IH]; intros Hgood Hall a; simpl; [eauto|].
  apply Forall_cons in Hall as [Hb Hall].
  destruct (Hgood a b) as [a' ->]; [left|done|]. simpl.
  apply IH; [|done]. intros a0 b0 Hin. apply Hgood. by right.
Qed.

Lemma fold_result_first_bad {A B : Type} (f : A -> B -> result A)
    (good : B -> Prop) `{forall b, Decision (good b)} (err : B -> exn) (l : list B) :
  (forall a b, b ∈ l -> good b -> exists a', f a b = Ok a') ->
  (forall a b, b ∈ l -> ~ good b -> f a b = Raise (err b)) ->
  ~ Forall good l ->
  forall a, exists b, b ∈ l /\ ~ good b /\ fold_result f a l = Raise (err b).
Proof.
  induction l as [|b l IH]; intros Hgood Hbad Hnot a; simpl.
  - exfalso. apply Hnot. constructor.
  - destruct (decide (good b)) as [Hb|Hb].
    + destruct (Hgood a b) as [a' ->]; [left|done|]. simpl.
      destruct (IH (fun a0 b0 Hin => Hgood a0 b0 (list_elem_of_further _ _ _ Hin))
                   (fun a0 b0 Hin => Hbad a0 b0 (list_elem_of_further _ _ _ Hin)))
        with (a := a') as (b' & Hin & Hb' & Hf).
      { intros Hall. apply Hnot. by constructor. }
      exists b'. split; [by right|done].
    + exists b. split; [left|]. split; [done|].
      by rewrite (Hbad a b) by (done || left).
Qed.

Section FilteringMore.
Import Filtering.
Context {Polygon : Type}.
Variable within : cell -> cell -> Polygon -> bool.

Local Abbreviation Constraints := (@Filtering.Constraints Polygon).

(** X1. [apply_specific_constraint] on a field that has no superset
    constraint.  On a frame without columns it raises an [IndexError],
    whether the field has a boundary constraint or not.  On a frame that has
    a column: for a field without constraint it returns the frame as it is,
    be the field a column of the frame or not; for a field with a boundary
    constraint it keeps the rows within the bounds of that field and looks
    at no other constraint, polygons included, when the field is a column of
    the frame, and raises the [KeyError] of the field when it is not. *)
Theorem apply_specific_constraint_boundary (c : Constraints) (field : string)
    (df : DataFrame) :
  dict_get (supersets c) field = None ->
  (forall b, dict_get (boundaries c) field = Some b ->
     columns df <> [] ->
     field ∈ columns df ->
     apply_specific_constraint within c field df
     = Ok {| columns := columns df;
             rows := List.filter (fun ir => boundary_holds ir.2 (field, b)) (rows df) |})
  /\ (dict_get (boundaries c) field = None ->
      columns df <> [] ->
      apply_specific_constraint within c field df = Ok df)
  /\ (columns df = [] ->
      apply_specific_constraint within c field df = Raise IndexError)
  /\ (forall b, dict_get (boundaries c) field = Some b ->
        is_nan b.1 && is_nan b.2 = false ->
        columns df <> [] ->
        field ∉ columns df ->
        apply_specific_constraint within c field df = Raise (KeyError field)).
Proof.
  intros Hsup. unfold apply_specific_constraint.
  rewrite (dict_in_None _ _ Hsup). split; [|split; [|split]].
  - intros [lo hi] Hb Hcols Hfield. rewrite (dict_in_Some _ _ _ Hb), Hb.
    change (call_add_boundary_constraint Constraints_init _)
      with (Ok (add_boundary_constraint (@Constraints_init Polygon) field lo hi)).
    cbn [mbind result_bind].
    rewrite apply_constraints_filter; [|done| |].
    + do 2 f_equal. apply filter_ext. intros ir.
      unfold add_boundary_constraint, all_predicates_hold, boundary_holds.
      destruct lo, hi; simpl; by rewrite ?andb_true_r.
    + intros item Hin. unfold add_boundary_constraint in Hin.
      destruct (negb _); simpl in Hin; by apply elem_of_nil in Hin.
    + intros l Hin. unfold add_boundary_constraint, constrained_labels in Hin.
      destruct (negb _); simpl in Hin.
      * by apply list_elem_of_singleton in Hin as ->.
      * by apply elem_of_nil in Hin.
  - intros Hb Hcols. rewrite (dict_in_None _ _ Hb). cbn [mbind result_bind].
    rewrite apply_constraints_filter; [|done| |].
    + destruct df as [cols rs]. simpl. do 2 f_equal. by apply filter_all_true.
    + intros item Hin. by apply elem_of_nil in Hin.
    + intros l Hin. by apply elem_of_nil in Hin.
  - intros Hcols.
    assert (forall k : Constraints,
              apply_constraints_to_dataframe within k df = Raise IndexError) as Hraise.
    { intros k. unfold apply_constraints_to_dataframe, _apply_boundary_constraints,
        first_column_shape. by rewrite Hcols. }
    destruct (dict_get (boundaries c) field) as [[lo hi]|] eqn:Hb.
    + rewrite (dict_in_Some _ _ _ Hb).
      change (call_add_boundary_constraint Constraints_init _)
        with (Ok (add_boundary_constraint (@Constraints_init Polygon) field lo hi)).
      cbn [mbind result_bind]. apply Hraise.
    + rewrite (dict_in_None _ _ Hb). cbn [mbind result_bind]. apply Hraise.
  - intros [lo hi] Hb Hnan Hcols Hfield. rewrite (dict_in_Some _ _ _ Hb), Hb.
    change (call_add_boundary_constraint Constraints_init _)
      with (Ok (add_boundary_constraint (@Constraints_init Polygon) field lo hi)).
    cbn [mbind result_bind fst snd] in *.
    unfold add_boundary_constraint. rewrite Hnan. cbn [negb].
    unfold apply_constraints_to_dataframe, _apply_boundary_constraints,
      first_column_shape.
    destruct (columns df) as [|c0 cols] eqn:Hc; [done|].
    unfold Constraints_init, boundary_step.
    cbn [mbind result_bind boundaries dict_set fold_result fst snd].
    rewrite (get_column_missing df field) by (by rewrite Hc).
    reflexivity.
Qed.

(** X2. Applying the same constraints to their own result changes nothing. *)
Theorem apply_constraints_idempotent (c : Constraints) (df : DataFrame) :
  registered c ->
  columns df <> [] ->
  (forall l, l ∈ constrained_labels c -> l ∈ columns df) ->
  exists df',
    apply_constraints_to_dataframe within c df = Ok df'
    /\ apply_constraints_to_dataframe within c df' = Ok df'.
Proof.
  intros Hreg Hcols Hlabels.
  pose proof (registered_supersets_nonempty c Hreg) as Hne.
  eexists. split; [by apply apply_constraints_filter|].
  rewrite apply_constraints_filter; [|done..]. simpl. do 2 f_equal.
  rewrite filter_filter. apply filter_ext. intros ir. by rewrite andb_diag.
Qed.

(** X3. A boundary registered on a field is the one read back for that
    field, whatever was there before, and the other fields, the supersets
    and the polygons are as they were; with both bounds missing nothing is
    registered. *)
Theorem add_boundary_constraint_lookup (c : Constraints) (field : string)
    (lo hi : cell) :
  (is_nan lo && is_nan hi = false ->
   dict_get (boundaries (add_boundary_constraint c field lo hi)) field = Some (lo, hi)
   /\ is_constrained (add_boundary_constraint c field lo hi) field = true
   /\ (forall other, field <> other ->
         get_constraint_parameters (add_boundary_constraint c field lo hi) other
         = get_constraint_parameters c other)
   /\ supersets (add_boundary_constraint c field lo hi) = supersets c
   /\ polygons (add_boundary_constraint c field lo hi) = polygons c)
  /\ (is_nan lo && is_nan hi = true -> add_boundary_constraint c field lo hi = c).
Proof.
  unfold add_boundary_constraint. split; intros Hnan; rewrite Hnan; simpl; [|done].
  repeat split.
  - apply dict_get_set_eq.
  - unfold is_constrained. simpl.
    by rewrite (dict_in_Some _ _ _ (dict_get_set_eq field (lo, hi) (boundaries c))).
  - intros other Hne. unfold get_constraint_parameters. simpl.
    by rewrite dict_get_set_ne.
Qed.

(** X4. A superset registered on a field is the one read back for that
    field, and nothing else changes; an empty or absent list of values
    registers nothing. *)
Theorem add_superset_constraint_lookup (c : Constraints) (field : string) :
  (forall v vs,
     dict_get (supersets (add_superset_constraint c field (Some (v :: vs)))) field
     = Some (v :: vs)
     /\ (forall other, field <> other ->
           get_constraint_parameters
             (add_superset_constraint c field (Some (v :: vs))) other
           = get_constraint_parameters c other)
     /\ boundaries (add_superset_constraint c field (Some (v :: vs))) = boundaries c
     /\ polygons (add_superset_constraint c field (Some (v :: vs))) = polygons c)
  /\ add_superset_constraint c field (Some []) = c
  /\ add_superset_constraint c field None = c.
Proof.
  unfold add_superset_constraint. repeat split; simpl.
  - apply dict_get_set_eq.
  - intros other Hne. unfold get_constraint_parameters. simpl.
    by rewrite dict_get_set_ne.
Qed.

(** X5. Boundaries on one field do not add up: a second registration with a
    bound replaces the first, as if the first had not been made. *)
Theorem add_boundary_constraint_replaces (c : Constraints) (field : string)
    (lo hi lo' hi' : cell) :
  is_nan lo' && is_nan hi' = false ->
  add_boundary_constraint (add_boundary_constraint c field lo hi) field lo' hi'
  = add_boundary_constraint c field lo' hi'.
Proof.
  intros Hnan. unfold add_boundary_constraint. rewrite Hnan. simpl.
  destruct (negb (is_nan lo && is_nan hi)); simpl; [|reflexivity].
  by rewrite dict_set_set.
Qed.

(** X6. Each polygon narrows the selection: with one more polygon
    registered, the result is the former result cut down to the rows whose
    point lies in the new polygon. *)
Theorem add_polygon_constraint_refines (c : Constraints) (df : DataFrame)
    (lat lon : string) (poly : Polygon) :
  registered c ->
  columns df <> [] ->
  (forall l, l ∈ constrained_labels c -> l ∈ columns df) ->
  lat ∈ columns df -> lon ∈ columns df ->
  exists df',
    apply_constraints_to_dataframe within c df = Ok df'
    /\ apply_constraints_to_dataframe within (add_polygon_constraint c lat lon poly) df
       = Ok {| columns := columns df';
               rows := List.filter
                         (fun ir => within (row_get ir.2 lon) (row_get ir.2 lat) poly)
                         (rows df') |}.
Proof.
  intros Hreg Hcols Hlabels Hlat Hlon.
  pose proof (registered_supersets_nonempty c Hreg) as Hne.
  eexists. split; [by apply apply_constraints_filter|].
  rewrite apply_constraints_filter; [|done|done|].
  - simpl. do 2 f_equal. rewrite filter_filter. apply filter_ext. intros ir.
    unfold all_predicates_hold. simpl. rewrite forallb_app. simpl.
    unfold polygon_holds at 2. simpl. by rewrite andb_true_r, !andb_assoc.
  - intros l Hin. unfold constrained_labels in Hin. simpl in Hin.
    rewrite flat_map_app in Hin. simpl in Hin.
    rewrite !elem_of_app in Hin.
    destruct Hin as [?|[?|[?|Hin]]];
      [apply Hlabels; unfold constrained_labels; rewrite !elem_of_app; auto..|].
    apply elem_of_cons in Hin as [->|Hin]; [done|].
    apply elem_of_cons in Hin as [->|Hin]; [done|].
    by apply elem_of_nil in Hin.
Qed.

Lemma boundaries_raise_or_return (c : Constraints) (df : DataFrame) :
  columns df <> [] ->
  (exists mask, _apply_boundary_constraints c df = Ok mask)
  \/ (exists l, l ∈ (boundaries c).*1 /\ (l ∉ columns df)
                /\ _apply_boundary_constraints c df = Raise (KeyError l)).
Proof.
  intros Hcols. unfold _apply_boundary_constraints.
  rewrite (first_column_shape_Ok _ Hcols). cbn [mbind result_bind].
  set (good := fun item : string * (cell * cell) => item.1 ∈ columns df).
  assert (forall a b, b ∈ boundaries c -> good b ->
            exists a', boundary_step df a b = Ok a') as Hgood.
  { intros a b _ Hb. unfold boundary_step. rewrite (get_column_Ok _ _ Hb).
    cbn [mbind result_bind]. destruct (is_nan b.2.1 && is_nan b.2.2); eauto. }
  destruct (decide (Forall good (boundaries c))) as [Hall|Hnot].
  - left. by apply (fold_result_all_good _ good).
  - right.
    destruct (fold_result_first_bad (boundary_step df) good
                (fun item => KeyError item.1) (boundaries c) Hgood)
      with (a := replicate (length (rows df)) true) as (b & Hin & Hb & Hf);
      [|done|].
    + intros a b _ Hb. unfold boundary_step. by rewrite (get_column_missing _ _ Hb).
    + exists b.1. split; [|done]. apply list_elem_of_fmap. by exists b.
Qed.

Lemma supersets_raise_or_return (c : Constraints) (df : DataFrame) :
  columns df <> [] ->
  (forall item, item ∈ supersets c -> item.2 <> []) ->
  (exists mask, _apply_superset_constraints c df = Ok mask)
  \/ (exists l, l ∈ (supersets c).*1 /\ (l ∉ columns df)
                /\ _apply_superset_constraints c df = Raise (KeyError l)).
Proof.
  intros Hcols Hne. unfold _apply_superset_constraints.
  rewrite (first_column_shape_Ok _ Hcols). cbn [mbind result_bind].
  set (good := fun item : string * list cell => item.1 ∈ columns df).
  assert (forall a b, b ∈ supersets c -> good b ->
            exists a', superset_step df a b = Ok a') as Hgood.
  { intros a [l vs] Hin Hb. unfold good in Hb. unfold superset_step.
    specialize (Hne _ Hin). simpl in *. destruct vs as [|v vs]; [done|].
    cbn [truthy fst snd]. rewrite (get_column_Ok _ _ Hb).
    cbn [mbind result_bind]. eauto. }
  destruct (decide (Forall good (supersets c))) as [Hall|Hnot].
  - left.
    destruct (fold_result_all_good _ good _ Hgood Hall
                (replicate (length (rows df)) true, None)) as [a' ->].
    cbn [mbind result_bind]. eauto.
  - right.
    destruct (fold_result_first_bad (superset_step df) good
                (fun item => KeyError item.1) (supersets c) Hgood)
      with (a := (replicate (length (rows df)) true, @None (list bool)))
      as (b & Hin & Hb & Hf); [|done|].
    + intros a [l vs] Hin Hb. unfold good in Hb. unfold superset_step.
      specialize (Hne _ Hin). simpl in *. destruct vs as [|v vs]; [done|].
      cbn [truthy fst snd]. by rewrite (get_column_missing _ _ Hb).
    + exists b.1. split; [apply list_elem_of_fmap; by exists b|].
      split; [done|]. by rewrite Hf.
Qed.

Lemma polygons_raise_or_return (c : Constraints) (df : DataFrame) :
  columns df <> [] ->
  (exists mask, _apply_polygon_constraints within c df = Ok mask)
  \/ (exists l,
        l ∈ flat_map (fun p => [longitude_field p; latitude_field p]) (polygons c)
        /\ (l ∉ columns df)
        /\ _apply_polygon_constraints within c df = Raise (KeyError l)).
Proof.
  intros Hcols. unfold _apply_polygon_constraints.
  rewrite (first_column_shape_Ok _ Hcols). cbn [mbind result_bind].
  set (good := fun p : @PolygonConstraint Polygon =>
                 longitude_field p ∈ columns df /\ latitude_field p ∈ columns df).
  assert (forall a b, b ∈ polygons c -> good b ->
            exists a', polygon_step within df a b = Ok a') as Hgood.
  { intros a b _ [Hlon Hlat]. unfold polygon_step.
    rewrite (get_column_Ok _ _ Hlon). cbn [mbind result_bind].
    rewrite (get_column_Ok _ _ Hlat). cbn [mbind result_bind]. eauto. }
  destruct (decide (Forall good (polygons c))) as [Hall|Hnot].
  - left. by apply (fold_result_all_good _ good).
  - right.
    destruct (fold_result_first_bad (polygon_step within df) good
                (fun p => KeyError (if decide (longitude_field p ∈ columns df)
                                    then latitude_field p else longitude_field p))
                (polygons c) Hgood)
      with (a := replicate (length (rows df)) true) as (b & Hin & Hb & Hf);
      [|done|].
    + intros a b _ Hb. unfold polygon_step.
      destruct (decide (longitude_field b ∈ columns df)) as [Hlon|Hlon].
      * rewrite (get_column_Ok _ _ Hlon). cbn [mbind result_bind].
        rewrite get_column_missing; [done|]. intros Hlat. apply Hb. by split.
      * by rewrite (get_column_missing _ _ Hlon).
    + eexists. split; [|split; [|exact Hf]].
      * apply list_elem_of_In, in_flat_map. exists b.
        split; [by apply list_elem_of_In|]. simpl.
        destruct (decide _); auto.
      * destruct (decide (longitude_field b ∈ columns df)) as [Hlon|Hlon]; [|done].
        intros Hlat. apply Hb. by split.
Qed.

(** X7. On a frame without columns the selection raises an [IndexError],
    even with no constraint registered; on a frame that lacks a constrained
    column it raises the [KeyError] of a missing constrained column. *)
Theorem apply_constraints_errors (c : Constraints) (df : DataFrame) :
  (columns df = [] ->
   apply_constraints_to_dataframe within c df = Raise IndexError)
  /\ (registered c ->
      columns df <> [] ->
      ~ (forall l, l ∈ constrained_labels c -> l ∈ columns df) ->
      exists l,
        l ∈ constrained_labels c /\ (l ∉ columns df)
        /\ apply_constraints_to_dataframe within c df = Raise (KeyError l)).
Proof.
  split.
  - intros Hcols. unfold apply_constraints_to_dataframe,
      _apply_boundary_constraints, first_column_shape. by rewrite Hcols.
  - intros Hreg Hcols Hmissing.
    pose proof (registered_supersets_nonempty c Hreg) as Hne.
    unfold apply_constraints_to_dataframe, constrained_labels.
    destruct (boundaries_raise_or_return c df Hcols)
      as [[mb Hb]|(l & Hin & Hl & Hb)]; rewrite Hb; cbn [mbind result_bind];
      [|exists l; rewrite !elem_of_app; auto].
    destruct (supersets_raise_or_return c df Hcols Hne)
      as [[ms Hs]|(l & Hin & Hl & Hs)]; rewrite Hs; cbn [mbind result_bind];
      [|exists l; rewrite !elem_of_app; auto].
    destruct (polygons_raise_or_return c df Hcols)
      as [[mp Hp]|(l & Hin & Hl & Hp)]; rewrite Hp; cbn [mbind result_bind];
      [|exists l; rewrite !elem_of_app; auto].
    exfalso. apply Hmissing. intros l Hin.
    destruct (decide (l ∈ columns df)) as [|Hl]; [done|]. exfalso.
    unfold constrained_labels in Hin. rewrite !elem_of_app in Hin.
    destruct Hin as [Hin|[Hin|Hin]].
    + unfold _apply_boundary_constraints in Hb.
      rewrite (first_column_shape_Ok _ Hcols) in Hb. cbn [mbind result_bind] in Hb.
      destruct (fold_result_first_bad (boundary_step df)
                  (fun item => item.1 ∈ columns df)
                  (fun item => KeyError item.1) (boundaries c))
        with (a := replicate (length (rows df)) true) as (b & _ & _ & Hf).
      * intros a b _ Hgood. unfold boundary_step.
        rewrite (get_column_Ok _ _ Hgood). cbn [mbind result_bind].
        destruct (is_nan b.2.1 && is_nan b.2.2); eauto.
      * intros a b _ Hbad. unfold boundary_step.
        by rewrite (get_column_missing _ _ Hbad).
      * intros Hall. apply list_elem_of_fmap in Hin as (item & -> & Hitem).
        rewrite Forall_forall in Hall. by apply Hl, Hall.
      * congruence.
    + unfold _apply_superset_constraints in Hs.
      rewrite (first_column_shape_Ok _ Hcols) in Hs. cbn [mbind result_bind] in Hs.
      destruct (fold_result_first_bad (superset_step df)
                  (fun item => item.1 ∈ columns df)
                  (fun item => KeyError item.1) (supersets c))
        with (a := (replicate (length (rows df)) true, @None (list bool)))
        as (b & _ & _ & Hf).
      * intros a [k vs] Hk Hgood. unfold superset_step.
        specialize (Hne _ Hk). simpl in *. destruct vs as [|v vs]; [done|].
        cbn [truthy fst snd]. rewrite (get_column_Ok _ _ Hgood).
        cbn [mbind result_bind]. eauto.
      * intros a [k vs] Hk Hbad. unfold superset_step.
        specialize (Hne _ Hk). simpl in *. destruct vs as [|v vs]; [done|].
        cbn [truthy fst snd]. by rewrite (get_column_missing _ _ Hbad).
      * intros Hall. apply list_elem_of_fmap in Hin as (item & -> & Hitem).
        rewrite Forall_forall in Hall. by apply Hl, Hall.
      * rewrite Hf in Hs. discriminate.
    + unfold _apply_polygon_constraints in Hp.
      rewrite (first_column_shape_Ok _ Hcols) in Hp. cbn [mbind result_bind] in Hp.
      apply list_elem_of_In, in_flat_map in Hin as (p & Hpin & Hlp).
      apply list_elem_of_In in Hpin.
      destruct (fold_result_first_bad (polygon_step within df)
                  (fun p => longitude_field p ∈ columns df
                            /\ latitude_field p ∈ columns df)
                  (fun p => KeyError (if decide (longitude_field p ∈ columns df)
                                      then latitude_field p else longitude_field p))
                  (polygons c))
        with (a := replicate (length (rows df)) true) as (b & _ & _ & Hf).
      * intros a b _ [Hlon Hlat]. unfold polygon_step.
        rewrite (get_column_Ok _ _ Hlon). cbn [mbind result_bind].
        rewrite (get_column_Ok _ _ Hlat). cbn [mbind result_bind]. eauto.
      * intros a b _ Hbad. unfold polygon_step.
        destruct (decide (longitude_field b ∈ columns df)) as [Hlon|Hlon].
        -- rewrite (get_column_Ok _ _ Hlon). cbn [mbind result_bind].
           rewrite get_column_missing; [done|]. intros Hlat. apply Hbad. by split.
        -- by rewrite (get_column_missing _ _ Hlon).
      * intros Hall. rewrite Forall_forall in Hall.
        destruct (Hall p Hpin) as [Hlon Hlat].
        simpl in Hlp. destruct Hlp as [<-|[<-|[]]]; done.
      * congruence.
Qed.

End FilteringMore.

Lemma apply_specific_constraint_boundary_witness :
  Filtering.apply_specific_constraint in_rectangle constraints_deep "DEPH" stations
  = Ok {| columns := ["LONGITUDE"; "LATITUDE"; "DEPH"];
          rows := [(Num 1, {[ "LONGITUDE" := Num 40; "LATITUDE" := Num 70; "DEPH" := Num 500 ]});
                   (Num 2, {[ "LONGITUDE" := Num 8; "LATITUDE" := Num 62; "DEPH" := Num 900 ]})] |}.
Proof.
  destruct (apply_specific_constraint_boundary in_rectangle constraints_deep
              "DEPH" stations) as [H _].
  - reflexivity.
  - rewrite (H (Num 100, NaN)).
    + vm_compute. reflexivity.
    + reflexivity.
    + discriminate.
    + vm_compute. right. right. left.
Defined.

Lemma constrained_labels_A (l : string) :
  l ∈ Filtering.constrained_labels constraints_A -> l ∈ columns table_A.
Proof.
  intros Hin. vm_compute in Hin. vm_compute.
  apply elem_of_cons in Hin as [->|Hin]; [left|].
  apply elem_of_cons in Hin as [->|Hin]; [left|].
  by apply elem_of_nil in Hin.
Qed.

Lemma registered_constraints_A : Filtering.registered constraints_A.
Proof. unfold constraints_A. do 2 constructor. constructor. Qed.

Lemma apply_constraints_idempotent_witness :
  exists df',
    Filtering.apply_constraints_to_dataframe in_rectangle constraints_A table_A = Ok df'
    /\ Filtering.apply_constraints_to_dataframe in_rectangle constraints_A df' = Ok df'.
Proof.
  apply apply_constraints_idempotent.
  - exact registered_constraints_A.
  - discriminate.
  - exact constrained_labels_A.
Defined.

Lemma add_boundary_constraint_lookup_witness :
  dict_get (Filtering.boundaries
              (Filtering.add_boundary_constraint constraints_A "A" NaN (Num 4))) "A"
  = Some (NaN, Num 4).
Proof.
  destruct (add_boundary_constraint_lookup constraints_A "A" NaN (Num 4)) as [H _].
  by destruct H as [H _].
Defined.

Lemma add_superset_constraint_lookup_witness :
  Filtering.get_constraint_parameters
    (Filtering.add_superset_constraint constraints_A "B" (Some [Num 1; Num 2])) "A"
  = Filtering.get_constraint_parameters constraints_A "A".
Proof.
  destruct (add_superset_constraint_lookup constraints_A "B") as [H _].
  destruct (H (Num 1) [Num 2]) as (_ & Hother & _).
  by apply Hother.
Defined.

Lemma add_boundary_constraint_replaces_witness :
  Filtering.add_boundary_constraint
    (Filtering.add_boundary_constraint (@Filtering.Constraints_init rectangle)
       "A" (Num 2) (Num 8))
    "A" (Num 5) NaN
  = Filtering.add_boundary_constraint Filtering.Constraints_init "A" (Num 5) NaN.
Proof. by apply add_boundary_constraint_replaces. Defined.

Lemma add_polygon_constraint_refines_witness :
  exists df',
    Filtering.apply_constraints_to_dataframe in_rectangle
      (@Filtering.Constraints_init rectangle) stations = Ok df'
    /\ Filtering.apply_constraints_to_dataframe in_rectangle
         (Filtering.add_polygon_constraint Filtering.Constraints_init
            "LATITUDE" "LONGITUDE" north_sea) stations
       = Ok {| columns := columns df';
               rows := List.filter
                         (fun ir => in_rectangle (row_get ir.2 "LONGITUDE")
                                      (row_get ir.2 "LATITUDE") north_sea)
                         (rows df') |}.
Proof.
  apply add_polygon_constraint_refines.
  - constructor.
  - discriminate.
  - intros l Hin. by apply elem_of_nil in Hin.
  - vm_compute. right. left.
  - vm_compute. left.
Defined.

Lemma apply_constraints_errors_witness :
  exists l,
    l ∈ Filtering.constrained_labels constraints_A /\ (l ∉ columns stations)
    /\ Filtering.apply_constraints_to_dataframe in_rectangle constraints_A stations
       = Raise (KeyError l).
Proof.
  destruct (apply_constraints_errors in_rectangle constraints_A stations) as [_ H].
  apply H.
  - exact registered_constraints_A.
  - discriminate.
  - intros Hall. specialize (Hall "A"). vm_compute in Hall.
    assert ("A" ∈ ["LONGITUDE"; "LATITUDE"; "DEPH"]) as Hin by (apply Hall; left).
    repeat (apply elem_of_cons in Hin as [Hin|Hin]; [discriminate|]).
    by apply elem_of_nil in Hin.
Defined.

(** ** Storers: sums and slices *)

Lemma imap_index_seq {A B : Type} (g : nat -> B) (l : list A) :
  imap (fun i _ => g i) l = map g (seq 0 (length l)).
Proof.
  revert g. induction l as [|x l IH]; intros g; [reflexivity|].
  rewrite imap_cons. simpl. f_equal.
  rewrite <- seq_shift, map_map. apply (IH (g ∘ S)).
Qed.

Lemma index_renumber (rs : list (cell * Row)) :
  (renumber rs).*1 = map (fun k => Num (Z.of_nat k)) (seq 0 (length rs)).
Proof.
  unfold renumber. rewrite fmap_imap.
  apply (imap_index_seq (fun k => Num (Z.of_nat k))).
Qed.

(** The storer that an addition of compatible storers returns. *)
Lemma Storer_add_compatible (a b : Storer) :
  VariableSet.eq (variables a) (variables b) = true ->
  category a = category b ->
  Storer_add a (PyStorer b)
  = Ok {| data := {| columns := columns_union [data a; data b];
                     rows := renumber (own_rows (data a) ++ own_rows (data b)) |};
          category := category a;
          providers := list_of_set (providers a ++ providers b);
          variables := variables a |}.
Proof.
  intros Hvars Hcat. unfold Storer_add. rewrite Hvars. cbn [negb].
  rewrite bool_decide_eq_true_2 by done. cbn [negb].
  unfold pd_concat. cbn [mbind result_bind map concat]. by rewrite app_nil_r.
Qed.

(** X8. The sum of two compatible storers is numbered anew: its index runs
    from 0 to the number of rows minus one, whatever the index labels of the
    two storers, and its columns are those of the first storer followed by
    the columns that only the second has. *)
Theorem Storer_add_renumbers (a b : Storer) :
  VariableSet.eq (variables a) (variables b) = true ->
  category a = category b ->
  exists s,
    Storer_add a (PyStorer b) = Ok s
    /\ index (data s)
       = map (fun k => Num (Z.of_nat k))
             (seq 0 (length (rows (data a)) + length (rows (data b))))
    /\ columns (data s)
       = columns (data a)
         ++ List.filter (fun c => bool_decide (c ∉ columns (data a))) (columns (data b)).
Proof.
  intros Hvars Hcat. eexists. split; [by apply Storer_add_compatible|].
  simpl. split.
  - unfold index. simpl. rewrite index_renumber.
    by rewrite List.length_app, !length_own_rows.
  - unfold columns_union. simpl.
    by rewrite (filter_all_true (fun _ : string => true)) by done.
Qed.

Lemma sum_from_storer (s0 : Storer) (rest : list Storer) :
  Forall (fun s => VariableSet.eq (variables s0) (variables s) = true
                   /\ category s0 = category s) rest ->
  forall a,
    variables a = variables s0 -> category a = category s0 ->
    exists s,
      fold_result add_step (PyStorer a) rest = Ok (PyStorer s)
      /\ length (rows (data s))
         = (length (rows (data a))
            + sum_list (map (fun t => length (rows (data t))) rest))%nat
      /\ variables s = variables s0
      /\ category s = category s0
      /\ (forall p, p ∈ providers s <->
            p ∈ providers a \/ exists t, t ∈ rest /\ p ∈ providers t).
Proof.
  induction 1 as [|t rest [Hvars Hcat] _ IH]; intros a Hva Hca;
    cbn [fold_result add_step sum_list map].
  - exists a. split; [done|]. split; [lia|]. split; [done|]. split; [done|].
    intros p. split; [by left|]. intros [?|(t & Ht & _)]; [done|].
    by apply elem_of_nil in Ht.
  - rewrite Storer_add_compatible by congruence. cbn [mbind result_bind].
    edestruct IH as (s & -> & Hlen & Hv & Hc & Hp); [done..|].
    exists s. split; [done|]. cbn [data rows] in Hlen. split.
    + rewrite Hlen, length_renumber, List.length_app, !length_own_rows.
      unfold id. lia.
    + split; [done|]. split; [done|]. intros p. rewrite Hp. cbn [providers].
      unfold list_of_set. rewrite elem_of_elements, elem_of_list_to_set, elem_of_app.
      split.
      * intros [[?|?]|(u & Hu & Hpu)]; [by left|right; exists t|right; exists u];
          (split; [|done]); [left|by right].
      * intros [?|(u & Hu & Hpu)]; [by left; left|].
        apply elem_of_cons in Hu as [->|Hu]; [by left; right|].
        right. by exists u.
Qed.

(** X9. [sum] over the storers of a source: without storer the result is the
    integer 0, not a storer; with one storer it is that storer, index
    unchanged; with compatible storers it is a storer with the variables and
    category of the first, as many rows as all of them together, and the
    providers of all of them. *)
Theorem sum_storers_result :
  sum_storers [] = Ok (PyInt 0)
  /\ (forall s, sum_storers [s] = Ok (PyStorer s))
  /\ (forall s0 rest,
        Forall (fun s => VariableSet.eq (variables s0) (variables s) = true
                         /\ category s0 = category s) rest ->
        exists s,
          sum_storers (s0 :: rest) = Ok (PyStorer s)
          /\ length (rows (data s))
             = sum_list (map (fun t => length (rows (data t))) (s0 :: rest))
          /\ variables s = variables s0
          /\ category s = category s0
          /\ (forall p, p ∈ providers s <->
                exists t, t ∈ s0 :: rest /\ p ∈ providers t)).
Proof.
  split; [reflexivity|]. split; [reflexivity|].
  intros s0 rest Hall. unfold sum_storers. simpl.
  destruct (sum_from_storer s0 rest Hall s0 eq_refl eq_refl)
    as (s & -> & Hlen & Hv & Hc & Hp).
  exists s. repeat split; try done.
  - intros Hin. apply Hp in Hin as [?|(t & Ht & Hpt)].
    + exists s0. split; [left|done].
    + exists t. split; [by right|done].
  - intros (t & Ht & Hpt). apply Hp.
    apply elem_of_cons in Ht as [->|Ht]; [by left|]. right. by exists t.
Qed.

Lemma select_mask_maps {A B : Type} (f : A -> bool) (g : A -> B) (l : list A) :
  select_mask (map f l) (map g l) = map g (List.filter f l).
Proof.
  induction l as [|x l IH]; simpl; [reflexivity|].
  destruct (f x); simpl; by rewrite IH.
Qed.

Lemma filter_label_of_member (rs : list (cell * Row)) (ir : cell * Row) :
  NoDup rs.*1 -> ir ∈ rs ->
  List.filter (fun jr => bool_decide (jr.1 = ir.1)) rs = [ir].
Proof.
  intros Hnd Hin.
  destruct (filter_index_singleton rs ir.1 Hnd) as (r & _ & Hf).
  { apply list_elem_of_fmap. by exists ir. }
  rewrite Hf. f_equal.
  assert (ir ∈ List.filter (fun jr => bool_decide (jr.1 = ir.1)) rs) as Hir.
  { apply filter_elem. split; [done|]. by apply bool_decide_eq_true. }
  rewrite Hf in Hir. by apply list_elem_of_singleton in Hir.
Qed.

(** With distinct index labels, selecting by the labels of some rows of the
    frame gives these rows back. *)
Lemma loc_labels_of_rows (df : DataFrame) (sub : list (cell * Row)) :
  NoDup (index df) ->
  (forall ir, ir ∈ sub -> ir ∈ rows df) ->
  loc_labels df sub.*1 = Ok {| columns := columns df; rows := sub |}.
Proof.
  intros Hnd Hsub. unfold loc_labels.
  assert (List.filter (fun l => negb (bool_decide (l ∈ index df))) sub.*1 = []) as ->.
  { induction sub as [|ir sub IH]; [reflexivity|]. simpl.
    rewrite bool_decide_eq_true_2.
    - apply IH. intros jr Hjr. apply Hsub. by right.
    - apply list_elem_of_fmap. exists ir. split; [done|]. apply Hsub. left. }
  do 2 f_equal.
  induction sub as [|ir sub IH]; [reflexivity|]. simpl.
  rewrite (filter_label_of_member _ ir Hnd) by (apply Hsub; left).
  simpl. f_equal. apply IH. intros jr Hjr. apply Hsub. by right.
Qed.

(** X10. On a storer whose index labels are distinct, the data of the slice
    that [slice_on_dates] returns are the rows whose date lies between the
    start date and the end date, both included, in the order of the
    storer. *)
Theorem slice_on_dates_data (self : Storer) (date_var_name : string)
    (drng : Series) (start_date end_date : cell) (date_var : BaseVar) :
  NoDup (index (data self)) ->
  series_get drng "start_date" = Ok start_date ->
  series_get drng "end_date" = Ok end_date ->
  VariableSet.get (variables self) date_var_name = Ok date_var ->
  label date_var ∈ columns (data self) ->
  exists sl,
    slice_on_dates self date_var_name drng = Ok sl
    /\ slice_storer sl = self
    /\ Slice_data sl
       = Ok {| columns := columns (data self);
               rows := List.filter
                         (fun ir => cell_ge (row_get ir.2 (label date_var)) start_date
                                    && cell_le (row_get ir.2 (label date_var)) end_date)
                         (rows (data self)) |}.
Proof.
  intros Hnd Hstart Hend Hvar Hcol. unfold slice_on_dates.
  rewrite Hstart, Hend, Hvar. cbn [mbind result_bind].
  rewrite (get_column_Ok _ _ Hcol). cbn [mbind result_bind].
  eexists. split; [reflexivity|]. split; [reflexivity|].
  unfold Slice_data. cbn [slice_storer slice_index].
  rewrite !map_map, mask_and_map. unfold index at 1.
  rewrite (select_mask_maps
             (fun ir : cell * Row =>
                cell_ge (row_get ir.2 (label date_var)) start_date
                && cell_le (row_get ir.2 (label date_var)) end_date) fst).
  apply loc_labels_of_rows; [done|].
  intros ir Hin. by apply filter_elem in Hin as [Hin _].
Qed.

(** X11. [slice_using_index] raises a [KeyError] as soon as one of the
    labels is not in the index of the storer, and keeps category, providers
    and variables otherwise. *)
Theorem slice_using_index_labels (self : Storer) (labels : list cell) :
  ((exists l, l ∈ labels /\ l ∉ index (data self)) ->
   exists msg, slice_using_index self labels = Raise (KeyError msg))
  /\ ((forall l, l ∈ labels -> l ∈ index (data self)) ->
      exists s,
        slice_using_index self labels = Ok s
        /\ category s = category self
        /\ providers s = providers self
        /\ variables s = variables self
        /\ columns (data s) = columns (data self)
        /\ (forall ir, ir ∈ rows (data s) <->
              ir ∈ rows (data self) /\ ir.1 ∈ labels)).
Proof.
  unfold slice_using_index, loc_labels. split.
  - intros (l & Hl & Hmiss).
    destruct (List.filter _ labels) as [|m ms] eqn:Hf; [|simpl; eauto].
    exfalso.
    assert (l ∈ List.filter (fun l => negb (bool_decide (l ∈ index (data self)))) labels)
      as Hin.
    { apply filter_elem. split; [done|]. by rewrite bool_decide_eq_false_2. }
    rewrite Hf in Hin. by apply elem_of_nil in Hin.
  - intros Hall.
    assert (List.filter (fun l => negb (bool_decide (l ∈ index (data self)))) labels
            = []) as ->.
    { induction labels as [|l labels IH]; [reflexivity|]. simpl.
      rewrite bool_decide_eq_true_2 by (apply Hall; left).
      apply IH. intros k Hk. apply Hall. by right. }
    cbn [mbind result_bind]. eexists. split; [reflexivity|]. simpl.
    do 4 (split; [done|]). intros ir. split.
    + intros Hin. apply list_elem_of_In, in_flat_map in Hin as (l & Hl & Hin).
      apply list_elem_of_In, filter_elem in Hin as [Hin Heq].
      apply bool_decide_eq_true in Heq. split; [done|].
      rewrite Heq. by apply list_elem_of_In.
    + intros [Hin Hl]. apply list_elem_of_In, in_flat_map. exists ir.1.
      split; [by apply list_elem_of_In|]. apply list_elem_of_In, filter_elem.
      split; [done|]. by apply bool_decide_eq_true.
Qed.

(** ** Variable sets: names, additions and removals *)

Lemma mapper_by_name_snoc (l : VariableSet.t) (v : BaseVar) :
  VariableSet.mapper_by_name (l ++ [v])
  = <[name v := v]> (VariableSet.mapper_by_name l).
Proof. unfold VariableSet.mapper_by_name. by rewrite foldl_app. Qed.

(** The names that the mapping knows are the names of the elements. *)
Lemma mapper_by_name_dom (l : VariableSet.t) (k : string) :
  k ∈ dom (VariableSet.mapper_by_name l) <-> k ∈ map name l.
Proof.
  induction l as [|v l IH] using rev_ind.
  - unfold VariableSet.mapper_by_name. simpl. rewrite dom_empty_L. set_solver.
  - rewrite mapper_by_name_snoc, dom_insert_L, map_app. simpl.
    rewrite elem_of_app, elem_of_union, IH, elem_of_singleton, list_elem_of_singleton.
    tauto.
Qed.

Lemma has_name_elem (l : VariableSet.t) (k : string) :
  VariableSet.has_name l k = true <-> exists v, v ∈ l /\ name v = k.
Proof.
  unfold VariableSet.has_name. rewrite bool_decide_eq_true, mapper_by_name_dom.
  rewrite list_elem_of_fmap. split; intros (v & H1 & H2); exists v; done.
Qed.

(** With distinct names, the mapping sends a name to the element that bears
    it. *)
Lemma mapper_by_name_lookup (l : VariableSet.t) (k : string) (v : BaseVar) :
  NoDup (map name l) ->
  VariableSet.mapper_by_name l !! k = Some v <-> v ∈ l /\ name v = k.
Proof.
  induction l as [|x l IH] using rev_ind; intros Hnd.
  - unfold VariableSet.mapper_by_name. simpl. rewrite lookup_empty.
    split; [done|]. intros [H _]. by apply elem_of_nil in H.
  - rewrite map_app in Hnd. apply NoDup_app in Hnd as (Hnd & Hdisj & _).
    rewrite mapper_by_name_snoc, elem_of_app, list_elem_of_singleton.
    destruct (decide (name x = k)) as [<-|Hne].
    + rewrite lookup_insert_eq. split.
      * intros [= <-]. split; [by right|done].
      * intros [[Hin| ->] Hname]; [|done]. exfalso.
        apply (Hdisj (name x)); [|left].
        rewrite <- Hname. apply list_elem_of_fmap. by exists v.
    + rewrite lookup_insert_ne by done. rewrite (IH Hnd). split.
      * intros [Hin Hname]. split; [by left|done].
      * intros [[Hin| ->] Hname]; [done|]. by destruct Hne.
Qed.

Lemma get_snoc (l : VariableSet.t) (v : BaseVar) :
  VariableSet.get (l ++ [v]) (name v) = Ok v.
Proof.
  unfold VariableSet.get. by rewrite mapper_by_name_snoc, lookup_insert_eq.
Qed.

Lemma filter_all_true_on {A : Type} (f : A -> bool) (l : list A) :
  (forall x, x ∈ l -> f x = true) -> List.filter f l = l.
Proof.
  induction l as [|x l IH]; intros Hf; simpl; [reflexivity|].
  rewrite Hf by left. f_equal. apply IH. intros y Hy. apply Hf. by right.
Qed.

(** X12. A variable whose name is new is appended by [add_var], and [pop] of
    that name gives back the variable and the set as it was; a variable whose
    name is taken is refused with the duplicated-name error. *)
Theorem add_var_then_pop (self : VariableSet.t) (var : BaseVar) :
  (VariableSet.has_name self (name var) = false ->
   VariableSet_add_var self var = Returns (self ++ [var])
   /\ VariableSet_pop (self ++ [var]) (name var) = Ok (var, self))
  /\ (VariableSet.has_name self (name var) = true ->
      VariableSet_add_var self var
      = Fails (DuplicatedVariableNameError "A variable already exists with his name")).
Proof.
  unfold VariableSet_add_var. split; intros Hname; rewrite Hname; [|done].
  split; [done|]. unfold VariableSet_pop. rewrite get_snoc.
  cbn [mbind result_bind]. do 2 f_equal.
  rewrite List.filter_app. simpl. rewrite bool_decide_eq_true_2 by done. simpl.
  rewrite app_nil_r. apply filter_all_true_on. intros e He.
  apply negb_true_iff, bool_decide_eq_false. intros Heq.
  assert (VariableSet.has_name self (name var) = true) as Habs; [|congruence].
  apply has_name_elem. by exists e.
Qed.

(** X13. The equality of variable sets does not look at the order of the
    variables: two sets with the same variables, of distinct names, in any
    order, are equal. *)
Theorem VariableSet_eq_permutation (a b : VariableSet.t) :
  NoDup (map name a) ->
  a ≡ₚ b ->
  VariableSet.eq a b = true.
Proof.
  intros Hnd Hperm.
  assert (NoDup (map name b)) as Hndb by (by rewrite <- Hperm).
  assert (VariableSet.mapper_by_name a = VariableSet.mapper_by_name b) as Hmap.
  { apply map_eq. intros k. apply option_eq. intros v.
    rewrite !mapper_by_name_lookup by done. by rewrite Hperm. }
  unfold VariableSet.eq. rewrite Hmap, (Permutation_length Hperm).
  rewrite Nat.eqb_refl, bool_decide_eq_true_2 by done. simpl.
  apply forallb_forall. intros k _. by apply bool_decide_eq_true.
Qed.

Lemma has_name_app_l (l l' : VariableSet.t) (k : string) :
  VariableSet.has_name l k = true -> VariableSet.has_name (l ++ l') k = true.
Proof.
  rewrite !has_name_elem. intros (v & Hv & Hn). exists v.
  split; [|done]. apply elem_of_app. by left.
Qed.

(** X14. A set with mandatory variables holds, once built, a variable for
    each of its mandatory names, and [pop] keeps it so: it refuses a
    mandatory name, and otherwise removes the variables of the given name and
    no other.  Positional variables with a repeated name are refused at
    construction. *)
Theorem mandatory_variables_stay
    (expocode date year month day latitude longitude depth : BaseVar)
    (hour provider : option BaseVar) (args kwargs : list BaseVar) :
  (names_distinct args = true ->
   exists s,
     RequiredVarsSet_init expocode date year month day latitude longitude depth
       hour provider args kwargs = Ok s
     /\ mandatory_present s)
  /\ (names_distinct args = false ->
      exists msg,
        RequiredVarsSet_init expocode date year month day latitude longitude depth
          hour provider args kwargs = Raise (ValueError msg))
  /\ (forall s var_name,
        mandatory_present s ->
        (Some var_name ∈ mandatory_variables_names s ->
         exists msg,
           RequiredVarsSet_pop s var_name = Raise (IncorrectVariableNameError msg))
        /\ (forall v s',
              RequiredVarsSet_pop s var_name = Ok (v, s') ->
              mandatory_present s'
              /\ mandatory_variables_names s' = mandatory_variables_names s
              /\ forall e, e ∈ req_elements s' <->
                   e ∈ req_elements s /\ name e <> var_name)).
Proof.
  split; [|split].
  - intros Hdistinct. unfold RequiredVarsSet_init. rewrite Hdistinct. simpl.
    eexists. split; [reflexivity|].
    intros m Hm. unfold mandatory_variables_names in Hm. simpl in Hm.
    apply has_name_app_l. apply has_name_elem.
    repeat (apply elem_of_cons in Hm as [Hm|Hm];
            [destruct provider, hour; simplify_eq/=;
             eexists; (split; [|reflexivity]); set_solver|]).
    by apply elem_of_nil in Hm.
  - intros Hdistinct. unfold RequiredVarsSet_init. rewrite Hdistinct. simpl. eauto.
  - intros s var_name Hpresent. unfold RequiredVarsSet_pop. split.
    + intros Hm. rewrite bool_decide_eq_true_2 by done. eauto.
    + intros v s' Hpop.
      destruct (bool_decide (Some var_name ∈ mandatory_variables_names s)) eqn:Hmand;
        [discriminate|].
      apply bool_decide_eq_false in Hmand.
      unfold VariableSet_pop in Hpop.
      destruct (VariableSet.get (req_elements s) var_name) as [x|]; [|discriminate].
      cbn [mbind result_bind fst snd] in Hpop. injection Hpop as <- <-.
      assert (forall e, e ∈ List.filter
                              (fun e => negb (bool_decide (name e = var_name)))
                              (req_elements s)
                        <-> e ∈ req_elements s /\ name e <> var_name) as Helem.
      { intros e. rewrite filter_elem, negb_true_iff, bool_decide_eq_false. done. }
      split; [|split; [done|exact Helem]].
      intros m Hm. cbn [req_elements with_elements].
      apply has_name_elem.
      destruct (proj1 (has_name_elem _ _) (Hpresent m Hm)) as (e & He & Hn).
      exists e. split; [|done]. apply Helem. split; [done|].
      intros Heq. apply Hmand. by rewrite <- Heq, Hn.
Qed.

(** ** Features: what the iteration yields *)

Section FeatureMore.
Import FeatureVariablesSet.

Lemma is_loadable_intro (f : FeatureVar) (loaded : list BaseVar) :
  (forall v, v ∈ required_vars f -> exists x, x ∈ loaded /\ name x = name v) ->
  is_loadable f loaded = true.
Proof.
  intros H. unfold is_loadable. apply forallb_forall. intros v Hv.
  destruct (H v (proj2 (list_elem_of_In _ _) Hv)) as (x & Hx & Hn).
  apply existsb_exists. exists x. split; [by apply list_elem_of_In|].
  by apply bool_decide_eq_true.
Qed.

(** X15. Whether a feature can be made depends on the names of the loaded
    variables only, and never gets lost with more of them: a feature
    loadable from a list is loadable from any list that has a variable of
    each of its names. *)
Theorem is_loadable_monotone (f : FeatureVar) (loaded loaded' : list BaseVar) :
  is_loadable f loaded = true ->
  (forall x, x ∈ loaded -> exists y, y ∈ loaded' /\ name y = name x) ->
  is_loadable f loaded' = true.
Proof.
  intros Hload Hincl. apply is_loadable_intro. intros v Hv.
  destruct (is_loadable_spec f loaded Hload v Hv) as (x & Hx & Hn).
  destruct (Hincl x Hx) as (y & Hy & Hny). exists y. split; [done|congruence].
Qed.

(** X16. For every set of features and every list of available variables the
    iteration ends, and each feature it yields is a feature of the set that
    is loadable from the available variables and the features yielded before
    it. *)
Theorem iter_yields_loadable_features (self : list FeatureVar)
    (available_vars : list BaseVar) :
  exists it,
    iter_constructables_features self available_vars = Some it
    /\ forall (i : nat) f,
         yielded it !! i = Some f ->
         f ∈ self
         /\ is_loadable f (available_vars ++ map fvar (take i (yielded it))) = true.
Proof.
  unfold iter_constructables_features.
  destruct (while_constructables_ends self available_vars (S (length self))
              self available_vars [] (loop_invariant_init _ _) (Nat.lt_succ_diag_r _))
    as (rest & out & -> & [_ Hy _ _ _] & _).
  eexists. split; [reflexivity|]. simpl. intros i f Hi.
  destruct (Hy i f Hi) as [Hself Hreq]. split; [done|].
  apply is_loadable_intro. intros v Hv.
  destruct (Hreq v Hv) as [(a & Ha & Hn)|(j & g & Hj & Hg & Hn)].
  - exists a. split; [|done]. apply elem_of_app. by left.
  - exists (fvar g). split; [|done]. apply elem_of_app. right.
    apply list_elem_of_fmap. exists g. split; [done|].
    apply list_elem_of_lookup. exists j. by rewrite lookup_take_lt.
Qed.

(** A property of the state of the loop that every pass keeps holds when the
    loop ends. *)
Lemma while_constructables_keeps
    (P : list FeatureVar -> list BaseVar -> list FeatureVar -> Prop) :
  (forall features available out,
     P features available out ->
     let cs := _get_constructable_features features available in
     let available' := available ++ map fvar cs in
     P (List.filter
          (fun f => forallb (fun a => negb (var_eq (fvar f) a)) available')
          features)
       available' (out ++ cs)) ->
  forall passes features available out res,
    P features available out ->
    while_constructables passes features available
      (_get_constructable_features features available) out = Some res ->
    exists available', P res.1 available' res.2.
Proof.
  intros Hstep. induction passes as [|passes IH];
    intros features available out res HP Hres.
  - destruct (_get_constructable_features features available);
      [|discriminate]. simpl in Hres. injection Hres as <-. eauto.
  - destruct (_get_constructable_features features available) as [|c cs] eqn:Hcs.
    + simpl in Hres. injection Hres as <-. eauto.
    + cbn [while_constructables] in Hres. rewrite yield_all_app in Hres.
      cbn [fst snd] in Hres. apply IH in Hres; [done|].
      specialize (Hstep _ _ _ HP). cbv zeta in Hstep. by rewrite Hcs in Hstep.
Qed.

Lemma NoDup_filter_list {A : Type} (p : A -> bool) (l : list A) :
  NoDup l -> NoDup (List.filter p l).
Proof.
  induction 1 as [|x l Hx _ IH]; simpl; [constructor|].
  destruct (p x); [|done]. constructor; [|done].
  intros Hin. apply Hx. by apply filter_elem in Hin as [Hin _].
Qed.

(** X17. A set without repeated feature never yields a feature twice. *)
Theorem iter_yields_once (self : list FeatureVar) (available_vars : list BaseVar) :
  NoDup self ->
  exists it,
    iter_constructables_features self available_vars = Some it
    /\ NoDup (yielded it).
Proof.
  intros Hnd. unfold iter_constructables_features.
  destruct (while_constructables_ends self available_vars (S (length self))
              self available_vars [] (loop_invariant_init _ _) (Nat.lt_succ_diag_r _))
    as (rest & out & Hloop & _ & _).
  rewrite Hloop. eexists. split; [reflexivity|]. simpl.
  destruct (while_constructables_keeps
              (fun features _ out =>
                 NoDup features /\ NoDup out /\ forall f, f ∈ features -> f ∉ out))
    with (passes := S (length self)) (features := self) (available := available_vars)
         (out := @nil FeatureVar) (res := (rest, out))
    as (_ & _ & Hout & _); [| |done|done].
  - intros features available o (Hf & Ho & Hfresh) cs available'.
    assert (forall f, f ∈ cs -> f ∈ features) as Hcs.
    { intros f Hin. by apply filter_elem in Hin as [Hin _]. }
    split; [by apply NoDup_filter_list|]. split.
    + apply NoDup_app. split; [done|]. split; [|by apply NoDup_filter_list].
      intros f Hfo Hfc. by apply (Hfresh f (Hcs f Hfc)).
    + intros f Hin Hout'. apply filter_elem in Hin as [Hin Hall].
      rewrite forallb_forall in Hall.
      apply elem_of_app in Hout' as [Hfo|Hfc]; [by apply (Hfresh f)|].
      assert (In (fvar f) available') as Ha.
      { apply list_elem_of_In. subst available'. apply elem_of_app. right.
        apply list_elem_of_fmap. by exists f. }
      specialize (Hall _ Ha). by rewrite var_eq_refl in Hall.
  - split; [done|]. split; [constructor|]. intros f _ Hf. by apply elem_of_nil in Hf.
Qed.

Lemma filter_all_false_on {A : Type} (f : A -> bool) (l : list A) :
  (forall x, x ∈ l -> f x = false) -> List.filter f l = [].
Proof.
  induction l as [|x l IH]; intros Hf; simpl; [reflexivity|].
  rewrite Hf by left. apply IH. intros y Hy. apply Hf. by right.
Qed.

(** X18. Features that need available variables only are all yielded in one
    pass, in the order of the set, and the iteration ends without error. *)
Theorem iter_one_pass (self : list FeatureVar) (available_vars : list BaseVar) :
  (forall f, f ∈ self -> is_loadable f available_vars = true) ->
  iter_constructables_features self available_vars
  = Some {| yielded := self; raised := None |}.
Proof.
  intros Hload. unfold iter_constructables_features, _get_constructable_features.
  rewrite (filter_all_true_on _ self Hload).
  destruct self as [|f self]; [reflexivity|].
  cbn [while_constructables]. rewrite yield_all_app. cbn [fst snd app].
  rewrite (filter_all_false_on _ (f :: self)).
  - unfold _get_constructable_features. simpl. reflexivity.
  - intros g Hg. apply not_true_iff_false. intros Hall.
    rewrite forallb_forall in Hall.
    assert (In (fvar g) (available_vars ++ map fvar (f :: self))) as Ha.
    { apply in_or_app. right. apply in_map. by apply list_elem_of_In. }
    specialize (Hall _ Ha). by rewrite var_eq_refl in Hall.
Qed.

End FeatureMore.

(** ** Masks over the grid *)

Section MaskFacts.
Import GridMask.

(** X19. [make_empty] never returns a mask: the index it builds has one
    dimension and the mask two, so the shapes differ for every grid and the
    constructor raises the shape error. *)
Theorem make_empty_raises (jdm idm : nat) :
  make_empty jdm idm
  = Fails (IncompatibleMaskShapeError [(jdm * idm)%nat] [jdm; idm]).
Proof.
  unfold make_empty, Mask_init. simpl.
  by rewrite bool_decide_eq_false_2.
Qed.

Lemma select_mask_zip {A B : Type} (m : list bool) (a : list A) (b : list B) :
  zip (select_mask m a) (select_mask m b) = select_mask m (zip a b).
Proof.
  revert a b. induction m as [|x m IH]; intros [|u a] [|v b]; simpl;
    try reflexivity.
  - by destruct x, (select_mask m a).
  - destruct x; simpl; by rewrite IH.
Qed.

Lemma length_select_mask {A B : Type} (m : list bool) (a : list A) (b : list B) :
  length a = length b -> length (select_mask m a) = length (select_mask m b).
Proof.
  revert a b. induction m as [|x m IH]; intros [|u a] [|v b] Hlen; simpl in *;
    try done.
  injection Hlen as Hlen. destruct x; simpl; by rewrite (IH a b).
Qed.

(** X20. A mask applied to an array of the shape of the grid gives one value
    per selected cell, each under the index of its own cell, in the order of
    the cells. *)
Theorem Mask_call_values (mask_2d : ndarray bool) (index_2d data_2d : ndarray cell)
    (m : Mask) :
  Mask_init mask_2d index_2d = Returns m ->
  arr_shape data_2d = arr_shape mask_2d ->
  length (arr_data data_2d) = length (arr_data index_2d) ->
  exists series,
    Mask_call m data_2d = Returns series
    /\ series = select_mask (arr_data mask_2d)
                  (zip (arr_data index_2d) (arr_data data_2d))
    /\ series.*1 = _index m.
Proof.
  intros Hinit Hshape Hlen. unfold Mask_init in Hinit.
  destruct (bool_decide (arr_shape mask_2d = arr_shape index_2d)); [|discriminate].
  simpl in Hinit. injection Hinit as <-. unfold Mask_call. simpl.
  rewrite bool_decide_eq_true_2 by done. simpl.
  rewrite (length_select_mask _ (arr_data data_2d) (arr_data index_2d) Hlen).
  rewrite Nat.eqb_refl. simpl. eexists. split; [reflexivity|].
  split; [apply select_mask_zip|].
  apply fst_zip. by rewrite (length_select_mask _ (arr_data index_2d) (arr_data data_2d)).
Qed.

Lemma select_mask_and_sublist {A : Type} (a b : list bool) (l : list A) :
  sublist (select_mask (mask_and a b) l) (select_mask a l).
Proof.
  unfold mask_and. revert b l. induction a as [|x a IH]; intros [|y b] [|v l];
    simpl; try (by apply sublist_nil_l).
  destruct x, y; simpl.
  - by apply sublist_skip.
  - by apply sublist_cons.
  - done.
  - done.
Qed.

(** X21. Intersecting a mask with an array of another shape raises the shape
    error; with an array of its shape it gives a mask over the same index
    array whose index keeps, in order, some of the labels of the first, the
    cells that the two arrays both select. *)
Theorem intersect_narrows (mask_2d : ndarray bool) (index_2d : ndarray cell)
    (m : Mask) (mask_array : ndarray bool) :
  Mask_init mask_2d index_2d = Returns m ->
  (arr_shape mask_array <> arr_shape mask_2d ->
   intersect m mask_array
   = Fails (IncompatibleMaskShapeError (arr_shape mask_2d) (arr_shape mask_array)))
  /\ (arr_shape mask_array = arr_shape mask_2d ->
      exists m',
        intersect m mask_array = Returns m'
        /\ _index_2d m' = index_2d
        /\ _index m' = select_mask (mask_and (arr_data mask_2d) (arr_data mask_array))
                         (arr_data index_2d)
        /\ sublist (_index m') (_index m)).
Proof.
  intros Hinit. unfold Mask_init in Hinit.
  destruct (bool_decide (arr_shape mask_2d = arr_shape index_2d)) eqn:Hsh;
    [|discriminate].
  apply bool_decide_eq_true in Hsh.
  simpl in Hinit. injection Hinit as <-. unfold intersect. simpl. split.
  - intros Hne. by rewrite bool_decide_eq_false_2.
  - intros Heq. rewrite bool_decide_eq_true_2 by done. simpl.
    unfold Mask_init. simpl. rewrite bool_decide_eq_true_2 by done. simpl.
    eexists. split; [reflexivity|]. simpl. split; [done|]. split; [done|].
    apply select_mask_and_sublist.
Qed.

(** *** The mask of the selected points *)

Lemma length_flat_map_const {A B : Type} (w : nat) (f : A -> list B) (l : list A) :
  (forall x, length (f x) = w) -> length (flat_map f l) = (length l * w)%nat.
Proof.
  intros Hf. induction l as [|x l IH]; simpl; [reflexivity|].
  by rewrite List.length_app, Hf, IH.
Qed.

(** The row and the column of the cell of flat position [k], in the two
    arrays of [np_meshgrid]. *)
Lemma meshgrid_rows_lookup (h w k : nat) :
  (k < h * w)%nat ->
  flat_map (fun y => replicate w y) (seq 0 h) !! k = Some (k / w)%nat.
Proof.
  induction h as [|h IH]; intros Hk; [lia|].
  rewrite seq_S, flat_map_app. simpl. rewrite app_nil_r.
  assert (length (flat_map (fun y => replicate w y) (seq 0 h)) = (h * w)%nat) as Hlen.
  { rewrite (length_flat_map_const w), length_seq; [done|].
    intros y. apply length_replicate. }
  destruct (decide (k < h * w)%nat) as [Hlt|Hge].
  - rewrite lookup_app_l by lia. by apply IH.
  - rewrite lookup_app_r by lia. rewrite Hlen.
    rewrite lookup_replicate_2 by lia. f_equal.
    apply (Nat.div_unique k w h (k - h * w)); lia.
Qed.

Lemma meshgrid_columns_lookup (h w k : nat) :
  (k < h * w)%nat ->
  flat_map (fun _ : nat => seq 0 w) (seq 0 h) !! k = Some (k mod w)%nat.
Proof.
  induction h as [|h IH]; intros Hk; [lia|].
  rewrite seq_S, flat_map_app. simpl. rewrite app_nil_r.
  assert (length (flat_map (fun _ : nat => seq 0 w) (seq 0 h)) = (h * w)%nat) as Hlen.
  { rewrite (length_flat_map_const w), length_seq; [done|].
    intros y. apply length_seq. }
  destruct (decide (k < h * w)%nat) as [Hlt|Hge].
  - rewrite lookup_app_l by lia. by apply IH.
  - rewrite lookup_app_r by lia. rewrite Hlen.
    rewrite lookup_seq_lt by lia. f_equal. simpl.
    apply (Nat.mod_unique k w h (k - h * w)); lia.
Qed.

Lemma label_position_nat (n k : nat) :
  (k < n)%nat -> label_position n (Num (Z.of_nat k)) = Some k.
Proof.
  intros Hk. unfold label_position.
  assert ((0 <=? Z.of_nat k)%Z && (Z.of_nat k <? Z.of_nat n)%Z = true) as ->.
  { apply andb_true_iff. split; [apply Z.leb_le|apply Z.ltb_lt]; lia. }
  by rewrite Nat2Z.id.
Qed.

(** Labels that are positions of the Series select the values at these
    positions. *)
Lemma take_labels_positions {A : Type} (values : list A) (g : nat -> A) (ks : list nat) :
  (forall k, (k < length values)%nat -> values !! k = Some (g k)) ->
  Forall (fun k => (k < length values)%nat) ks ->
  take_labels values (map (fun k => Num (Z.of_nat k)) ks) = Ok (map g ks).
Proof.
  intros Hval Hks. unfold take_labels.
  assert (List.filter
            (fun l => negb (bool_decide (is_Some (label_position (length values) l))))
            (map (fun k => Num (Z.of_nat k)) ks) = []) as ->.
  { induction Hks as [|k ks Hk _ IH]; [reflexivity|]. cbn [map List.filter].
    rewrite (label_position_nat _ _ Hk).
    by rewrite bool_decide_eq_true_2 by eauto. }
  f_equal. induction Hks as [|k ks Hk _ IH]; [reflexivity|].
  cbn [map omap list_omap].
  rewrite (label_position_nat _ _ Hk). cbn [mbind option_bind].
  rewrite (Hval k Hk). by rewrite IH.
Qed.

Lemma foldl_set_true_lookup (ks : list nat) (d : list bool) (p : nat) :
  foldl (fun (d : list bool) k => <[k := true]> d) d ks !! p
  = if bool_decide (p ∈ ks) then (fun _ => true) <$> d !! p else d !! p.
Proof.
  revert d. induction ks as [|k ks IH]; intros d; simpl.
  - reflexivity.
  - rewrite IH. destruct (decide (p = k)) as [->|Hne].
    + rewrite (bool_decide_eq_true_2 (k ∈ k :: ks)) by left.
      destruct (decide (k < length d)%nat) as [Hlt|Hge].
      * rewrite list_lookup_insert_eq by done.
        destruct (lookup_lt_is_Some_2 d k Hlt) as [b ->].
        by destruct (bool_decide (k ∈ ks)).
      * rewrite list_insert_ge by lia.
        rewrite (lookup_ge_None_2 d k) by lia.
        by destruct (bool_decide (k ∈ ks)).
    + rewrite list_lookup_insert_ne by done.
      destruct (decide (p ∈ ks)) as [Hin|Hnin].
      * rewrite (bool_decide_eq_true_2 (p ∈ ks)) by done.
        by rewrite (bool_decide_eq_true_2 (p ∈ k :: ks)) by (by right).
      * rewrite (bool_decide_eq_false_2 (p ∈ ks)) by done.
        rewrite (bool_decide_eq_false_2 (p ∈ k :: ks)); [done|].
        intros [?|?]%elem_of_cons; done.
Qed.

Lemma foldl_set_true (n : nat) (ks : list nat) :
  foldl (fun (d : list bool) k => <[k := true]> d) (replicate n false) ks
  = map (fun p => bool_decide (p ∈ ks)) (seq 0 n).
Proof.
  apply list_eq. intros p. rewrite foldl_set_true_lookup, list_lookup_fmap.
  destruct (decide (p < n)%nat) as [Hlt|Hge].
  - rewrite lookup_replicate_2, lookup_seq_lt by done. simpl.
    by destruct (bool_decide (p ∈ ks)).
  - rewrite (lookup_ge_None_2 (replicate n false)) by (rewrite length_replicate; lia).
    rewrite lookup_seq_ge by lia. simpl. by destruct (bool_decide (p ∈ ks)).
Qed.

Lemma foldl_zip_maps {A B C D : Type} (f : D -> B * C -> D) (g : A -> B) (h : A -> C)
    (d : D) (ks : list A) :
  foldl f d (zip (map g ks) (map h ks)) = foldl (fun d k => f d (g k, h k)) d ks.
Proof.
  revert d. induction ks as [|k ks IH]; intros d; simpl; [reflexivity|]. apply IH.
Qed.

(** X22. When every chosen flat index is a cell of the grid, [select] returns
    the links of the observations as they are and a mask whose index holds
    exactly the chosen flat indexes, each once, in increasing order. *)
Theorem select_marks_chosen_cells (jdm idm : nat) (index : list (cell * cell))
    (ks : list nat) :
  index.*2 = map (fun k => Num (Z.of_nat k)) ks ->
  Forall (fun k => (k < jdm * idm)%nat) ks ->
  exists m,
    select jdm idm index = Returns (m, Matching.Match_init index)
    /\ _index m
       = map (fun k => Num (Z.of_nat k))
             (List.filter (fun p => bool_decide (p ∈ ks)) (seq 0 (jdm * idm)))
    /\ NoDup (_index m)
    /\ (forall l, l ∈ _index m <-> l ∈ index.*2).
Proof.
  intros Hindex Hks. unfold select, np_meshgrid. cbn [fst snd arr_data].
  rewrite Hindex.
  assert (length (flat_map (fun y => replicate (length (seq 0 idm)) y) (seq 0 jdm))
          = (jdm * idm)%nat) as Hlx.
  { rewrite (length_flat_map_const idm), length_seq; [done|].
    intros y. by rewrite length_replicate, length_seq. }
  assert (length (flat_map (fun _ : nat => seq 0 idm) (seq 0 jdm))
          = (jdm * idm)%nat) as Hly.
  { rewrite (length_flat_map_const idm), length_seq; [done|].
    intros y. apply length_seq. }
  rewrite (take_labels_positions _ (fun k => (k / idm)%nat) ks); last first.
  { by rewrite Hlx. }
  { intros k Hk. rewrite Hlx in Hk. rewrite length_seq.
    by apply meshgrid_rows_lookup. }
  rewrite (take_labels_positions _ (fun k => (k mod idm)%nat) ks); last first.
  { by rewrite Hly. }
  { intros k Hk. rewrite Hly in Hk. by apply meshgrid_columns_lookup. }
  unfold Mask_init, set_cells, np_full, np_reshape, np_arange.
  cbn [arr_shape arr_data]. rewrite bool_decide_eq_true_2 by done.
  cbn [negb mbind outcome_bind]. eexists. split; [reflexivity|].
  cbn [_index].
  assert (foldl (fun (d : list bool) (xy : nat * nat) =>
                   <[(xy.1 * idm + xy.2)%nat := true]> d)
            (replicate (shape_size [jdm; idm]) false)
            (zip (map (fun k => (k / idm)%nat) ks) (map (fun k => (k mod idm)%nat) ks))
          = map (fun p => bool_decide (p ∈ ks)) (seq 0 (jdm * idm))) as ->.
  { rewrite foldl_zip_maps. cbn [fst snd shape_size foldr].
    rewrite Nat.mul_1_r, <- foldl_set_true.
    assert (forall (l : list nat) (d : list bool),
              Forall (fun k => (k < jdm * idm)%nat) l ->
              foldl (fun (d : list bool) k =>
                       <[(k / idm * idm + k mod idm)%nat := true]> d) d l
              = foldl (fun (d : list bool) k => <[k := true]> d) d l) as Hfold.
    { induction l as [|k l IH]; intros d Hl; simpl; [reflexivity|].
      apply Forall_cons in Hl as [Hk Hl]. rewrite IH by done.
      do 2 f_equal. rewrite (Nat.mul_comm (k / idm) idm).
      symmetry. apply Nat.div_mod_eq. }
    by apply Hfold. }
  rewrite (select_mask_maps (fun p => bool_decide (p ∈ ks))
             (fun k => Num (Z.of_nat k))).
  split; [reflexivity|]. split.
  - apply NoDup_fmap_2; [intros x y [= H]; lia|].
    apply NoDup_filter_list, NoDup_seq.
  - intros l. rewrite !list_elem_of_fmap. split.
    + intros (k & -> & Hk). apply filter_elem in Hk as [_ Hk].
      apply bool_decide_eq_true in Hk. by exists k.
    + intros (k & -> & Hk). exists k. split; [done|].
      apply filter_elem. split; [|by apply bool_decide_eq_true].
      rewrite Forall_forall in Hks. apply elem_of_seq. specialize (Hks k Hk). lia.
Qed.

End MaskFacts.

(** ** Interpolation outside of the depths of a profile *)

Section InterpolationMore.
Import Interpolation.
Variable interp1d : string -> list cell -> list (list cell) -> cell -> result (list cell).

(** X23. On a profile of two rows or more there is no extrapolation: an
    observation deeper than the profile gets a row of the profile that has
    its greatest depth, an observation above it a row that has its smallest
    depth, in both cases with the depth of the observation in the depth
    column; an observation without depth gets missing values in the depth
    column and in the interpolated columns, and the values of the first row
    of the profile in the others.  The interpolation function has no say in
    any of the three. *)
Theorem interpolate_outside_profile (self : Interpolator) (row_name obs_depth : cell)
    (row : Series) (r1 r2 : cell * Row) (rs : list (cell * Row)) :
  List.filter (fun jr => bool_decide (jr.1 = row_name)) (rows (data (_storer self)))
  = r1 :: r2 :: rs ->
  _columns_order self = columns (data (_storer self)) ->
  _x self ∈ columns (data (_storer self)) ->
  series_get row (_x self) = Ok obs_depth ->
  let depths := map (fun ir => row_get ir.2 (_x self)) (r1 :: r2 :: rs) in
  (obs_depth = NaN ->
   interpolate interp1d self row_name row
   = Ok (map (fun c => (c, if decide (_x self = c) then NaN
                           else if decide (c ∈ _ys self) then NaN
                           else row_get r1.2 c))
             (columns (data (_storer self)))))
  /\ (cell_gt obs_depth (series_max depths) = true ->
      exists ir,
        ir ∈ r1 :: r2 :: rs /\ row_get ir.2 (_x self) = series_max depths
        /\ interpolate interp1d self row_name row
           = Ok (map (fun c => (c, if decide (_x self = c) then obs_depth
                                   else row_get ir.2 c))
                     (columns (data (_storer self)))))
  /\ (cell_gt obs_depth (series_max depths) = false ->
      cell_lt obs_depth (series_min depths) = true ->
      exists ir,
        ir ∈ r1 :: r2 :: rs /\ row_get ir.2 (_x self) = series_min depths
        /\ interpolate interp1d self row_name row
           = Ok (map (fun c => (c, if decide (_x self = c) then obs_depth
                                   else row_get ir.2 c))
                     (columns (data (_storer self))))).
Proof.
  intros Hrows Horder Hx Hdepth depths.
  destruct (interpolate_profile interp1d self row_name obs_depth row r1 r2 rs
              Hrows Horder Hx Hdepth) as (Hnan & Hmax & Hmin & _).
  split; [exact Hnan|]. split; [exact Hmax|exact Hmin].
Qed.

(** X24. On a profile of one row, only an observation strictly deeper or
    strictly higher than the row gets a result, the row with the depth of
    the observation; an observation at the depth of the row, or without
    depth, makes the call raise, as the profile is then a Series and the
    other two branches read its columns. *)
Theorem interpolate_one_row (self : Interpolator) (row_name obs_depth : cell)
    (row : Series) (ir : cell * Row) :
  List.filter (fun jr => bool_decide (jr.1 = row_name)) (rows (data (_storer self)))
  = [ir] ->
  _columns_order self = columns (data (_storer self)) ->
  _x self ∈ columns (data (_storer self)) ->
  series_get row (_x self) = Ok obs_depth ->
  (cell_gt obs_depth (row_get ir.2 (_x self)) = true
   \/ cell_lt obs_depth (row_get ir.2 (_x self)) = true ->
   interpolate interp1d self row_name row
   = Ok (map (fun c => (c, if decide (_x self = c) then obs_depth
                           else row_get ir.2 c))
             (columns (data (_storer self)))))
  /\ (cell_gt obs_depth (row_get ir.2 (_x self)) = false ->
      cell_lt obs_depth (row_get ir.2 (_x self)) = false ->
      interpolate interp1d self row_name row
      = Raise (AttributeError "'Series' object has no attribute 'columns'")).
Proof.
  intros Hone Horder Hx Hdepth.
  assert (forall d : cell, series_max [d] = d) as Hmax by (by intros []).
  assert (forall d : cell, series_min [d] = d) as Hmin by (by intros []).
  assert (series_take
            (series_set (row_to_series (columns (data (_storer self))) ir.2)
               (_x self) obs_depth) (_columns_order self)
          = Ok (map (fun c => (c, if decide (_x self = c) then obs_depth
                                  else row_get ir.2 c))
                  (columns (data (_storer self))))) as Htake.
  { rewrite Horder. apply series_take_map. intros c Hc.
    rewrite series_get_set. destruct (decide (_x self = c)); [reflexivity|].
    by apply series_get_row_to_series. }
  unfold interpolate, loc_label. rewrite Hone. cbn [mbind result_bind].
  rewrite Hdepth. cbn [mbind result_bind].
  unfold slice_column. rewrite (series_get_row_to_series _ _ _ Hx).
  cbn [mbind result_bind]. rewrite Hmax, Hmin.
  split.
  - intros Hout.
    assert (is_nan obs_depth = false) as ->.
    { destruct obs_depth; [|reflexivity]. by destruct Hout. }
    destruct (cell_gt obs_depth (row_get ir.2 (_x self))) eqn:Hgt.
    + unfold _handle_outbound_max. cbn [mbind result_bind]. exact Htake.
    + destruct Hout as [?|Hlt]; [done|]. rewrite Hlt.
      unfold _handle_outbound_min. cbn [mbind result_bind]. exact Htake.
  - intros -> ->. by destruct (is_nan obs_depth).
Qed.

End InterpolationMore.

Lemma interpolate_outside_profile_witness :
  exists ir,
    ir ∈ [(Num 10, ({[ "DATE" := Num 20; "DEPH" := Num (-5); "TEMP" := Num 8 ]} : Row));
          (Num 10, {[ "DATE" := Num 20; "DEPH" := Num (-10); "TEMP" := Num 6 ]});
          (Num 10, {[ "DATE" := Num 20; "DEPH" := Num (-20); "TEMP" := Num 4 ]})]
    /\ row_get ir.2 "DEPH" = Num (-5)
    /\ Interpolation.interpolate interp_at_levels depth_interpolator (Num 10)
         [("DEPH", Num (-2)); ("TEMP", Num 5)]
       = Ok (map (fun c => (c, if decide ("DEPH" = c) then Num (-2) else row_get ir.2 c))
               ["DATE"; "DEPH"; "TEMP"]).
Proof.
  destruct (interpolate_outside_profile interp_at_levels depth_interpolator
              (Num 10) (Num (-2)) [("DEPH", Num (-2)); ("TEMP", Num 5)]
              (Num 10, {[ "DATE" := Num 20; "DEPH" := Num (-5); "TEMP" := Num 8 ]})
              (Num 10, {[ "DATE" := Num 20; "DEPH" := Num (-10); "TEMP" := Num 6 ]})
              [(Num 10, {[ "DATE" := Num 20; "DEPH" := Num (-20); "TEMP" := Num 4 ]})])
    as (_ & Hmax & _).
  - vm_compute. reflexivity.
  - reflexivity.
  - vm_compute. right. left.
  - reflexivity.
  - apply Hmax. vm_compute. reflexivity.
Defined.

Lemma interpolate_one_row_witness :
  Interpolation.interpolate interp_at_levels depth_interpolator (Num 11)
    [("DEPH", Num (-30)); ("TEMP", Num 5)]
  = Ok [("DATE", Num 21); ("DEPH", Num (-30)); ("TEMP", Num 9)].
Proof.
  destruct (interpolate_one_row interp_at_levels depth_interpolator
              (Num 11) (Num (-30)) [("DEPH", Num (-30)); ("TEMP", Num 5)]
              (Num 11, {[ "DATE" := Num 21; "DEPH" := Num (-5); "TEMP" := Num 9 ]}))
    as [Hout _].
  - vm_compute. reflexivity.
  - reflexivity.
  - vm_compute. right. left.
  - reflexivity.
  - rewrite Hout; [vm_compute; reflexivity|]. right. vm_compute. reflexivity.
Defined.

(** ** The rows that a match gives *)

Section MatchMore.
Import Matching.

Lemma fan_out_elem_iff (links : list link) (ir : cell * Row) (i : cell) (r : Row) :
  (i, r) ∈ fan_out links ir <->
  r = ir.2
  /\ ((exists l, l ∈ links /\ sim_index l = ir.1 /\ obs_index l = i)
      \/ (i = NaN /\ forall l, l ∈ links -> sim_index l <> ir.1)).
Proof.
  unfold fan_out.
  destruct (List.filter (fun r0 => bool_decide (sim_index r0 = ir.1)) links)
    as [|l0 ls] eqn:Hf.
  - assert (forall l, l ∈ links -> sim_index l <> ir.1) as Hnone.
    { intros l Hl Heq.
      assert (l ∈ List.filter (fun r0 => bool_decide (sim_index r0 = ir.1)) links) as Hin.
      { apply filter_elem. split; [done|]. by apply bool_decide_eq_true. }
      rewrite Hf in Hin. by apply elem_of_nil in Hin. }
    rewrite list_elem_of_singleton. split.
    + intros [= -> ->]. split; [done|]. by right.
    + intros [-> [(l & Hl & Hs & _)|[-> _]]]; [|done].
      by destruct (Hnone l Hl).
  - rewrite <- Hf. rewrite list_elem_of_fmap. split.
    + intros (l & [= -> ->] & Hl). apply filter_elem in Hl as [Hl Hs].
      apply bool_decide_eq_true in Hs. split; [done|]. left. by exists l.
    + intros [-> [(l & Hl & Hs & <-)|[_ Hnone]]].
      * exists l. split; [done|]. apply filter_elem. split; [done|].
        by apply bool_decide_eq_true.
      * assert (l0 ∈ List.filter (fun r0 => bool_decide (sim_index r0 = ir.1)) links)
          as Hin by (rewrite Hf; left).
        apply filter_elem in Hin as [Hin Hs]. apply bool_decide_eq_true in Hs.
        by destruct (Hnone l0 Hin).
Qed.

Lemma length_fan_out (links : list link) (ir : cell * Row) :
  (1 <= length (fan_out links ir))%nat.
Proof.
  unfold fan_out.
  destruct (List.filter (fun r0 => bool_decide (sim_index r0 = ir.1)) links);
    simpl; lia.
Qed.

(** X25. [match] never raises, whatever the links and the loaded table, and
    its result is the left join of the loaded rows with the links: every
    loaded row is there once for each observation that chose its index,
    under the index of that observation; a loaded row that no observation
    chose is kept too, under a missing index; and nothing else is there, so
    that an observation whose point was not loaded has no row.  The result
    has at least as many rows as the loaded table. *)
Theorem match_left_join (self : Match) (loaded_df : DataFrame) :
  exists out,
    match_ self loaded_df = Ok out
    /\ columns out = columns loaded_df
    /\ (length (rows loaded_df) <= length (rows out))%nat
    /\ (forall i r, (i, r) ∈ rows out <->
          exists s, (s, r) ∈ rows loaded_df
            /\ ((exists l, l ∈ index_link self /\ sim_index l = s /\ obs_index l = i)
                \/ (i = NaN /\ forall l, l ∈ index_link self -> sim_index l <> s))).
Proof.
  eexists. split; [apply match_rows|]. cbn [columns rows].
  split; [reflexivity|]. split.
  - induction (rows loaded_df) as [|ir rs IH]; simpl; [lia|].
    rewrite length_app. pose proof (length_fan_out (index_link self) ir). lia.
  - intros i r. rewrite list_elem_of_In, in_flat_map. split.
    + intros (ir & Hir & Hin). apply list_elem_of_In in Hir, Hin.
      apply fan_out_elem_iff in Hin as [-> Hcase].
      exists ir.1. split; [by destruct ir|done].
    + intros (s & Hs & Hcase). exists (s, r).
      split; [by apply list_elem_of_In|].
      apply list_elem_of_In, fan_out_elem_iff. by split.
Qed.

End MatchMore.

(** ** Files without observation *)

Section LoadAllMore.
Import Matching.
Context {Mask : Type}.
Variable parse_date_from_filepath : string -> result Z.
Variable select : DataFrame -> result (Mask * Match).
Variable loader_load : string -> Mask -> result DataFrame.
Variable finish_storer : Storer -> result Storer.

Local Abbreviation load_file :=
  (Matching.load_file parse_date_from_filepath select loader_load).
Local Abbreviation load_all :=
  (Matching.load_all parse_date_from_filepath select loader_load finish_storer).
Local Abbreviation has_observations :=
  (Matching_has_observations parse_date_from_filepath).

(** X26. The files whose date is the date of no reference row have no part
    in the result of [load_all]: with them or without them in the list of
    files the result is the same, be it a storer or an error, whatever the
    selection and the loader would give for them. *)
Theorem load_all_ignores_files_without_observation (self : SelectiveDataSource)
    (filepaths : list string) :
  date_var_label self ∈ columns (reference self) ->
  load_all self filepaths
  = load_all self (List.filter (has_observations self) filepaths).
Proof.
  intros Hcol. unfold Matching.load_all.
  assert (forall datas,
            fold_result (load_file self) datas filepaths
            = fold_result (load_file self) datas
                (List.filter (has_observations self) filepaths)) as ->; [|reflexivity].
  induction filepaths as [|f fs IH]; intros datas; [reflexivity|].
  cbn [List.filter]. unfold Matching_has_observations at 1.
  destruct (parse_date_from_filepath f) as [date|e] eqn:Hparse.
  - destruct (bool_decide (Num date ∈ reference_dates self)) eqn:Hdate.
    + cbn [fold_result]. destruct (load_file self datas f); [|reflexivity].
      cbn [mbind result_bind]. apply IH.
    + apply bool_decide_eq_false in Hdate. cbn [fold_result].
      rewrite (load_file_skips _ _ _ self datas f date Hcol Hparse Hdate).
      cbn [mbind result_bind]. apply IH.
  - cbn [fold_result]. destruct (load_file self datas f); [|reflexivity].
    cbn [mbind result_bind]. apply IH.
Qed.

End LoadAllMore.

Lemma load_all_ignores_files_without_observation_witness :
  Matching.load_all file_day
    (fun _ => Ok ([true], match_10))
    (fun _ _ => Ok loaded_point_7)
    (fun s => Ok s)
    hycom_source ["archm.2000_020_12"; "archm.2000_010_12"]
  = Matching.load_all file_day
      (fun _ => Ok ([true], match_10))
      (fun _ _ => Ok loaded_point_7)
      (fun s => Ok s)
      hycom_source ["archm.2000_010_12"].
Proof.
  apply (load_all_ignores_files_without_observation file_day
           (fun _ => Ok ([true], match_10)) (fun _ _ => Ok loaded_point_7)
           (fun s => Ok s) hycom_source
           ["archm.2000_020_12"; "archm.2000_010_12"]).
  vm_compute. left.
Defined.

(** ** The theorems above at the example data *)

Lemma Storer_add_renumbers_witness :
  exists s,
    Storer_add storer_north (PyStorer storer_south) = Ok s
    /\ index (data s) = [Num 0; Num 1; Num 2]
    /\ columns (data s) = ["DEPH"; "TEMP"].
Proof.
  destruct (Storer_add_renumbers storer_north storer_south) as (s & Hs & Hi & Hc).
  - vm_compute. reflexivity.
  - reflexivity.
  - exists s. split; [done|]. split; [exact Hi|]. rewrite Hc. vm_compute. reflexivity.
Defined.

Lemma sum_storers_result_witness :
  exists s,
    sum_storers [storer_north; storer_south; storer_east] = Ok (PyStorer s)
    /\ length (rows (data s)) = 5%nat
    /\ variables s = bottle_vars
    /\ category s = "in_situ".
Proof.
  destruct sum_storers_result as (_ & _ & H).
  destruct (H storer_north [storer_south; storer_east])
    as (s & Hs & Hlen & Hv & Hc & _).
  - repeat constructor; vm_compute; reflexivity.
  - exists s. split; [done|]. split; [exact Hlen|]. split; [exact Hv|exact Hc].
Defined.

Lemma NoDup_index_casts : NoDup (index (data casts)).
Proof.
  vm_compute. repeat constructor; intros H;
    repeat (apply elem_of_cons in H as [H|H]; [discriminate|]);
    by apply elem_of_nil in H.
Qed.

Lemma slice_on_dates_data_witness :
  exists sl,
    slice_on_dates casts "DATE" [("start_date", Num 11); ("end_date", Num 16)] = Ok sl
    /\ slice_storer sl = casts
    /\ Slice_data sl
       = Ok {| columns := ["DATE"; "TEMP"];
               rows := [(Num 1, {[ "DATE" := Num 15; "TEMP" := Num 5 ]});
                        (Num 3, {[ "DATE" := Num 12; "TEMP" := Num 7 ]})] |}.
Proof.
  destruct (slice_on_dates_data casts "DATE"
              [("start_date", Num 11); ("end_date", Num 16)]
              (Num 11) (Num 16) (mkVar "DATE" "[]"))
    as (sl & Hsl & Hst & Hdata).
  - exact NoDup_index_casts.
  - reflexivity.
  - reflexivity.
  - vm_compute. reflexivity.
  - vm_compute. left.
  - exists sl. split; [done|]. split; [done|]. rewrite Hdata. vm_compute. reflexivity.
Defined.

Lemma slice_using_index_labels_witness :
  exists s,
    slice_using_index casts [Num 2; Num 0] = Ok s
    /\ category s = "in_situ"
    /\ columns (data s) = ["DATE"; "TEMP"].
Proof.
  destruct (slice_using_index_labels casts [Num 2; Num 0]) as [_ H].
  destruct H as (s & Hs & Hc & _ & _ & Hcols & _).
  - intros l Hl. vm_compute.
    apply elem_of_cons in Hl as [->|Hl]; [right; right; left|].
    apply list_elem_of_singleton in Hl as ->. left.
  - exists s. split; [done|]. split; [exact Hc|exact Hcols].
Defined.

Lemma add_var_then_pop_witness :
  VariableSet_add_var bottle_vars (mkVar "PSAL" "[psu]")
  = Returns (bottle_vars ++ [mkVar "PSAL" "[psu]"])
  /\ VariableSet_pop (bottle_vars ++ [mkVar "PSAL" "[psu]"]) "PSAL"
     = Ok (mkVar "PSAL" "[psu]", bottle_vars).
Proof.
  destruct (add_var_then_pop bottle_vars (mkVar "PSAL" "[psu]")) as [H _].
  apply H. vm_compute. reflexivity.
Defined.

Lemma VariableSet_eq_permutation_witness :
  VariableSet.eq bottle_vars [mkVar "TEMP" "[deg_C]"; mkVar "DEPH" "[meter]"] = true.
Proof.
  apply VariableSet_eq_permutation.
  - vm_compute. repeat constructor; intros H;
      repeat (apply elem_of_cons in H as [H|H]; [discriminate|]);
      by apply elem_of_nil in H.
  - unfold bottle_vars. apply Permutation_swap.
Defined.

Lemma mandatory_variables_stay_witness :
  exists s,
    RequiredVarsSet_init (mkVar "EXPOCODE" "[]") (mkVar "DATE" "[]")
      (mkVar "YEAR" "[]") (mkVar "MONTH" "[]") (mkVar "DAY" "[]")
      (mkVar "LATITUDE" "[deg_N]") (mkVar "LONGITUDE" "[deg_E]")
      (mkVar "DEPH" "[meter]") None (Some (mkVar "PROVIDER" "[]"))
      [mkVar "TEMP" "[deg_C]"; mkVar "PSAL" "[psu]"] [] = Ok s
    /\ mandatory_present s.
Proof.
  destruct (mandatory_variables_stay (mkVar "EXPOCODE" "[]") (mkVar "DATE" "[]")
              (mkVar "YEAR" "[]") (mkVar "MONTH" "[]") (mkVar "DAY" "[]")
              (mkVar "LATITUDE" "[deg_N]") (mkVar "LONGITUDE" "[deg_E]")
              (mkVar "DEPH" "[meter]") None (Some (mkVar "PROVIDER" "[]"))
              [mkVar "TEMP" "[deg_C]"; mkVar "PSAL" "[psu]"] []) as [H _].
  apply H. vm_compute. reflexivity.
Defined.

Lemma is_loadable_monotone_witness :
  is_loadable feature_F1 [var_C; mkVar "B" "[other]"; var_A] = true.
Proof.
  apply (is_loadable_monotone feature_F1 [var_A; var_B]).
  - reflexivity.
  - intros x Hx. apply elem_of_cons in Hx as [->|Hx].
    + exists var_A. split; [right; right; left|reflexivity].
    + apply list_elem_of_singleton in Hx as ->.
      exists (mkVar "B" "[other]"). split; [right; left|reflexivity].
Defined.

Lemma iter_yields_once_witness :
  exists it,
    FeatureVariablesSet.iter_constructables_features
      [feature_F2; feature_F1] [var_A; var_B; var_C] = Some it
    /\ NoDup (FeatureVariablesSet.yielded it).
Proof.
  apply iter_yields_once.
  repeat constructor; intros H;
    repeat (apply elem_of_cons in H as [H|H]; [discriminate|]);
    by apply elem_of_nil in H.
Defined.

Lemma iter_one_pass_witness :
  FeatureVariablesSet.iter_constructables_features
    [feature_G1; feature_F1] [var_A; var_B]
  = Some {| FeatureVariablesSet.yielded := [feature_G1; feature_F1];
            FeatureVariablesSet.raised := None |}.
Proof.
  apply iter_one_pass. intros f Hf.
  apply elem_of_cons in Hf as [->|Hf]; [reflexivity|].
  apply list_elem_of_singleton in Hf as ->. reflexivity.
Defined.

Lemma Mask_call_values_witness :
  exists m series,
    GridMask.Mask_init grid_mask grid_index = Returns m
    /\ GridMask.Mask_call m grid_temperature = Returns series
    /\ series = [(Num 1, Num 11); (Num 4, Num 14); (Num 5, NaN)].
Proof.
  eexists.
  destruct (Mask_call_values grid_mask grid_index grid_temperature
              {| GridMask._index_2d := grid_index;
                 GridMask._mask := grid_mask;
                 GridMask._index := [Num 1; Num 4; Num 5] |})
    as (series & Hcall & Hs & _); [reflexivity..|].
  exists series. split; [reflexivity|]. split; [exact Hcall|].
  rewrite Hs. reflexivity.
Defined.

Lemma intersect_narrows_witness :
  exists m',
    GridMask.intersect
      {| GridMask._index_2d := grid_index;
         GridMask._mask := grid_mask;
         GridMask._index := [Num 1; Num 4; Num 5] |} grid_sea = Returns m'
    /\ GridMask._index m' = [Num 1; Num 5].
Proof.
  destruct (intersect_narrows grid_mask grid_index
              {| GridMask._index_2d := grid_index;
                 GridMask._mask := grid_mask;
                 GridMask._index := [Num 1; Num 4; Num 5] |} grid_sea)
    as [_ H]; [reflexivity|].
  destruct H as (m' & Hm & _ & Hi & _); [reflexivity|].
  exists m'. split; [exact Hm|]. rewrite Hi. reflexivity.
Defined.

Lemma select_marks_chosen_cells_witness :
  exists m,
    GridMask.select 2 3 chosen_cells = Returns (m, Matching.Match_init chosen_cells)
    /\ GridMask._index m = [Num 1; Num 4].
Proof.
  destruct (select_marks_chosen_cells 2 3 chosen_cells [4; 4; 1]%nat)
    as (m & Hm & Hi & _).
  - reflexivity.
  - repeat constructor; simpl; lia.
  - exists m. split; [exact Hm|]. rewrite Hi. vm_compute. reflexivity.
Defined.
